(** * Verification model of photo-organiser

    Shallow embedding of the two front-ends of the repository:
    - [photo_organizer.py] (Tkinter front-end), module [Tk];
    - [pics.py] (Streamlit front-end), module [Pics].
    Both share the path helpers of [os.path] and the string methods used
    on paths, modelled in module [PyPath], and the I/O environment and
    the destination-name resolver, modelled in module [Env].

    External collaborators (PIL, rawpy, pillow_heif, imagehash, piexif and
    the operating system's clock, permissions and I/O errors) are the
    fields of the record [Env.env]: every theorem quantifies over it and
    holds for all of their behaviours unless it says otherwise. *)

From Stdlib Require Import ZArith QArith Ascii String List Sorted Lia.
From stdpp Require Import base gmap strings list pretty.

Open Scope string_scope.

(* ------------------------------------------------------------------ *)
(** ** Strings and paths ([str.lower], [str.endswith], [os.path]) *)
(* ------------------------------------------------------------------ *)

Module PyPath.

Definition path := string.

(** [str.lower] on ASCII characters. *)
Definition lower_ascii (c : ascii) : ascii :=
  let n := nat_of_ascii c in
  if (65 <=? n)%nat && (n <=? 90)%nat then ascii_of_nat (n + 32) else c.

Definition lower (s : string) : string :=
  string_of_list_ascii (map lower_ascii (list_ascii_of_string s)).

(** [s.endswith(suffix)]. *)
Definition endswith (s suffix : string) : bool :=
  let ls := list_ascii_of_string s in
  let lx := list_ascii_of_string suffix in
  (length lx <=? length ls)%nat &&
  bool_decide (skipn (length ls - length lx) ls = lx).

(** [s.endswith((s1, s2, ...))]. *)
Definition endswith_any (s : string) (suffixes : list string) : bool :=
  existsb (endswith s) suffixes.

(** [x in (s1, s2, ...)] on a tuple of strings. *)
Definition str_in (x : string) (xs : list string) : bool :=
  existsb (fun y => bool_decide (x = y)) xs.

(** [s.rfind(c)]: the last index of [c], [None] for -1. *)
Fixpoint rfind_go (l : list ascii) (c : ascii) (i : nat) (acc : option nat)
  : option nat :=
  match l with
  | [] => acc
  | d :: l' =>
      rfind_go l' c (S i) (if bool_decide (d = c) then Some i else acc)
  end.

Definition rfind (l : list ascii) (c : ascii) : option nat := rfind_go l c 0 None.

Definition slash : ascii := "/"%char.
Definition dot : ascii := "."%char.

(** [posixpath.basename]: the part after the last ['/']. *)
Definition basename (p : path) : string :=
  let l := list_ascii_of_string p in
  match rfind l slash with
  | Some i => string_of_list_ascii (skipn (S i) l)
  | None => p
  end.

(** [os.path.join(a, b)] for a relative [b] and a directory [a] that does
    not end in ['/']. *)
Definition join (a b : string) : path := a +:+ "/" +:+ b.

(** [genericpath._splitext(p, '/', None, '.')]:
    leading dots of the file name are not extension separators. *)
Fixpoint all_dots (l : list ascii) : bool :=
  match l with
  | [] => true
  | c :: l' => bool_decide (c = dot) && all_dots l'
  end.

Definition splitext (p : path) : string * string :=
  let l := list_ascii_of_string p in
  let sepIndex : Z := match rfind l slash with Some i => Z.of_nat i | None => (-1)%Z end in
  match rfind l dot with
  | Some dotIndex =>
      if (sepIndex <? Z.of_nat dotIndex)%Z then
        (* the characters between the separator and the dot *)
        let filename_part := skipn (Z.to_nat (sepIndex + 1)) (firstn dotIndex l) in
        if all_dots filename_part then (p, "")
        else (string_of_list_ascii (firstn dotIndex l),
              string_of_list_ascii (skipn dotIndex l))
      else (p, "")
  | None => (p, "")
  end.

(** [posixpath.split]:
<<
    i = p.rfind(sep) + 1
    head, tail = p[:i], p[i:]
    if head and head != sep*len(head):
        head = head.rstrip(sep)
    return head, tail
>> *)
Fixpoint all_slashes (l : list ascii) : bool :=
  match l with
  | [] => true
  | c :: l' => bool_decide (c = slash) && all_slashes l'
  end.

Fixpoint lstrip_slashes (l : list ascii) : list ascii :=
  match l with
  | [] => []
  | c :: l' => if bool_decide (c = slash) then lstrip_slashes l' else l
  end.

(** [s.rstrip('/')] *)
Definition rstrip_slashes (l : list ascii) : list ascii := rev (lstrip_slashes (rev l)).

Definition split (p : path) : string * string :=
  let l := list_ascii_of_string p in
  let i := match rfind l slash with Some k => S k | None => 0%nat end in
  let head := firstn i l in
  let tail := skipn i l in
  let head := if negb (bool_decide (head = [])) && negb (all_slashes head)
              then rstrip_slashes head else head in
  (string_of_list_ascii head, string_of_list_ascii tail).

(** [os.path.dirname] *)
Definition dirname (p : path) : path := fst (split p).

(** Decimal rendering of a counter, as in an f-string. *)
Definition show_nat (n : nat) : string := pretty (N.of_nat n).

(** Zero-padded rendering used by [strftime('%Y')] and [strftime('%m')]. *)
Definition pad_left (w : nat) (s : string) : string :=
  String.concat "" (repeat "0" (w - String.length s)) +:+ s.

End PyPath.

(* ------------------------------------------------------------------ *)
(** ** Extension tables *)
(* ------------------------------------------------------------------ *)

Module Ext.
Definition IMAGE_EXTENSIONS := [".jpg"; ".jpeg"; ".png"].
Definition CONVERTIBLE_IMAGE_EXTENSIONS := [".cr2"; ".raw"; ".tif"; ".tiff"; ".heic"].
Definition ALL_IMAGE_EXTENSIONS := (IMAGE_EXTENSIONS ++ CONVERTIBLE_IMAGE_EXTENSIONS)%list.
Definition VIDEO_EXTENSIONS := [".mp4"; ".mov"; ".avi"; ".mkv"; ".webm"; ".flv"].
End Ext.

(* ------------------------------------------------------------------ *)
(** ** Dates, file contents, the file system and the external collaborators *)
(* ------------------------------------------------------------------ *)

Module Env.
Import PyPath.

(** A [datetime.datetime] value. *)
Record datetime := mkDatetime {
  dt_year : Z; dt_month : Z; dt_day : Z;
  dt_hour : Z; dt_minute : Z; dt_second : Z }.

(** [d.strftime('%Y')] and [d.strftime('%m')]. *)
Definition strftime_Y (d : datetime) : string := pad_left 4 (pretty (Z.to_N (dt_year d))).
Definition strftime_m (d : datetime) : string := pad_left 2 (pretty (Z.to_N (dt_month d))).

(** File contents: a list of bytes. *)
Definition content := list Z.

(** A value of the EXIF dictionary returned by [img._getexif()]. *)
Inductive exif_value :=
| ExifStr (s : string)   (* an ASCII tag, e.g. a timestamp *)
| ExifOther.             (* a rational, an integer or a byte string *)

(** What [Image.open(path)] followed by [img._getexif() or {}] gives. *)
Inductive exif_read :=
| ExifOpenFails                            (* PIL raises *)
| ExifDict (entries : list (Z * exif_value)). (* [None] is read as the empty dict *)

(** [ExifTags.TAGS.get(tag, tag)] compared with ["DateTimeOriginal"]: the
    only tag id PIL names ["DateTimeOriginal"] is 36867 (0x9003). *)
Definition TAG_DateTimeOriginal : Z := 36867.
Definition decodes_to_DateTimeOriginal (tag : Z) : bool := (tag =? TAG_DateTimeOriginal)%Z.

(** The formats [convert_to_jpg] dispatches on. *)
Inductive fmt :=
| FRawpy   (* rawpy.imread(...).postprocess() *)
| FPil     (* Image.open(...).convert('RGB') *)
| FHeif.   (* pillow_heif.open_heif(...) *)

(** Outcome of the best-effort step
    [piexif.insert(piexif.dump(piexif.load(src)), dst)]. *)
Inductive exif_step :=
| ExifInvalid                   (* piexif.InvalidImageDataError: skipped *)
| ExifFailed                    (* any other exception: logged *)
| ExifInserted (dst' : content). (* the rewritten destination bytes *)

(** The collaborators the code calls through libraries and the OS. *)
Record env := mkEnv {
  (** [Image.open(p)._getexif()] on the bytes of [p] *)
  exif_of : content -> exif_read;
  (** [datetime.strptime(s, '%Y:%m:%d %H:%M:%S')]; [None] is [ValueError] *)
  strptime : string -> option datetime;
  (** [datetime.fromtimestamp(os.path.getmtime(p))]; [None] if it raises *)
  getmtime : path -> option datetime;
  (** [datetime.now()] *)
  now : datetime;
  (** decoding with rawpy / PIL / pillow_heif and encoding as JPEG;
      [None] if the decoder raises *)
  decode : fmt -> content -> option content;
  (** [piexif.load(input)] inserted into the converted JPEG; [None] if it raises *)
  carry_exif : content -> content -> option content;
  (** [imagehash.average_hash(Image.open(p))] as an integer; [None] if it raises *)
  average_hash : content -> option Z;
  (** the EXIF re-insertion of [copy_file_with_progress] on (source, destination) bytes *)
  exif_transfer : content -> content -> exif_step;
  (** whether the OS lets [open(p, 'wb')] create or truncate [p]
      (permissions, read-only media) *)
  can_write : path -> bool;
  (** the number of bytes that can still be written to [p] before a write
      raises (a full disk, a quota); [None] for no limit *)
  write_limit : path -> option nat;
  (** whether [shutil.copystat(src, dst)] succeeds *)
  can_copystat : path -> path -> bool;
  (** whether the OS lets [os.mkdir(p)] create [p] once its parent exists *)
  can_mkdir : path -> bool;
  (** whether [os.remove(p)] succeeds on the regular file [p] *)
  can_remove : path -> bool;
  (** [str(e)] of the library exception a log message reports, given the
      message text before it *)
  exc_str : string -> string }.

(** The file system: regular files with their bytes, and directories. *)
Record fsys := mkFS { fs_files : gmap string content; fs_dirs : gset string }.

(** [os.path.exists(p)] *)
Definition exists_ (f : fsys) (p : path) : bool :=
  bool_decide (p ∈ dom (fs_files f)) || bool_decide (p ∈ fs_dirs f).

(** [os.path.isdir(p)] *)
Definition isdir (f : fsys) (p : path) : bool := bool_decide (p ∈ fs_dirs f).

(** Writing the bytes [c] to the file [p]. *)
Definition write_file (f : fsys) (p : path) (c : content) : fsys :=
  mkFS (<[p := c]> (fs_files f)) (fs_dirs f).

(** [os.remove(p)] *)
Definition remove (f : fsys) (p : path) : fsys :=
  mkFS (delete p (fs_files f)) (fs_dirs f).

(** Reading the bytes of [p]. *)
Definition read_file (f : fsys) (p : path) : option content := fs_files f !! p.

(** The parent directory [os.path.dirname(p)] is the current directory or
    an existing directory. *)
Definition parent_is_dir (f : fsys) (p : path) : bool :=
  bool_decide (dirname p = "") || isdir f (dirname p).

(** [open(p, 'wb')] (or ['w']) succeeds: [p] is not a directory, its
    parent is one, and the OS allows the write. *)
Definition open_w_ok (E : env) (f : fsys) (p : path) : bool :=
  negb (isdir f p) && parent_is_dir f p && can_write E p.

(** Whether [k] bytes in total fit under a write limit, and how many more
    bytes fit after [k]. *)
Definition fits (limit : option nat) (k : nat) : bool :=
  match limit with None => true | Some n => (k <=? n)%nat end.

Definition room (limit : option nat) (k : nat) : nat :=
  match limit with None => 0 | Some n => n - k end.

(** Writing [c] to a file opened with [open_w_ok]: the file is truncated
    and the bytes that fit are written; [false] when the write raised. *)
Definition write_bytes (E : env) (f : fsys) (p : path) (c : content) : fsys * bool :=
  if fits (write_limit E p) (length c) then (write_file f p c, true)
  else (write_file f p (firstn (room (write_limit E p) 0) c), false).

(** The errors [os.mkdir] and [os.makedirs] raise. *)
Inductive oserror := FileExistsError | OtherOSError.

(** [r is None]: the call did not raise. *)
Definition ok_of (r : option oserror) : bool :=
  match r with None => true | Some _ => false end.

(** [os.mkdir(p)] *)
Definition mkdir (E : env) (f : fsys) (p : path) : fsys + oserror :=
  if exists_ f p then inr FileExistsError
  else if parent_is_dir f p && can_mkdir E p then inl (mkFS (fs_files f) ({[p]} ∪ fs_dirs f))
  else inr OtherOSError.

(** The first lines of [os.makedirs]:
<<
    head, tail = path.split(name)
    if not tail:
        head, tail = path.split(head)
>> *)
Definition makedirs_split (name : path) : string * string :=
  let '(head, tail) := split name in
  if bool_decide (tail = "") then split head else (head, tail).

(** Its last lines:
<<
    try:
        mkdir(name, mode)
    except OSError:
        if not exist_ok or not path.isdir(name):
            raise
>> *)
Definition makedirs_leaf (E : env) (f : fsys) (name : path) (exist_ok : bool)
    : fsys * option oserror :=
  match mkdir E f name with
  | inl f1 => (f1, None)
  | inr err => if exist_ok && isdir f name then (f, None) else (f, Some err)
  end.

(** [os.makedirs(name, exist_ok=exist_ok)]; [Some err] is the error it
    raises.  The recursive call on the head:
<<
    if head and tail and not path.exists(head):
        try:
            makedirs(head, exist_ok=exist_ok)
        except FileExistsError:
            pass
        cdir = curdir
        if isinstance(tail, bytes):
            cdir = bytes(curdir, 'ASCII')
        if tail == cdir:
            return
>>
    Every recursive call is on a shorter path, so the fuel given by
    [makedirs] is never exhausted. *)
Fixpoint makedirs_go (E : env) (fuel : nat) (f : fsys) (name : path) (exist_ok : bool)
    : fsys * option oserror :=
  match fuel with
  | O => (f, Some OtherOSError)
  | S fuel' =>
      let '(head, tail) := makedirs_split name in
      if negb (bool_decide (head = "")) && negb (bool_decide (tail = ""))
         && negb (exists_ f head) then
        let '(f1, r) := makedirs_go E fuel' f head exist_ok in
        match r with
        | Some OtherOSError => (f1, r)
        | _ => if bool_decide (tail = ".") then (f1, None)
               else makedirs_leaf E f1 name exist_ok
        end
      else makedirs_leaf E f name exist_ok
  end.

Definition makedirs (E : env) (f : fsys) (name : path) (exist_ok : bool)
    : fsys * option oserror :=
  makedirs_go E (S (String.length name)) f name exist_ok.

(** The collision-avoiding name loop shared by every destination of the
    Tkinter front-end:
<<
    new_path = os.path.join(dir, name)
    base, ext = os.path.splitext(name)
    counter = 1
    while os.path.exists(new_path):
        new_path = os.path.join(dir, f"{base}_{counter}{ext}")
        counter += 1
>>
    The fuel bounds the number of iterations; [resolve_fuel] gives one more
    iteration than there are names in the file system. *)
Fixpoint resolve_loop (fuel : nat) (f : fsys) (dir base ext : string)
    (counter : nat) (cur : path) : path :=
  match fuel with
  | O => cur
  | S fuel' =>
      if exists_ f cur then
        resolve_loop fuel' f dir base ext (S counter)
          (join dir (base +:+ "_" +:+ show_nat counter +:+ ext))
      else cur
  end.

Definition resolve_fuel (f : fsys) : nat :=
  S (size (dom (fs_files f)) + size (fs_dirs f)).

Definition resolve (f : fsys) (dir name : string) : path :=
  let '(base, ext) := splitext name in
  resolve_loop (resolve_fuel f) f dir base ext 1 (join dir name).

(** The bytes of a text written with [open(p, 'w')] (ASCII text). *)
Definition bytes_of (s : string) : content :=
  map (fun a => Z.of_nat (nat_of_ascii a)) (list_ascii_of_string s).

(** A newline. *)
Definition nl : string := String (ascii_of_nat 10) EmptyString.

End Env.

(* ------------------------------------------------------------------ *)
(** ** The Tkinter front-end: [photo_organizer.py] *)
(* ------------------------------------------------------------------ *)

Module Tk.
Import PyPath Env Ext.

(** The exceptions raised inside the per-file [try] block. *)
Inductive exn :=
| XConversionFailed (p : path)   (* f"Conversion failed for {file_path}" *)
| XHashFailed (p : path)         (* f"Failed to calculate hash for {file_to_process_path}" *)
| XMakedirs (p : path).          (* the OSError of os.makedirs(p), lines 307-308 and 334-335 *)

(** The entries appended to [log_data['errors']], one constructor per
    f-string of the source. *)
Inductive log_entry :=
| ECopyFailed (src dst : path)          (* "Failed to copy file {src} to {dst}: {e}" *)
| EExifUnexpected (src : path)          (* "Unexpected error loading/inserting EXIF for {src}: {e}" *)
| EHeicConversion (p : path)            (* "Failed to process HEIC file {input_path} for conversion: {e}" *)
| EConversion (p : path)                (* "Failed to process file {input_path} for conversion: {e}" *)
| EExifAfterConversion (src out : path) (* "Failed to copy EXIF data from {input_path} to {output_path} after conversion: {e}" *)
| EDate (p : path)                      (* "Error getting date for {file_path}: {e}. Using current time as fallback." *)
| EHash (p : path)                      (* "Error calculating hash for {image_path}: {e}" *)
| EProcessingCopied (p : path) (e : exn) (name : string)
                                        (* "Error processing file {file_path}: {e}. Copied to 'Errors' folder: {name}" *)
| EProcessingNotCopied (p : path) (e : exn)
                                        (* "Error processing file {file_path}: {e}. Failed to copy to 'Errors' folder." *)
| ERemoveTemp (p : path).               (* "Error removing temporary file {temp_jpg_path}: {e}" *)

(** The global [log_data] dictionary. *)
Record stats := mkStats {
  files_copied : nat;
  converted_cr2 : nat; converted_raw : nat; converted_tif : nat;
  converted_jpeg : nat; converted_heic : nat;
  videos_copied : nat;
  suspect_duplicates_copied : nat;
  manually_checked_files : nat;
  files_moved_to_errors : nat;
  errors : list log_entry }.

Definition empty_stats : stats := mkStats 0 0 0 0 0 0 0 0 0 0 [].

(** The counters of [log_data], for [log_data[...] += 1]. *)
Inductive counter :=
| CFilesCopied | CCr2 | CRaw | CTif | CHeic
| CVideos | CDuplicates | CManual | CErrors.

Definition bump (c : counter) (s : stats) : stats :=
  match s with
  | mkStats fc cr ra ti jp he vi du ma er es =>
      match c with
      | CFilesCopied => mkStats (S fc) cr ra ti jp he vi du ma er es
      | CCr2 => mkStats fc (S cr) ra ti jp he vi du ma er es
      | CRaw => mkStats fc cr (S ra) ti jp he vi du ma er es
      | CTif => mkStats fc cr ra (S ti) jp he vi du ma er es
      | CHeic => mkStats fc cr ra ti jp (S he) vi du ma er es
      | CVideos => mkStats fc cr ra ti jp he (S vi) du ma er es
      | CDuplicates => mkStats fc cr ra ti jp he vi (S du) ma er es
      | CManual => mkStats fc cr ra ti jp he vi du (S ma) er es
      | CErrors => mkStats fc cr ra ti jp he vi du ma (S er) es
      end
  end.

(** [log_data['errors'].append(e)] *)
Definition log_error (e : log_entry) (s : stats) : stats :=
  match s with
  | mkStats fc cr ra ti jp he vi du ma er es =>
      mkStats fc cr ra ti jp he vi du ma er ((es ++ [e])%list)
  end.

Definition log_opt (e : option log_entry) (s : stats) : stats :=
  match e with Some e => log_error e s | None => s end.

(** *** [get_file_date] (lines 147-176) *)

(** The loop over [exif_data.items()] looking for ["DateTimeOriginal"]. *)
Definition find_date_taken (entries : list (Z * exif_value)) : option exif_value :=
  match find (fun tv => decodes_to_DateTimeOriginal (fst tv)) entries with
  | Some (_, v) => Some v
  | None => None
  end.

(** [if date_taken_str:] *)
Definition truthy (v : exif_value) : bool :=
  match v with ExifStr s => negb (bool_decide (s = "")) | ExifOther => true end.

(** [return datetime.fromtimestamp(os.path.getmtime(file_path))]; if
    [getmtime] raises, the outermost handler logs and returns [now()]. *)
Definition mtime_or_now (E : env) (p : path) : datetime * option log_entry :=
  match getmtime E p with
  | Some d => (d, None)
  | None => (now E, Some (EDate p))
  end.

Definition get_file_date (E : env) (f : fsys) (p : path) : datetime * option log_entry :=
  if endswith_any (lower p) ALL_IMAGE_EXTENSIONS then
    let ex := match read_file f p with None => ExifOpenFails | Some c => exif_of E c end in
    match ex with
    | ExifOpenFails => mtime_or_now E p           (* except Exception *)
    | ExifDict entries =>
        match find_date_taken entries with
        | Some v =>
            if truthy v then
              match v with
              | ExifStr s =>
                  match strptime E s with
                  | Some d => (d, None)
                  | None => mtime_or_now E p      (* except ValueError *)
                  end
              | ExifOther => mtime_or_now E p     (* TypeError: except Exception *)
              end
            else mtime_or_now E p
        | None => mtime_or_now E p
        end
    end
  else mtime_or_now E p.

(** *** [copy_file_with_progress] (lines 40-85) *)

Definition CHUNK_SIZE : nat := N.to_nat 1048576%N.

(** [percentage = (bytes_copied / total_size) * 100]; [None] is the
    [ZeroDivisionError] of [/] on [total_size = 0]. *)
Definition percentage (bytes_copied total_size : nat) : option Q :=
  if (total_size =? 0)%nat then None
  else Some (Qmult (Qdiv (inject_Z (Z.of_nat bytes_copied)) (inject_Z (Z.of_nat total_size)))
                  (inject_Z 100)).

(** The [while True] loop: [rest] is what [fsrc.read] has still to return,
    [written] what has been written to [fdst], [prog] the values given to
    the progress callback, [limit] the write limit of [dst].  The boolean
    is [false] when the loop raised: [fdst.write] on a full device (after
    writing what fits), or the division. *)
Fixpoint chunk_loop (limit : option nat) (fuel chunk total : nat) (rest written : content)
    (bytes_copied : nat) (prog : list Q) : bool * content * list Q :=
  match fuel with
  | O => (true, written, prog)
  | S fuel' =>
      match firstn chunk rest with
      | [] => (true, written, prog)                       (* if not chunk: break *)
      | data =>
          if negb (fits limit (bytes_copied + length data)) then
            (false, (written ++ firstn (room limit bytes_copied) data)%list, prog)
          else
          let written' := (written ++ data)%list in              (* fdst.write(chunk) *)
          let bytes_copied' := (bytes_copied + length data)%nat in
          match percentage bytes_copied' total with
          | None => (false, written', prog)
          | Some q => chunk_loop limit fuel' chunk total (skipn chunk rest) written'
                        bytes_copied' ((prog ++ [q])%list)
          end
      end
  end.

(** The extension test of line 70. *)
Definition exif_copy_applies (src : path) : bool :=
  endswith_any (lower src) IMAGE_EXTENSIONS || endswith_any (lower src) [".tif"; ".tiff"].

(** Returns the boolean result, the file system, the log and the list of
    values passed to [current_file_progress_callback]. *)
Definition copy_file_with_progress (E : env) (f : fsys) (lg : stats) (src dst : path)
    : bool * fsys * stats * list Q :=
  match read_file f src with
  | None => (false, f, log_error (ECopyFailed src dst) lg, [0%Q])   (* getsize raises *)
  | Some c =>
      if negb (open_w_ok E f dst) then
        (false, f, log_error (ECopyFailed src dst) lg, [0%Q])        (* open raises *)
      else
        let '(ok, written, prog) :=
          chunk_loop (write_limit E dst) (S (length c)) CHUNK_SIZE (length c) c [] 0 [] in
        let f1 := write_file f dst written in
        if negb ok then (false, f1, log_error (ECopyFailed src dst) lg, (prog ++ [0%Q])%list)
        else
          let prog' := (prog ++ [inject_Z 100])%list in
          if negb (can_copystat E src dst) then                      (* copystat raises *)
            (false, f1, log_error (ECopyFailed src dst) lg, (prog' ++ [0%Q])%list)
          else if exif_copy_applies src then
            match exif_transfer E c written with
            | ExifInvalid => (true, f1, lg, prog')
            | ExifFailed => (true, f1, log_error (EExifUnexpected src) lg, prog')
            | ExifInserted c' => (true, write_file f1 dst c', lg, prog')
            end
          else (true, f1, lg, prog')
  end.

(** *** [convert_to_jpg] (lines 89-145) *)

(** The branch taken and the [files_converted] key it increments. *)
Definition conversion_kind (input_path : path) : option (fmt * counter) :=
  let l := lower input_path in
  if endswith l ".cr2" then Some (FRawpy, CCr2)
  else if endswith l ".raw" then Some (FRawpy, CRaw)
  else if endswith_any l [".tif"; ".tiff"] then Some (FPil, CTif)
  else if endswith l ".heic" then Some (FHeif, CHeic)
  else None.

(** The decoder reads [input_path] and the encoder writes [output_path]
    ([imageio.imwrite] / [Image.save]), which raises when the file cannot
    be opened for writing or the device fills up. *)
Definition convert_to_jpg (E : env) (f : fsys) (lg : stats) (input_path output_path : path)
    : bool * fsys * stats :=
  match conversion_kind input_path with
  | None => (false, f, lg)                           (* should not happen *)
  | Some (k, cnt) =>
      let err := log_error (match k with
                            | FHeif => EHeicConversion input_path
                            | _ => EConversion input_path
                            end) lg in
      let decoded :=
        match read_file f input_path with
        | Some c => decode E k c
        | None => None
        end in
      match decoded with
      | None => (false, f, err)
      | Some jpg =>
          if negb (open_w_ok E f output_path) then (false, f, err)
          else
          let '(f1, written) := write_bytes E f output_path jpg in
          if negb written then (false, f1, err)
          else
          let lg1 := bump cnt lg in
          (* best-effort EXIF carry-forward, errors logged *)
          if endswith_any (lower input_path) CONVERTIBLE_IMAGE_EXTENSIONS then
            match read_file f input_path with
            | Some src =>
                match carry_exif E src jpg with
                | Some jpg' => (true, write_file f1 output_path jpg', lg1)
                | None => (true, f1, log_error (EExifAfterConversion input_path output_path) lg1)
                end
            | None => (true, f1, lg1)
            end
          else (true, f1, lg1)
      end
  end.

(** *** [calculate_image_hash] (lines 178-187) *)
Definition calculate_image_hash (E : env) (f : fsys) (lg : stats) (image_path : path)
    : option Z * stats :=
  match read_file f image_path with
  | None => (None, log_error (EHash image_path) lg)
  | Some c =>
      match average_hash E c with
      | Some h => (Some h, lg)
      | None => (None, log_error (EHash image_path) lg)
      end
  end.

(** *** [organize_photos_core] (lines 190-438) *)

(** The run's mutable state: the file system, [log_data] and
    [copied_file_hashes]. *)
Record state := mkState { st_fs : fsys; st_log : stats; st_seen : gset Z }.

(** Where a file was sent, with the destination path that was resolved. *)
Inductive route :=
| RMain (dst : path)      (* the organized tree *)
| RDup (dst : path)       (* Suspect Duplicates *)
| RVideo (dst : path)     (* Videos *)
| RManual (dst : path)    (* Manually Check *)
| RError (dst : path).    (* Errors *)

(** One record per iteration of the loop: the file, the fingerprint it got
    past the hash check with (if it got there), the route taken and the
    boolean returned by the copy to that route. *)
Record outcome := mkOutcome {
  o_file : path; o_hash : option Z; o_route : route; o_copied : bool }.

(** Result of the [try] block: completed, or raised with the state
    reached at the [raise] and the fingerprint recorded before it, if any. *)
Inductive body_result :=
| BOk (st : state) (o : outcome)
| BRaise (st : state) (h : option Z) (e : exn).

(** [if not os.path.exists(d): os.makedirs(d)]; [false] when [makedirs]
    raised. *)
Definition ensure_dir (E : env) (f : fsys) (d : path) : fsys * bool :=
  if exists_ f d then (f, true)
  else let '(f1, r) := makedirs E f d false in (f1, ok_of r).

Section Run.
Variable E : env.
Variable destination_dir : path.
Variable structure_choice : string.

Definition suspect_duplicates_dir := join destination_dir "Suspect Duplicates".
Definition videos_base_dir := join destination_dir "Videos".
Definition manually_check_dir := join destination_dir "Manually Check".
Definition errors_dir := join destination_dir "Errors".

(** The year / month folder under [base]. *)
Definition dated_folder (base : path) (d : datetime) : path :=
  if bool_decide (structure_choice = "YYYY") then join base (strftime_Y d)
  else join (join base (strftime_Y d)) (strftime_m d).

(** Resolve a collision-free name in [dir] and copy [src] there. *)
Definition copy_resolved (st : state) (dir : path) (name : string) (src : path)
    : bool * path * fsys * stats :=
  let dst := resolve (st_fs st) dir name in
  let '(ok, f1, lg1, _) := copy_file_with_progress E (st_fs st) (st_log st) src dst in
  (ok, dst, f1, lg1).

(** The image branch after the file to process is known (lines 273-321). *)
Definition image_tail (st : state) (file_path file_to_process_path : path) : body_result :=
  let '(image_hash, lg) := calculate_image_hash E (st_fs st) (st_log st) file_to_process_path in
  let st := mkState (st_fs st) lg (st_seen st) in
  match image_hash with
  | None => BRaise st None (XHashFailed file_to_process_path)
  | Some h =>
      if bool_decide (h ∈ st_seen st) then
        let '(ok, dst, f1, lg1) :=
          copy_resolved st suspect_duplicates_dir (basename file_to_process_path)
            file_to_process_path in
        BOk (mkState f1 (if ok then bump CDuplicates lg1 else lg1) (st_seen st))
            (mkOutcome file_path (Some h) (RDup dst) ok)
      else
        let seen := {[h]} ∪ st_seen st in
        let '(d, le) := get_file_date E (st_fs st) file_to_process_path in
        let target := dated_folder destination_dir d in
        let '(f1, made) := ensure_dir E (st_fs st) target in
        let st := mkState f1 (log_opt le (st_log st)) seen in
        if negb made then BRaise st (Some h) (XMakedirs target)
        else
        let '(ok, dst, f2, lg1) :=
          copy_resolved st target (basename file_to_process_path) file_to_process_path in
        BOk (mkState f2 (if ok then bump CFilesCopied lg1 else lg1) seen)
            (mkOutcome file_path (Some h) (RMain dst) ok)
  end.

(** The [try] block (lines 261-364); also returns [temp_jpg_path]. *)
Definition try_body (st : state) (file_path : path) : body_result * option path :=
  let original_file_extension := lower (snd (splitext file_path)) in
  if str_in original_file_extension ALL_IMAGE_EXTENSIONS then
    if str_in original_file_extension CONVERTIBLE_IMAGE_EXTENSIONS then
      let temp_jpg_path := fst (splitext file_path) +:+ ".jpg" in
      let '(ok, f1, lg1) := convert_to_jpg E (st_fs st) (st_log st) file_path temp_jpg_path in
      let st1 := mkState f1 lg1 (st_seen st) in
      if ok then (image_tail st1 file_path temp_jpg_path, Some temp_jpg_path)
      else (BRaise st1 None (XConversionFailed file_path), Some temp_jpg_path)
    else (image_tail st file_path file_path, None)
  else if str_in original_file_extension VIDEO_EXTENSIONS then
    let '(d, le) := get_file_date E (st_fs st) file_path in
    let target := dated_folder videos_base_dir d in
    let '(f1, made) := ensure_dir E (st_fs st) target in
    let st1 := mkState f1 (log_opt le (st_log st)) (st_seen st) in
    if negb made then (BRaise st1 None (XMakedirs target), None)
    else
    let '(ok, dst, f2, lg1) := copy_resolved st1 target (basename file_path) file_path in
    (BOk (mkState f2 (if ok then bump CVideos lg1 else lg1) (st_seen st))
         (mkOutcome file_path None (RVideo dst) ok), None)
  else
    let '(ok, dst, f1, lg1) := copy_resolved st manually_check_dir (basename file_path) file_path in
    (BOk (mkState f1 (if ok then bump CManual lg1 else lg1) (st_seen st))
         (mkOutcome file_path None (RManual dst) ok), None).

(** The [except] block (lines 366-388): the original file goes to Errors. *)
Definition except_handler (st : state) (file_path : path) (h : option Z) (e : exn)
    : state * outcome :=
  let '(ok, dst, f1, lg1) := copy_resolved st errors_dir (basename file_path) file_path in
  let lg2 := if ok then bump CErrors lg1 else lg1 in
  let msg := if ok then EProcessingCopied file_path e (basename dst)
             else EProcessingNotCopied file_path e in
  (mkState f1 (log_error msg lg2) (st_seen st), mkOutcome file_path h (RError dst) ok).

(** The [finally] block (lines 390-396); [os.remove] raises on a directory
    or when the OS refuses, and the error is logged. *)
Definition finally_cleanup (st : state) (temp_jpg_path : option path) : state :=
  match temp_jpg_path with
  | Some t =>
      if exists_ (st_fs st) t then
        if bool_decide (t ∈ dom (fs_files (st_fs st))) && can_remove E t then
          mkState (remove (st_fs st) t) (st_log st) (st_seen st)
        else
          mkState (st_fs st) (log_error (ERemoveTemp t) (st_log st)) (st_seen st)
      else st
  | None => st
  end.

(** One iteration of [for file in files]. *)
Definition process_file (st : state) (file_path : path) : state * outcome :=
  let '(res, temp_jpg_path) := try_body st file_path in
  let '(st1, o) :=
    match res with
    | BOk st1 o => (st1, o)
    | BRaise st1 h e => except_handler st1 file_path h e
    end in
  (finally_cleanup st1 temp_jpg_path, o).

Fixpoint run_loop (st : state) (files : list path) : state * list outcome :=
  match files with
  | [] => (st, [])
  | file_path :: rest =>
      let '(st1, o) := process_file st file_path in
      let '(st2, os) := run_loop st1 rest in
      (st2, o :: os)
  end.

End Run.

(** The checks and folder creation before the loop (lines 210-239). *)
Inductive setup_result :=
| SetupOk (f : fsys)       (* the loop runs on [f] *)
| SetupFalse (f : fsys)    (* [return False] *)
| SetupRaise (f : fsys).   (* an [os.makedirs] of a special folder raised *)

Fixpoint ensure_dirs (E : env) (f : fsys) (ds : list path) : fsys * bool :=
  match ds with
  | [] => (f, true)
  | d :: ds' =>
      let '(f1, ok) := ensure_dir E f d in
      if ok then ensure_dirs E f1 ds' else (f1, false)
  end.

Definition setup (E : env) (f0 : fsys) (source_dir destination_dir : path) : setup_result :=
  if negb (isdir f0 source_dir) then SetupFalse f0
  else
    let '(f1, ok) :=
      if negb (exists_ f0 destination_dir) then
        let '(f1, r) := makedirs E f0 destination_dir false in (f1, ok_of r)
      else (f0, isdir f0 destination_dir) in
    if negb ok then SetupFalse f1
    else
      let '(f2, ok2) :=
        ensure_dirs E f1 [suspect_duplicates_dir destination_dir;
                          videos_base_dir destination_dir;
                          manually_check_dir destination_dir;
                          errors_dir destination_dir] in
      if ok2 then SetupOk f2 else SetupRaise f2.

(** The summary written to [photo_organizer_log.txt] (lines 404-434). *)
Record report := mkReport {
  rp_path : path; rp_source : path; rp_destination : path;
  rp_structure : string; rp_stats : stats }.

(** [datetime.now().strftime('%Y-%m-%d %H:%M:%S')] *)
Definition strftime_stamp (d : datetime) : string :=
  let two z := pad_left 2 (pretty (Z.to_N z)) in
  strftime_Y d +:+ "-" +:+ strftime_m d +:+ "-" +:+ two (dt_day d) +:+ " " +:+
  two (dt_hour d) +:+ ":" +:+ two (dt_minute d) +:+ ":" +:+ two (dt_second d).

(** [str(e)] of the exceptions of the [try] block. *)
Definition exn_text (E : env) (e : exn) : string :=
  match e with
  | XConversionFailed p => "Conversion failed for " +:+ p
  | XHashFailed p => "Failed to calculate hash for " +:+ p
  | XMakedirs p => exc_str E p
  end.

(** The error messages, with [str(e)] of library exceptions from [exc_str]. *)
Definition entry_text (E : env) (le : log_entry) : string :=
  let with_e s := s +:+ ": " +:+ exc_str E s in
  match le with
  | ECopyFailed src dst => with_e ("Failed to copy file " +:+ src +:+ " to " +:+ dst)
  | EExifUnexpected src => with_e ("Unexpected error loading/inserting EXIF for " +:+ src)
  | EHeicConversion p => with_e ("Failed to process HEIC file " +:+ p +:+ " for conversion")
  | EConversion p => with_e ("Failed to process file " +:+ p +:+ " for conversion")
  | EExifAfterConversion src out =>
      with_e ("Failed to copy EXIF data from " +:+ src +:+ " to " +:+ out +:+ " after conversion")
  | EDate p =>
      with_e ("Error getting date for " +:+ p) +:+ ". Using current time as fallback."
  | EHash p => with_e ("Error calculating hash for " +:+ p)
  | EProcessingCopied p e name =>
      "Error processing file " +:+ p +:+ ": " +:+ exn_text E e +:+
      ". Copied to 'Errors' folder: " +:+ name
  | EProcessingNotCopied p e =>
      "Error processing file " +:+ p +:+ ": " +:+ exn_text E e +:+
      ". Failed to copy to 'Errors' folder."
  | ERemoveTemp p => with_e ("Error removing temporary file " +:+ p)
  end.

(** The text of lines 407-434. *)
Definition report_text (E : env) (rp : report) : string :=
  let s := rp_stats rp in
  let conv := [("CR2", converted_cr2 s); ("RAW", converted_raw s); ("TIF", converted_tif s);
               ("JPEG", converted_jpeg s); ("HEIC", converted_heic s)] in
  let total := (converted_cr2 s + converted_raw s + converted_tif s
                + converted_jpeg s + converted_heic s)%nat in
  "Photo and Video Organization Summary (" +:+ strftime_stamp (now E) +:+ ")" +:+ nl +:+
  String.concat "" (repeat "=" 60) +:+ nl +:+ nl +:+
  "Source Directory: " +:+ rp_source rp +:+ nl +:+
  "Destination Directory: " +:+ rp_destination rp +:+ nl +:+
  "Organization Structure: " +:+ rp_structure rp +:+ nl +:+ nl +:+
  "--- Summary of Processed Files ---" +:+ nl +:+
  "Photos Copied to Organized Folders: " +:+ show_nat (files_copied s) +:+ nl +:+
  "Videos Copied to Organized Folders: " +:+ show_nat (videos_copied s) +:+ nl +:+
  "Suspect Duplicates Copied (Photos only): " +:+ show_nat (suspect_duplicates_copied s) +:+ nl +:+
  "Other Files Copied to 'Manually Check': " +:+ show_nat (manually_checked_files s) +:+ nl +:+
  "Files Moved to 'Errors' Folder: " +:+ show_nat (files_moved_to_errors s) +:+ nl +:+
  nl +:+ "Files Converted (to JPG):" +:+ nl +:+
  (if (0 <? total)%nat then
     String.concat "" (map (fun kc => let '(k, c) := kc in
                                      if (0 <? c)%nat then "  " +:+ k +:+ ": " +:+ show_nat c +:+ nl
                                      else "") conv)
   else "  None" +:+ nl) +:+
  nl +:+ "--- Errors Encountered ---" +:+ nl +:+
  match errors s with
  | [] => "None" +:+ nl
  | es => String.concat "" (map (fun e => "- " +:+ entry_text E e +:+ nl) es)
  end.

(** [with open(log_file_path, 'w') as log_file: ...]; [false] when it raised. *)
Definition write_report (E : env) (f : fsys) (rp : report) : fsys * bool :=
  if open_w_ok E f (rp_path rp) then write_bytes E f (rp_path rp) (bytes_of (report_text E rp))
  else (f, false).

(** How [organize_photos_core] ends: [return True], [return False], or an
    exception escaping it. *)
Inductive status := Completed | ReturnedFalse | Raised.

Record run_result := mkRunResult {
  rr_status : status; rr_fs : fsys; rr_stats : stats;
  rr_trace : list outcome; rr_report : option report }.

(** [organize_photos_core]; [walk] is the list of paths that [os.walk]
    yields for [source_dir], in its order.  [rr_report] is the report when
    it was written. *)
Definition organize_photos_core (E : env) (f0 : fsys) (source_dir destination_dir : path)
    (structure_choice : string) (walk : list path) : run_result :=
  match setup E f0 source_dir destination_dir with
  | SetupFalse f1 => mkRunResult ReturnedFalse f1 empty_stats [] None
  | SetupRaise f1 => mkRunResult Raised f1 empty_stats [] None
  | SetupOk f2 =>
      let '(st, trace) := run_loop E destination_dir structure_choice
                            (mkState f2 empty_stats ∅) walk in
      let rp := mkReport (join destination_dir "photo_organizer_log.txt")
                  source_dir destination_dir structure_choice (st_log st) in
      let '(f3, ok) := write_report E (st_fs st) rp in
      if ok then mkRunResult Completed f3 (st_log st) trace (Some rp)
      else mkRunResult Raised f3 (st_log st) trace None
  end.

End Tk.

(* ------------------------------------------------------------------ *)
(** ** The Streamlit front-end: [pics.py] *)
(* ------------------------------------------------------------------ *)

Module Pics.
Import PyPath Env Ext.

(** The exceptions reaching the per-file [except] block. *)
Inductive exn :=
| XConversionFailed (p : path)   (* f"Conversion failed for {file_path}" *)
| XCopyFailed (src dst : path)   (* an OSError raised by shutil.copy2 *)
| XMakedirs (p : path).          (* the OSError of os.makedirs(p, exist_ok=True) *)

(** Entries of [st.session_state['log_data']['errors']]; the messages
    name files by their basename. *)
Inductive log_entry :=
| EConversion (name : string)    (* "Failed to process file {name} for conversion: {e}" *)
| EDate (name : string)          (* "Error getting date for {name}: {e}. Using current time." *)
| EHash (name : string)          (* "Error calculating hash for {name}: {e}" *)
| EProcessingCopied (name : string) (e : exn)
                                 (* "Error processing {name}: {e}. Copied to 'Errors' folder." *)
| EProcessingNotCopied (name : string) (e : exn) (copy_e : exn).
                                 (* "Error processing {name}: {e}. Failed to copy to 'Errors' folder due to: {copy_e}" *)

(** [st.session_state['log_data']]; it survives from one run to the next. *)
Record stats := mkStats {
  files_copied : nat;
  videos_copied : nat;
  suspect_duplicates_copied : nat;
  manually_checked_files : nat;
  files_moved_to_errors : nat;
  errors : list log_entry }.

Definition empty_stats : stats := mkStats 0 0 0 0 0 [].

Inductive counter := CFilesCopied | CVideos | CDuplicates | CManual | CErrors.

Definition bump (c : counter) (s : stats) : stats :=
  match s with
  | mkStats fc vi du ma er es =>
      match c with
      | CFilesCopied => mkStats (S fc) vi du ma er es
      | CVideos => mkStats fc (S vi) du ma er es
      | CDuplicates => mkStats fc vi (S du) ma er es
      | CManual => mkStats fc vi du (S ma) er es
      | CErrors => mkStats fc vi du ma (S er) es
      end
  end.

Definition log_error (e : log_entry) (s : stats) : stats :=
  match s with
  | mkStats fc vi du ma er es => mkStats fc vi du ma er (es ++ [e])%list
  end.

(** *** [get_file_date] (lines 57-80) *)
Definition get_file_date (E : env) (f : fsys) (p : path) : datetime * option log_entry :=
  let fallback :=
    match getmtime E p with
    | Some d => (d, None)
    | None => (now E, Some (EDate (basename p)))
    end in
  if endswith_any (lower p) ALL_IMAGE_EXTENSIONS then
    let ex := match read_file f p with None => ExifOpenFails | Some c => exif_of E c end in
    match ex with
    | ExifOpenFails => fallback                 (* except Exception: pass *)
    | ExifDict entries =>
        match Tk.find_date_taken entries with
        | Some v =>
            if Tk.truthy v then
              match v with
              | ExifStr s =>
                  match strptime E s with
                  | Some d => (d, None)
                  | None => fallback            (* ValueError: except Exception: pass *)
                  end
              | ExifOther => fallback           (* TypeError: except Exception: pass *)
              end
            else fallback
        | None => fallback
        end
    end
  else fallback.

(** *** [convert_to_jpg] (lines 21-55) *)
Definition convert_to_jpg (E : env) (f : fsys) (lg : stats) (input_path output_path : path)
    : bool * fsys * stats :=
  let l := lower input_path in
  let kind :=
    if endswith_any l [".cr2"; ".raw"] then Some FRawpy
    else if endswith_any l [".tif"; ".tiff"] then Some FPil
    else if endswith l ".heic" then Some FHeif
    else None in
  let err := log_error (EConversion (basename input_path)) lg in
  let exif_step (f1 : fsys) (jpg : content) : fsys :=
    (* piexif load / insert; any exception is ignored *)
    if endswith_any l CONVERTIBLE_IMAGE_EXTENSIONS then
      match read_file f input_path with
      | Some src => match carry_exif E src jpg with
                    | Some jpg' => write_file f1 output_path jpg'
                    | None => f1
                    end
      | None => f1
      end
    else f1 in
  match kind with
  | None => (true, exif_step f [], lg)   (* no branch taken, nothing written *)
  | Some k =>
      let decoded :=
        match read_file f input_path with
        | Some c => decode E k c
        | None => None
        end in
      match decoded with
      | None => (false, f, err)
      | Some jpg =>
          if negb (open_w_ok E f output_path) then (false, f, err)
          else
          let '(f1, written) := write_bytes E f output_path jpg in
          if written then (true, exif_step f1 jpg, lg) else (false, f1, err)
      end
  end.

(** *** [calculate_image_hash] (lines 82-91) *)
Definition calculate_image_hash (E : env) (f : fsys) (lg : stats) (image_path : path)
    : option Z * stats :=
  match match read_file f image_path with
        | Some c => average_hash E c
        | None => None
        end with
  | Some h => (Some h, lg)
  | None => (None, log_error (EHash (basename image_path)) lg)
  end.

(** [shutil.copy2(src, dst)]: the bytes of [src] written at [dst] (into
    [dst/basename(src)] when [dst] is a directory), then [copystat].  The
    boolean is [false] when it raised: [SameFileError], a missing [src],
    a destination that cannot be opened, a write that fills the device
    (after writing what fits) or a failing [copystat]. *)
Definition copy2 (E : env) (f : fsys) (src dst : path) : fsys * bool :=
  let dst := if isdir f dst then join dst (basename src) else dst in
  if bool_decide (src = dst) then (f, false)
  else
    match read_file f src with
    | None => (f, false)
    | Some c =>
        if negb (open_w_ok E f dst) then (f, false)
        else
          let '(f1, written) := write_bytes E f dst c in
          if written then (f1, can_copystat E src dst) else (f1, false)
    end.

(** [os.makedirs(d, exist_ok=True)] on each of [ds], stopping at the first
    that raises. *)
Fixpoint makedirs_each (E : env) (f : fsys) (ds : list path) : fsys * bool :=
  match ds with
  | [] => (f, true)
  | d :: ds' =>
      let '(f1, r) := makedirs E f d true in
      if ok_of r then makedirs_each E f1 ds' else (f1, false)
  end.

(** *** [organize_photos_core] (lines 94-204) *)

Record state := mkState { st_fs : fsys; st_log : stats; st_seen : gset (option Z) }.

Inductive route :=
| RMain (dst : path) | RDup (dst : path) | RVideo (dst : path)
| RManual (dst : path) | RError (dst : path).

(** One record per file: the fingerprint value tested against
    [copied_file_hashes] (if the code got there), the route and whether the
    copy completed. *)
Record outcome := mkOutcome {
  o_file : path; o_hash : option (option Z); o_route : route; o_copied : bool }.

(** [BRaise] keeps the fingerprint tested before the raise, if any. *)
Inductive body_result :=
| BOk (st : state) (o : outcome)
| BRaise (st : state) (h : option (option Z)) (e : exn).

Section Run.
Variable E : env.
Variable tempdir : path.           (* tempfile.gettempdir() *)
Variable destination_dir : path.
Variable structure_choice : string.

Definition suspect_duplicates_dir := join destination_dir "Suspect Duplicates".
Definition videos_base_dir := join destination_dir "Videos".
Definition manually_check_dir := join destination_dir "Manually Check".
Definition errors_dir := join destination_dir "Errors".

Definition dated_folder (base : path) (d : datetime) : path :=
  if bool_decide (structure_choice = "YYYY/MM") then join (join base (strftime_Y d)) (strftime_m d)
  else join base (strftime_Y d).

(** Copy and count, or raise the copy's error. *)
Definition copy_count (st : state) (seen : gset (option Z)) (src dst : path) (c : counter)
    (file_path : path) (h : option (option Z)) (r : route) : body_result :=
  match copy2 E (st_fs st) src dst with
  | (f1, true) => BOk (mkState f1 (bump c (st_log st)) seen) (mkOutcome file_path h r true)
  | (f1, false) => BRaise (mkState f1 (st_log st) (st_seen st)) h (XCopyFailed src dst)
  end.

Definition image_tail (st : state) (file_path file_to_process_path : path) : body_result :=
  let '(image_hash, lg) := calculate_image_hash E (st_fs st) (st_log st) file_to_process_path in
  let st := mkState (st_fs st) lg (st_seen st) in
  if bool_decide (image_hash ∈ st_seen st) then
    let suspect_dup_path := join suspect_duplicates_dir (basename file_to_process_path) in
    copy_count st (st_seen st) file_to_process_path suspect_dup_path CDuplicates
      file_path (Some image_hash) (RDup suspect_dup_path)
  else
    let seen := {[image_hash]} ∪ st_seen st in
    let '(d, le) := get_file_date E (st_fs st) file_to_process_path in
    let lg := match le with Some e => log_error e (st_log st) | None => st_log st end in
    let target := dated_folder destination_dir d in
    let '(f1, r) := makedirs E (st_fs st) target true in
    let st := mkState f1 lg seen in
    if negb (ok_of r) then BRaise st (Some image_hash) (XMakedirs target)
    else
    let new_file_path := join target (basename file_to_process_path) in
    copy_count st seen file_to_process_path new_file_path CFilesCopied
      file_path (Some image_hash) (RMain new_file_path).

Definition try_body (st : state) (file_path : path) : body_result * option path :=
  let original_file_extension := lower (snd (splitext file_path)) in
  if str_in original_file_extension ALL_IMAGE_EXTENSIONS then
    if str_in original_file_extension CONVERTIBLE_IMAGE_EXTENSIONS then
      let temp_jpg_path := join tempdir (basename file_path +:+ ".jpg") in
      let '(ok, f1, lg1) := convert_to_jpg E (st_fs st) (st_log st) file_path temp_jpg_path in
      let st1 := mkState f1 lg1 (st_seen st) in
      if ok then (image_tail st1 file_path temp_jpg_path, Some temp_jpg_path)
      else (BRaise st1 None (XConversionFailed file_path), Some temp_jpg_path)
    else (image_tail st file_path file_path, None)
  else if str_in original_file_extension VIDEO_EXTENSIONS then
    let '(d, le) := get_file_date E (st_fs st) file_path in
    let lg := match le with Some e => log_error e (st_log st) | None => st_log st end in
    let target := dated_folder videos_base_dir d in
    let '(f1, r) := makedirs E (st_fs st) target true in
    let st1 := mkState f1 lg (st_seen st) in
    if negb (ok_of r) then (BRaise st1 None (XMakedirs target), None)
    else
    let new_file_path := join target (basename file_path) in
    (copy_count st1 (st_seen st) file_path new_file_path CVideos file_path None
       (RVideo new_file_path), None)
  else
    let misc_target_path := join manually_check_dir (basename file_path) in
    (copy_count st (st_seen st) file_path misc_target_path CManual file_path None
       (RManual misc_target_path), None).

Definition except_handler (st : state) (file_path : path) (h : option (option Z)) (e : exn)
    : state * outcome :=
  let error_target_path := join errors_dir (basename file_path) in
  match copy2 E (st_fs st) file_path error_target_path with
  | (f1, true) =>
      (mkState f1 (bump CErrors (log_error (EProcessingCopied (basename file_path) e) (st_log st)))
         (st_seen st), mkOutcome file_path h (RError error_target_path) true)
  | (f1, false) =>
      (mkState f1
         (log_error (EProcessingNotCopied (basename file_path) e
                       (XCopyFailed file_path error_target_path)) (st_log st)) (st_seen st),
       mkOutcome file_path h (RError error_target_path) false)
  end.

(** The [finally] block: [os.remove] is not guarded here, so removing a
    directory, or a file the OS refuses to remove, raises out of
    [organize_photos_core] (flag [false]). *)
Definition finally_cleanup (st : state) (temp_jpg_path : option path) : state * bool :=
  match temp_jpg_path with
  | Some t =>
      if exists_ (st_fs st) t then
        if bool_decide (t ∈ dom (fs_files (st_fs st))) && can_remove E t then
          (mkState (remove (st_fs st) t) (st_log st) (st_seen st), true)
        else (st, false)
      else (st, true)
  | None => (st, true)
  end.

(** One iteration; the flag is [false] when an exception escaped. *)
Definition process_file (st : state) (file_path : path) : state * outcome * bool :=
  let '(res, temp_jpg_path) := try_body st file_path in
  let '(st1, o) :=
    match res with
    | BOk st1 o => (st1, o)
    | BRaise st1 h e => except_handler st1 file_path h e
    end in
  let '(st2, ok) := finally_cleanup st1 temp_jpg_path in
  (st2, o, ok).

(** The loop; the flag is [false] when an exception escaped and ended the
    run. *)
Fixpoint run_loop (st : state) (files : list path) : state * list outcome * bool :=
  match files with
  | [] => (st, [], true)
  | file_path :: rest =>
      let '(st1, o, ok) := process_file st file_path in
      if ok then
        let '(st2, os, ok2) := run_loop st1 rest in (st2, o :: os, ok2)
      else (st1, [o], false)
  end.

End Run.

(** [organize_photos_core(source_dir, destination_dir, structure_choice)]
    with the session's [log_data] [lg0]; [walk] lists what [os.walk]
    yields.  The flag is [false] when an exception escaped: from the
    creation of the special folders (lines 124-132, before the loop) or
    from the loop. *)
Definition organize_photos_core (E : env) (tempdir : path) (f0 : fsys) (lg0 : stats)
    (destination_dir structure_choice : string) (walk : list path)
    : state * list outcome * bool :=
  let '(f1, ok) := makedirs_each E f0 [suspect_duplicates_dir destination_dir;
                                       videos_base_dir destination_dir;
                                       manually_check_dir destination_dir;
                                       errors_dir destination_dir] in
  if ok then run_loop E tempdir destination_dir structure_choice (mkState f1 lg0 ∅) walk
  else (mkState f1 lg0 ∅, [], false).

End Pics.

(* ------------------------------------------------------------------ *)
(** ** Observations on the run state *)
(* ------------------------------------------------------------------ *)

Module Measure.
Import PyPath Env.

(** The five per-category counters of the Tkinter [log_data]. *)
Definition tk_tally (s : Tk.stats) : nat * nat * nat * nat * nat :=
  (Tk.files_copied s, Tk.videos_copied s, Tk.suspect_duplicates_copied s,
   Tk.manually_checked_files s, Tk.files_moved_to_errors s).

(** The counter a route increments when its copy returns [True]. *)
Definition tk_route_counter (r : Tk.route) : Tk.counter :=
  match r with
  | Tk.RMain _ => Tk.CFilesCopied | Tk.RDup _ => Tk.CDuplicates
  | Tk.RVideo _ => Tk.CVideos | Tk.RManual _ => Tk.CManual
  | Tk.RError _ => Tk.CErrors
  end.

Definition tk_route_dst (r : Tk.route) : path :=
  match r with
  | Tk.RMain d | Tk.RDup d | Tk.RVideo d | Tk.RManual d | Tk.RError d => d
  end.

Definition is_main (r : Tk.route) : bool := match r with Tk.RMain _ => true | _ => false end.
Definition is_dup (r : Tk.route) : bool := match r with Tk.RDup _ => true | _ => false end.
Definition is_error (r : Tk.route) : bool := match r with Tk.RError _ => true | _ => false end.

Definition pics_is_main (r : Pics.route) : bool := match r with Pics.RMain _ => true | _ => false end.
Definition pics_is_dup (r : Pics.route) : bool := match r with Pics.RDup _ => true | _ => false end.

(** The number of outcomes satisfying [p]. *)
Definition count_if {A} (p : A -> bool) (l : list A) : nat := length (List.filter p l).

(** The fingerprints of the outcomes that reached the duplicate test. *)
Definition tk_hashes (tr : list Tk.outcome) : list Z := omap Tk.o_hash tr.
Definition pics_hashes (tr : list Pics.outcome) : list (option Z) := omap Pics.o_hash tr.

End Measure.

(* ------------------------------------------------------------------ *)
(** ** Concrete collaborators, for evaluating the model on inputs *)
(* ------------------------------------------------------------------ *)

Module Concrete.
Import PyPath Env.

Definition digit (c : ascii) : option Z :=
  let n := nat_of_ascii c in
  if (48 <=? n)%nat && (n <=? 57)%nat then Some (Z.of_nat (n - 48)) else None.

Fixpoint digits (l : list ascii) (acc : Z) : option Z :=
  match l with
  | [] => Some acc
  | c :: l' => match digit c with Some d => digits l' (acc * 10 + d) | None => None end
  end.

(** [datetime.strptime(s, '%Y:%m:%d %H:%M:%S')] on the zero-padded form
    "YYYY:MM:DD HH:MM:SS" (the form cameras write); ranges are checked as
    [datetime] does, except days past the end of a short month. *)
Definition strptime_exif (s : string) : option datetime :=
  match list_ascii_of_string s with
  | [y1; y2; y3; y4; c1; m1; m2; c2; d1; d2; sp; h1; h2; c3; i1; i2; c4; s1; s2] =>
      if bool_decide (c1 = ":"%char /\ c2 = ":"%char /\ sp = " "%char
                      /\ c3 = ":"%char /\ c4 = ":"%char) then
        match digits [y1; y2; y3; y4] 0, digits [m1; m2] 0, digits [d1; d2] 0,
              digits [h1; h2] 0, digits [i1; i2] 0, digits [s1; s2] 0 with
        | Some y, Some mo, Some d, Some h, Some mi, Some se =>
            if (1 <=? mo)%Z && (mo <=? 12)%Z && (1 <=? d)%Z && (d <=? 31)%Z
               && (h <=? 23)%Z && (mi <=? 59)%Z && (se <=? 61)%Z
            then Some (mkDatetime y mo d h mi se) else None
        | _, _, _, _, _, _ => None
        end
      else None
  | _ => None
  end.

(** A test environment: byte 1 at the head of a file marks an embedded
    DateTimeOriginal of 2021:03:15 10:00:00; byte 99 marks a file the
    decoders reject and byte 98 one PIL cannot fingerprint; neither can
    decode or fingerprint an empty file; the fingerprint of any other file
    is the sum of its bytes; every file was last modified on 2023-07-01. *)
Definition test_exif (c : content) : exif_read :=
  match c with
  | 1%Z :: _ => ExifDict [(306%Z, ExifStr "2024:01:01 00:00:00");
                         (TAG_DateTimeOriginal, ExifStr "2021:03:15 10:00:00")]
  | _ => ExifDict []
  end.

Definition mtime_2023 : datetime := mkDatetime 2023 7 1 12 0 0.

Definition test_decode (k : fmt) (c : content) : option content :=
  match c with
  | [] => None
  | 99%Z :: _ => None
  | _ => Some (255%Z :: 216%Z :: c)
  end.

Definition test_hash (c : content) : option Z :=
  match c with
  | [] => None                  (* PIL cannot open an empty file *)
  | 98%Z :: _ => None
  | _ => Some (fold_right Z.add 0%Z c)
  end.

(** The test collaborators with a given EXIF re-insertion, write permission
    and remove permission; no write limit, and [copystat] and [mkdir]
    succeed. *)
Definition test_env_with (xfer : content -> content -> exif_step)
    (can_write can_remove : path -> bool) : env :=
  mkEnv test_exif strptime_exif (fun _ => Some mtime_2023) (mkDatetime 2026 1 1 0 0 0)
        test_decode (fun _ jpg => Some jpg) test_hash xfer
        can_write (fun _ => None) (fun _ _ => true) (fun _ => true) can_remove
        (fun _ => "error").

Definition test_env : env :=
  test_env_with (fun _ _ => ExifInvalid) (fun _ => true) (fun _ => true).

(** The same environment where writing to [bad] fails. *)
Definition env_failing_dst (bad : path) : env :=
  test_env_with (fun _ _ => ExifInvalid) (fun p => negb (bool_decide (p = bad))) (fun _ => true).

(** The same environment where [os.remove] fails on every file (e.g. a
    source folder on read-only media). *)
Definition env_keep_temps : env :=
  test_env_with (fun _ _ => ExifInvalid) (fun _ => true) (fun _ => false).

(** *** A model of piexif for JPEG sources without an Exif segment

    [piexif.load] of such a source gives the empty dictionary, whose
    [piexif.dump] is [dump_empty]; [piexif.insert] then wraps it as an
    APP1 segment and merges it into the destination with
    [_common.merge_segments].  Sources that are not JPEG make [load] raise
    [InvalidImageDataError]. Sources carrying an Exif segment are outside
    this model (they are mapped to [ExifInvalid]). *)











(** A source tree [/src] and an existing destination [/dst]. *)
Definition fs_of (files : list (path * content)) : fsys :=
  mkFS (list_to_map files) {[ "/src"; "/dst" ]}.

(** Two byte-identical images. *)
Definition dup_fs : fsys := fs_of [("/src/a.jpg", [5; 6]%Z); ("/src/b.jpg", [5; 6]%Z)].
Definition dup_walk : list path := ["/src/a.jpg"; "/src/b.jpg"].

(** A batch of five files whose third, a raw file, the decoders reject. *)
Definition batch_fs : fsys :=
  fs_of [("/src/1.jpg", [10]%Z); ("/src/2.jpg", [20]%Z); ("/src/3.CR2", [99; 1]%Z);
         ("/src/4.jpg", [40]%Z); ("/src/5.jpg", [50]%Z)].
Definition batch_walk : list path :=
  ["/src/1.jpg"; "/src/2.jpg"; "/src/3.CR2"; "/src/4.jpg"; "/src/5.jpg"].

(** A raw file next to a JPEG of the same stem. *)
Definition sibling_fs : fsys := fs_of [("/src/b.CR2", [3; 4]%Z); ("/src/b.jpg", [7; 8]%Z)].

(** An image with an embedded DateTimeOriginal of 2021:03:15 10:00:00. *)
Definition dated_fs : fsys := fs_of [("/src/a.jpg", [1; 2]%Z)].

(** Two empty files, an image and a text file. *)
Definition empty_fs : fsys := fs_of [("/src/e.jpg", []); ("/src/e.txt", [])].
Definition empty_walk : list path := ["/src/e.jpg"; "/src/e.txt"].

(** Two images of the same name in different folders, taken on the same day. *)
Definition same_name_fs : fsys :=
  mkFS (list_to_map [("/src/x/a.jpg", [5; 6]%Z); ("/src/y/a.jpg", [7; 6]%Z)])
       {[ "/src"; "/src/x"; "/src/y"; "/dst" ]}.
Definition same_name_walk : list path := ["/src/x/a.jpg"; "/src/y/a.jpg"].

(** Two images that PIL cannot fingerprint. *)
Definition corrupt_fs : fsys := fs_of [("/src/c.jpg", [98; 1]%Z); ("/src/d.jpg", [98; 2]%Z)].
Definition corrupt_walk : list path := ["/src/c.jpg"; "/src/d.jpg"].

(** A raw file the decoders reject whose temporary JPEG path is a directory,
    followed by a JPEG. *)
Definition blocked_fs : fsys :=
  mkFS (list_to_map [("/src/c.CR2", [99]%Z); ("/src/1.jpg", [10]%Z)])
       {[ "/src"; "/dst"; "/tmp/c.CR2.jpg" ]}.
Definition blocked_walk : list path := ["/src/c.CR2"; "/src/1.jpg"].

(** Two byte-identical images, and a regular file where the year folder of
    the destination would go. *)
Definition year_file_fs : fsys :=
  fs_of [("/src/a.jpg", [5; 6]%Z); ("/src/b.jpg", [5; 6]%Z); ("/dst/2023", [0]%Z)].

(** A raw file with a temporary folder [/tmp]. *)
Definition raw_tmp_fs : fsys :=
  mkFS (list_to_map [("/src/b.CR2", [3; 4]%Z)]) {[ "/src"; "/dst"; "/tmp" ]}.

End Concrete.
(* ------------------------------------------------------------------ *)
(** ** Observations used by the further properties *)
(* ------------------------------------------------------------------ *)

Module PathProps.
Import PyPath Env Ext.

(** The [k]-th candidate [dir/base_k.ext] of the collision loop. *)
Definition cand (dir base ext : string) (k : nat) : path :=
  join dir (base +:+ "_" +:+ show_nat k +:+ ext).

(** 1 for [true], 0 for [false]. *)
Definition ind (b : bool) : nat := if b then 1 else 0.

(** The file's lower-cased extension is in [CONVERTIBLE_IMAGE_EXTENSIONS]. *)
Definition convertible (fp : path) : bool :=
  str_in (lower (snd (splitext fp))) CONVERTIBLE_IMAGE_EXTENSIONS.

(** [s] is [name] or one of the names [base_k.ext] tried by the collision loop. *)
Definition resolved_name (name s : string) : Prop :=
  s = name \/ exists k, (1 <= k)%nat /\
    s = fst (splitext name) +:+ "_" +:+ show_nat k +:+ snd (splitext name).

(** [p] is [join dir s] for some [s]. *)
Definition under (dir p : path) : Prop := exists s, p = join dir s.

(** [f'] reads like [f] at every path outside [P]. *)
Definition fs_frame (P : path -> Prop) (f f' : fsys) : Prop :=
  forall p, ~ P p -> read_file f' p = read_file f p.

End PathProps.

Module TkProps.
Import PyPath Env Ext Tk Measure PathProps.

(** The category of a Tkinter route. *)
Definition is_video (r : Tk.route) : bool := match r with Tk.RVideo _ => true | _ => false end.
Definition is_manual (r : Tk.route) : bool := match r with Tk.RManual _ => true | _ => false end.

(** The four per-format conversion counters of [log_data], summed. *)
Definition tk_converted (s : Tk.stats) : nat :=
  Tk.converted_cr2 s + Tk.converted_raw s + Tk.converted_tif s + Tk.converted_heic s.

(** The [converted_jpeg] counter and the summed format counters. *)
Definition tk_conv (s : stats) : nat * nat := (converted_jpeg s, tk_converted s).

(** The destinations the Tkinter loop can pick for [fp]: by extension,
    under a name produced by the collision loop. *)
Definition tk_route_ok (destination_dir structure_choice fp : path) (r : Tk.route) : Prop :=
  let ext := lower (snd (splitext fp)) in
  if str_in ext ALL_IMAGE_EXTENSIONS then
    let name := basename (if str_in ext CONVERTIBLE_IMAGE_EXTENSIONS
                          then fst (splitext fp) +:+ ".jpg" else fp) in
    (exists d s, r = RMain (join (dated_folder structure_choice destination_dir d) s) /\
                 resolved_name name s) \/
    (exists s, r = RDup (join (suspect_duplicates_dir destination_dir) s) /\ resolved_name name s) \/
    (exists s, r = RError (join (errors_dir destination_dir) s) /\ resolved_name (basename fp) s)
  else if str_in ext VIDEO_EXTENSIONS then
    (exists d s, r = RVideo (join (dated_folder structure_choice (videos_base_dir destination_dir) d) s) /\
                 resolved_name (basename fp) s) \/
    (exists s, r = RError (join (errors_dir destination_dir) s) /\ resolved_name (basename fp) s)
  else
    exists s, r = RManual (join (manually_check_dir destination_dir) s) /\ resolved_name (basename fp) s.

(** The paths a Tkinter iteration on [fp] may write or remove. *)
Definition tk_scope (dd fp : path) (p : path) : Prop :=
  under dd p \/ (convertible fp = true /\ p = fst (splitext fp) +:+ ".jpg").

End TkProps.

Module PicsProps.
Import PyPath Env Ext Pics Measure PathProps.

(** The five per-category counters of the Streamlit [log_data]. *)
Definition pics_tally (s : Pics.stats) : nat * nat * nat * nat * nat :=
  (Pics.files_copied s, Pics.videos_copied s, Pics.suspect_duplicates_copied s,
   Pics.manually_checked_files s, Pics.files_moved_to_errors s).

(** The counter a Streamlit route increments when its copy succeeds. *)
Definition pics_route_counter (r : Pics.route) : Pics.counter :=
  match r with
  | Pics.RMain _ => Pics.CFilesCopied | Pics.RDup _ => Pics.CDuplicates
  | Pics.RVideo _ => Pics.CVideos | Pics.RManual _ => Pics.CManual
  | Pics.RError _ => Pics.CErrors
  end.

(** The category of a Streamlit route. *)
Definition pics_is_video (r : Pics.route) : bool := match r with Pics.RVideo _ => true | _ => false end.
Definition pics_is_manual (r : Pics.route) : bool := match r with Pics.RManual _ => true | _ => false end.
Definition pics_is_error (r : Pics.route) : bool := match r with Pics.RError _ => true | _ => false end.

(** [a] has the counters of [b] and extends its error list. *)
Definition log_ext (a b : stats) : Prop :=
  pics_tally a = pics_tally b /\ exists sfx, errors a = (errors b ++ sfx)%list.

(** The destinations the Streamlit loop can pick for [fp]: by extension,
    under the base name of the file it copies, or the file's Errors copy. *)
Definition pics_route_ok (tempdir destination_dir structure_choice fp : path) (r : Pics.route) : Prop :=
  let ext := lower (snd (splitext fp)) in
  let err := RError (join (errors_dir destination_dir) (basename fp)) in
  if str_in ext ALL_IMAGE_EXTENSIONS then
    let name := basename (if str_in ext CONVERTIBLE_IMAGE_EXTENSIONS
                          then join tempdir (basename fp +:+ ".jpg") else fp) in
    (exists d, r = RMain (join (dated_folder structure_choice destination_dir d) name)) \/
    r = RDup (join (suspect_duplicates_dir destination_dir) name) \/ r = err
  else if str_in ext VIDEO_EXTENSIONS then
    (exists d, r = RVideo (join (dated_folder structure_choice (videos_base_dir destination_dir) d)
                             (basename fp))) \/ r = err
  else r = RManual (join (manually_check_dir destination_dir) (basename fp)) \/ r = err.

(** The temporary path blocks the [finally] block of [pics.py] when it is a directory
    or a file the OS refuses to remove. *)
Definition temp_stuck (E : env) (f : fsys) (t : path) : Prop :=
  isdir f t = true \/ (t ∈ dom (fs_files f) /\ can_remove E t = false).

(** The paths a Streamlit run may write or remove. *)
Definition pics_scope (dd td : path) (p : path) : Prop := under dd p \/ under td p.

End PicsProps.

(* ================================================================== *)
(** * Properties *)
(* ================================================================== *)

Open Scope list_scope.


(** ** The file-system operations *)

Module EnvFacts.
Import PyPath Env.

Lemma read_write_ne f p q c : p <> q -> read_file (write_file f q c) p = read_file f p.
Proof. intros. unfold read_file, write_file. simpl. by rewrite lookup_insert_ne. Qed.

Lemma read_write_eq f p c : read_file (write_file f p c) p = Some c.
Proof. unfold read_file, write_file. simpl. by rewrite lookup_insert_eq. Qed.

Lemma exists_elem f p : exists_ f p = true <-> p ∈ dom (fs_files f) ∪ fs_dirs f.
Proof.
  unfold exists_. rewrite orb_true_iff, !bool_decide_eq_true. set_solver.
Qed.

Lemma not_exists_dom f p : exists_ f p = false -> p ∉ dom (fs_files f).
Proof.
  intros H Hp. assert (exists_ f p = true) as H' by (apply exists_elem; set_solver).
  congruence.
Qed.

Lemma isdir_mono f f' x : fs_dirs f ⊆ fs_dirs f' -> isdir f x = true -> isdir f' x = true.
Proof. unfold isdir. rewrite !bool_decide_eq_true. set_solver. Qed.

(** [os.mkdir] adds one directory and no file. *)
Lemma mkdir_spec E f p f1 :
  mkdir E f p = inl f1 ->
  fs_files f1 = fs_files f /\ fs_dirs f ⊆ fs_dirs f1 /\ isdir f1 p = true.
Proof.
  unfold mkdir. destruct (exists_ f p); [done|].
  destruct (parent_is_dir f p && can_mkdir E p); [|done].
  intros [= <-]. simpl. split; [done|]. split; [set_solver|].
  unfold isdir. simpl. apply bool_decide_eq_true. set_solver.
Qed.

Lemma makedirs_leaf_spec E f d b f1 r :
  makedirs_leaf E f d b = (f1, r) ->
  fs_files f1 = fs_files f /\ fs_dirs f ⊆ fs_dirs f1 /\ (r = None -> isdir f1 d = true).
Proof.
  unfold makedirs_leaf. destruct (mkdir E f d) as [f2|err] eqn:Hm.
  - intros [= <- <-]. destruct (mkdir_spec _ _ _ _ Hm) as (H1 & H2 & H3). done.
  - destruct (b && isdir f d) eqn:Hb; intros [= <- <-]; (split; [done|]); (split; [done|]).
    + intros _. apply andb_true_iff in Hb. tauto.
    + done.
Qed.

(** [os.makedirs] creates directories only; when it does not raise, the
    directory exists, unless the last component of the path is ["."]. *)
Lemma makedirs_go_spec E : forall fuel f d b f1 r,
  makedirs_go E fuel f d b = (f1, r) ->
  fs_files f1 = fs_files f /\ fs_dirs f ⊆ fs_dirs f1 /\
  (r = None -> isdir f1 d = true \/ (makedirs_split d).2 = ".").
Proof.
  induction fuel as [|fuel IH]; intros f d b f1 r; simpl.
  - intros [= <- <-]. done.
  - destruct (makedirs_split d) as [head tail] eqn:Hs. simpl.
    destruct (negb _ && negb _ && negb _).
    + destruct (makedirs_go E fuel f head b) as [f2 r2] eqn:Hg.
      destruct (IH _ _ _ _ _ Hg) as (G1 & G2 & _).
      assert (Hk : forall f3 r3,
        (if bool_decide (tail = ".") then (f2, None) else makedirs_leaf E f2 d b) = (f3, r3) ->
        fs_files f3 = fs_files f /\ fs_dirs f ⊆ fs_dirs f3 /\
        (r3 = None -> isdir f3 d = true \/ tail = ".")).
      { intros f3 r3. case_bool_decide as Ht.
        - intros [= <- <-]. split; [done|]. split; [done|]. by right.
        - intros Hl. destruct (makedirs_leaf_spec _ _ _ _ _ _ Hl) as (L1 & L2 & L3).
          split; [congruence|]. split; [set_solver|]. intros Hr. left. by apply L3. }
      destruct r2 as [[|]|]; [apply Hk| |apply Hk].
      intros [= <- <-]. split; [done|]. split; [done|]. done.
    + intros Hl. destruct (makedirs_leaf_spec _ _ _ _ _ _ Hl) as (L1 & L2 & L3).
      split; [done|]. split; [done|]. intros Hr. left. by apply L3.
Qed.

Lemma makedirs_spec E f d b f1 r :
  makedirs E f d b = (f1, r) ->
  fs_files f1 = fs_files f /\ fs_dirs f ⊆ fs_dirs f1 /\
  (r = None -> isdir f1 d = true \/ (makedirs_split d).2 = ".").
Proof. apply makedirs_go_spec. Qed.

Lemma makedirs_files E f d b : fs_files (makedirs E f d b).1 = fs_files f.
Proof.
  destruct (makedirs E f d b) as [f1 r] eqn:H. by destruct (makedirs_spec _ _ _ _ _ _ H).
Qed.

Lemma makedirs_dirs E f d b : fs_dirs f ⊆ fs_dirs (makedirs E f d b).1.
Proof.
  destruct (makedirs E f d b) as [f1 r] eqn:H. simpl. by destruct (makedirs_spec _ _ _ _ _ _ H) as (_ & ? & _).
Qed.

Lemma read_makedirs E f d b p : read_file (makedirs E f d b).1 p = read_file f p.
Proof. unfold read_file. by rewrite makedirs_files. Qed.

(** *** The last component of [join a n] *)






End EnvFacts.

Module TkFacts.
Import PyPath Env Ext Tk Measure EnvFacts.

Ltac crush := repeat (case_match; simplify_eq/=); eauto.

Lemma errors_log_error e s : errors (log_error e s) = errors s ++ [e].
Proof. by destruct s. Qed.

Lemma tally_log_error e s : tk_tally (log_error e s) = tk_tally s.
Proof. by destruct s. Qed.

Lemma errors_bump c s : errors (bump c s) = errors s.
Proof. by destruct s, c. Qed.

Lemma tally_bump_main s :
  tk_tally (bump CFilesCopied s) =
  let '(a, b, c, d, e) := tk_tally s in (S a, b, c, d, e).
Proof. by destruct s. Qed.

Lemma files_copied_bump c s :
  files_copied (bump c s) = files_copied s + (match c with CFilesCopied => 1 | _ => 0 end).
Proof. destruct s, c; simpl; lia. Qed.

Lemma files_moved_to_errors_bump c s :
  files_moved_to_errors (bump c s) = files_moved_to_errors s + (match c with CErrors => 1 | _ => 0 end).
Proof. destruct s, c; simpl; lia. Qed.

Lemma files_copied_log_error e s : files_copied (log_error e s) = files_copied s.
Proof. by destruct s. Qed.

Lemma files_moved_to_errors_log_error e s :
  files_moved_to_errors (log_error e s) = files_moved_to_errors s.
Proof. by destruct s. Qed.

(** *** The chunked copy *)

Local Abbreviation pct k t :=
  (Qmult (Qdiv (inject_Z (Z.of_nat k)) (inject_Z (Z.of_nat t))) (inject_Z 100)).



Lemma firstn_nil_inv {A} n (l : list A) : (0 < n)%nat -> firstn n l = [] -> l = [].
Proof. destruct n, l; simpl; done || lia. Qed.

Lemma fits_mono limit k k' : (k <= k')%nat -> fits limit k' = true -> fits limit k = true.
Proof. destruct limit; simpl; [rewrite !Nat.leb_le; lia|done]. Qed.

Lemma fits_0 limit : fits limit 0 = true.
Proof. by destruct limit. Qed.

Lemma chunk_size_pos : (0 < CHUNK_SIZE)%nat.
Proof. exact (Pos2Nat.is_pos 1048576). Qed.


(** The loop succeeds exactly when the whole content fits the write limit. *)
Lemma chunk_loop_ok limit chunk total : (0 < chunk)%nat ->
  forall fuel rest written bc prog,
  (bc + length rest = total)%nat -> (length rest < fuel)%nat -> fits limit bc = true ->
  (chunk_loop limit fuel chunk total rest written bc prog).1.1 = fits limit total.
Proof.
  intros Hc fuel. induction fuel as [|fuel IH]; intros rest written bc prog Hlen Hfuel Hbc; [lia|].
  simpl. destruct (firstn chunk rest) as [|z l] eqn:Hd.
  { apply firstn_nil_inv in Hd; [|lia]. subst rest. simpl in Hlen.
    rewrite <- Hlen, Nat.add_0_r, Hbc. done. }
  assert (rest <> []) as Hne by (intros ->; rewrite firstn_nil in Hd; done).
  assert (total <> 0)%nat as Ht by (destruct rest; [done|simpl in Hlen; lia]).
  assert (Hsplit : (z :: l) ++ skipn chunk rest = rest) by (rewrite <- Hd; apply take_drop).
  assert (Hl : (length (z :: l) + length (skipn chunk rest) = length rest)%nat)
    by (rewrite <- length_app, Hsplit; done).
  simpl length in Hl |- *.
  destruct (fits limit (bc + S (length l))) eqn:Hf; cbn [negb].
  - unfold percentage. rewrite <- Nat.eqb_neq in Ht. rewrite Ht.
    apply IH; [simpl in Hl |- *; lia|simpl in Hl; lia|done].
  - simpl. symmetry. destruct (fits limit total) eqn:Ht'; [|done].
    rewrite (fits_mono limit _ total) in Hf; [done|simpl in Hl |- *; lia|done].
Qed.

Lemma tally_eq_counters a b : tk_tally a = tk_tally b ->
  files_copied a = files_copied b /\ files_moved_to_errors a = files_moved_to_errors b.
Proof. unfold tk_tally. intros H. by simplify_eq. Qed.

(** *** [copy_file_with_progress] *)

Lemma copy_spec E f lg src dst ok f' lg' pr :
  copy_file_with_progress E f lg src dst = (ok, f', lg', pr) ->
  tk_tally lg' = tk_tally lg /\
  (exists sfx, errors lg' = errors lg ++ sfx /\ (ok = false -> ECopyFailed src dst ∈ sfx)) /\
  (forall p, p <> dst -> read_file f' p = read_file f p) /\
  fs_dirs f' = fs_dirs f.
Proof.
  unfold copy_file_with_progress. intros Hc. revert Hc. generalize CHUNK_SIZE as K. intros K Hc.
  assert (Hfail : tk_tally (log_error (ECopyFailed src dst) lg) = tk_tally lg /\
    (exists sfx, errors (log_error (ECopyFailed src dst) lg) = errors lg ++ sfx /\
                 (ok = false -> ECopyFailed src dst ∈ sfx))).
  { split; [apply tally_log_error|]. exists [ECopyFailed src dst].
    rewrite errors_log_error. split; [done|set_solver]. }
  destruct (read_file f src) as [c|].
  2:{ injection Hc as <- <- <- <-. destruct Hfail as [H1 H2]. done. }
  destruct (open_w_ok E f dst); cbn [negb] in Hc.
  2:{ injection Hc as <- <- <- <-. destruct Hfail as [H1 H2]. done. }
  destruct (chunk_loop _ _ _ _ _ _ _ _) as [[ok0 w] pr0].
  assert (Hframe : forall p, p <> dst -> read_file (write_file f dst w) p = read_file f p)
    by (intros; by apply read_write_ne).
  destruct ok0; cbn [negb] in Hc.
  2:{ injection Hc as <- <- <- <-. destruct Hfail as [H1 H2]. done. }
  destruct (can_copystat E src dst); cbn [negb] in Hc.
  2:{ injection Hc as <- <- <- <-. destruct Hfail as [H1 H2]. done. }
  destruct (exif_copy_applies src); [destruct (exif_transfer E c w)|]; simplify_eq/=.
  - split; [done|]. split; [exists []; rewrite app_nil_r; split; done|]. done.
  - split; [apply tally_log_error|]. split; [exists [EExifUnexpected src]; rewrite errors_log_error; split; done|]. done.
  - split; [done|]. split; [exists []; rewrite app_nil_r; split; done|].
    split; [|done]. intros p Hp. rewrite read_write_ne by done. by apply Hframe.
  - split; [done|]. split; [exists []; rewrite app_nil_r; split; done|]. done.
Qed.

(** The copy returns [True] exactly when the source can be read, the
    destination opened, the content fits and [copystat] succeeds. *)
Lemma copy_ok_iff E f lg src dst :
  (copy_file_with_progress E f lg src dst).1.1.1 = true <->
  exists c, read_file f src = Some c /\ open_w_ok E f dst = true /\
    fits (write_limit E dst) (length c) = true /\ can_copystat E src dst = true.
Proof.
  unfold copy_file_with_progress. pose proof chunk_size_pos as HK.
  revert HK. generalize CHUNK_SIZE as K. intros K HK.
  destruct (read_file f src) as [c|].
  2:{ split; [done|]. intros (c & H & _). discriminate. }
  destruct (open_w_ok E f dst) eqn:Ho; cbn [negb].
  2:{ split; [done|]. intros (c' & _ & H & _). discriminate. }
  pose proof (chunk_loop_ok (write_limit E dst) K (length c) HK (S (length c)) c [] 0 []
                ltac:(lia) ltac:(lia) (fits_0 _)) as Hok.
  destruct (chunk_loop _ _ _ _ _ _ _ _) as [[ok0 w] pr0]. simpl in Hok. subst ok0.
  destruct (fits (write_limit E dst) (length c)) eqn:Hf; cbn [negb].
  2:{ split; [done|]. intros (c' & [= <-] & _ & H & _). congruence. }
  destruct (can_copystat E src dst) eqn:Hcs; cbn [negb].
  2:{ split; [done|]. intros (c' & _ & _ & _ & H). discriminate. }
  split; [intros _; by exists c|intros _].
  destruct (exif_copy_applies src); [destruct (exif_transfer E c w)|]; done.
Qed.

Lemma copy_fail_spec E f lg src dst f' lg' pr :
  copy_file_with_progress E f lg src dst = (false, f', lg', pr) ->
  lg' = log_error (ECopyFailed src dst) lg /\ last pr = Some 0%Q /\
  ((read_file f src = None \/ open_w_ok E f dst = false) -> f' = f /\ pr = [0%Q]).
Proof.
  unfold copy_file_with_progress. generalize CHUNK_SIZE as K. intros K.
  destruct (read_file f src) as [c|].
  2:{ intros [= <- <- <-]. done. }
  destruct (open_w_ok E f dst); cbn [negb].
  2:{ intros [= <- <- <-]. done. }
  destruct (chunk_loop _ _ _ _ _ _ _ _) as [[ok0 w] pr0].
  assert (Hno : (Some c = None \/ true = false) -> False) by (intros [H|H]; discriminate).
  destruct ok0; cbn [negb].
  2:{ intros [= <- <- <-]. split; [done|]. split; [apply last_snoc|]. intros H. by exfalso. }
  destruct (can_copystat E src dst); cbn [negb].
  2:{ intros [= <- <- <-]. split; [done|]. split; [apply last_snoc|]. intros H. by exfalso. }
  destruct (exif_copy_applies src); [destruct (exif_transfer E c w)|]; done.
Qed.

Lemma tally_bump_other c s : c <> CFilesCopied -> c <> CErrors ->
  files_copied (bump c s) = files_copied s /\ files_moved_to_errors (bump c s) = files_moved_to_errors s.
Proof. destruct s, c; simpl; done. Qed.

Lemma log_opt_spec le s :
  tk_tally (log_opt le s) = tk_tally s /\
  errors (log_opt le s) = errors s ++ (match le with Some e => [e] | None => [] end).
Proof.
  destruct le; simpl; [split; [apply tally_log_error|apply errors_log_error]|].
  by rewrite app_nil_r.
Qed.

Lemma hash_spec E f lg p h lg' :
  calculate_image_hash E f lg p = (h, lg') ->
  tk_tally lg' = tk_tally lg /\ (exists sfx, errors lg' = errors lg ++ sfx) /\
  (h <> None -> read_file f p <> None).
Proof.
  unfold calculate_image_hash. intros Hh.
  destruct (read_file f p) as [c|]; [destruct (average_hash E c)|]; simplify_eq/=.
  - split; [done|]. split; [exists []; by rewrite app_nil_r|done].
  - split; [apply tally_log_error|]. split; [exists [EHash p]; apply errors_log_error|done].
  - split; [apply tally_log_error|]. split; [exists [EHash p]; apply errors_log_error|done].
Qed.

Lemma convert_spec E f lg i o ok f' lg' :
  convert_to_jpg E f lg i o = (ok, f', lg') ->
  files_copied lg' = files_copied lg /\ files_moved_to_errors lg' = files_moved_to_errors lg /\
  (exists sfx, errors lg' = errors lg ++ sfx).
Proof.
  unfold convert_to_jpg. intros Hc.
  destruct (conversion_kind i) as [[k cnt]|] eqn:Hk.
  2:{ simplify_eq/=. split; [done|]. split; [done|]. exists []; by rewrite app_nil_r. }
  assert (Hcnt : cnt <> CFilesCopied /\ cnt <> CErrors).
  { unfold conversion_kind in Hk. repeat case_match; simplify_eq; done. }
  destruct Hcnt as [Hc1 Hc2].
  destruct (tally_bump_other cnt lg Hc1 Hc2) as [B1 B2].
  repeat case_match; simplify_eq/=;
    rewrite ?files_copied_log_error, ?files_moved_to_errors_log_error, ?errors_log_error,
      ?errors_bump, ?B1, ?B2;
    (split; [done|]); (split; [done|]); eauto using app_nil_r.
  all: exists []; by rewrite app_nil_r.
Qed.

Lemma copy_resolved_spec E st dir name src ok dst f1 lg1 :
  copy_resolved E st dir name src = (ok, dst, f1, lg1) ->
  dst = resolve (st_fs st) dir name /\
  tk_tally lg1 = tk_tally (st_log st) /\
  (exists sfx, errors lg1 = errors (st_log st) ++ sfx /\ (ok = false -> ECopyFailed src dst ∈ sfx)).
Proof.
  unfold copy_resolved. intros Hc.
  destruct (copy_file_with_progress E (st_fs st) (st_log st) src (resolve (st_fs st) dir name))
    as [[[ok' f'] lg'] pr] eqn:Hcp.
  simplify_eq/=.
  destruct (copy_spec _ _ _ _ _ _ _ _ _ Hcp) as (Ht & Hs & _ & _). done.
Qed.

(** *** Folder creation *)

Lemma ensure_dir_spec E f d f1 ok :
  ensure_dir E f d = (f1, ok) ->
  fs_files f1 = fs_files f /\ fs_dirs f ⊆ fs_dirs f1 /\
  (ok = true -> exists_ f d = true \/ isdir f1 d = true \/ (makedirs_split d).2 = ".").
Proof.
  unfold ensure_dir. destruct (exists_ f d) eqn:He.
  - intros [= <- <-]. split; [done|]. split; [done|]. by left.
  - destruct (makedirs E f d false) as [f2 r] eqn:Hm. intros [= <- <-].
    destruct (makedirs_spec _ _ _ _ _ _ Hm) as (M1 & M2 & M3).
    split; [done|]. split; [done|]. intros Hr. right. apply M3. by destruct r.
Qed.

Lemma ensure_dir_files E f d : fs_files (ensure_dir E f d).1 = fs_files f.
Proof.
  destruct (ensure_dir E f d) as [f1 ok] eqn:H. by destruct (ensure_dir_spec _ _ _ _ _ H).
Qed.

Lemma read_ensure_dir E f d p : read_file (ensure_dir E f d).1 p = read_file f p.
Proof. unfold read_file. by rewrite ensure_dir_files. Qed.


Lemma ensure_dirs_spec E : forall ds f f1 ok,
  ensure_dirs E f ds = (f1, ok) ->
  fs_files f1 = fs_files f /\ fs_dirs f ⊆ fs_dirs f1 /\
  (ok = true -> forall d, d ∈ ds ->
     d ∈ dom (fs_files f) \/ isdir f1 d = true \/ (makedirs_split d).2 = ".").
Proof.
  induction ds as [|d ds IH]; intros f f1 ok; simpl.
  { intros [= <- <-]. split; [done|]. split; [done|]. intros _ d Hd. set_solver. }
  destruct (ensure_dir E f d) as [f2 ok2] eqn:He.
  destruct (ensure_dir_spec _ _ _ _ _ He) as (E1 & E2 & E3).
  destruct ok2.
  - intros Hr. destruct (IH _ _ _ Hr) as (I1 & I2 & I3).
    split; [congruence|]. split; [set_solver|]. intros Hok d' Hd'.
    apply elem_of_cons in Hd' as [->|Hd'].
    + destruct (E3 eq_refl) as [Hx|[Hx|Hx]].
      * apply exists_elem in Hx. apply elem_of_union in Hx as [Hx|Hx]; [by left|].
        right; left. unfold isdir. apply bool_decide_eq_true. set_solver.
      * right; left. by apply (isdir_mono f2).
      * by right; right.
    + destruct (I3 Hok d' Hd') as [Hx|Hx]; [left; congruence|by right].
  - intros [= <- <-]. split; [done|]. split; [done|]. done.
Qed.

(** *** The loop body *)

Lemma image_tail_spec E dd sc st fp fp2 :
  match image_tail E dd sc st fp fp2 with
  | BOk st' o =>
      o_file o = fp /\
      (exists h, o_hash o = Some h /\
        ((h ∈ st_seen st /\ is_dup (o_route o) = true /\ st_seen st' = st_seen st) \/
         ((h ∉ st_seen st) /\ is_main (o_route o) = true /\ st_seen st' = {[h]} ∪ st_seen st))) /\
      files_copied (st_log st') =
        files_copied (st_log st) + (if is_main (o_route o) && o_copied o then 1 else 0) /\
      files_moved_to_errors (st_log st') = files_moved_to_errors (st_log st) /\
      (exists sfx, errors (st_log st') = errors (st_log st) ++ sfx /\
         (o_copied o = false -> ECopyFailed fp2 (tk_route_dst (o_route o)) ∈ sfx))
  | BRaise st' h e =>
      st_seen st' = (match h with Some z => {[z]} ∪ st_seen st | None => st_seen st end) /\
      (forall z, h = Some z -> (z ∉ st_seen st) /\ exists t, e = XMakedirs t) /\
      tk_tally (st_log st') = tk_tally (st_log st) /\
      (exists sfx, errors (st_log st') = errors (st_log st) ++ sfx)
  end.
Proof.
  unfold image_tail.
  destruct (calculate_image_hash E (st_fs st) (st_log st) fp2) as [h lg] eqn:Hh.
  destruct (hash_spec _ _ _ _ _ _ Hh) as (Ht & [sfx0 Hs] & Hr).
  destruct h as [h|]; cbv zeta; cbn [st_fs st_log st_seen].
  2:{ split; [done|]. split; [done|]. split; [done|]. eauto. }
  case_bool_decide as Hin.
  - destruct (copy_resolved E _ _ _ _) as [[[ok dst] f1] lg1] eqn:Hc.
    destruct (copy_resolved_spec _ _ _ _ _ _ _ _ _ Hc) as (_ & Ht1 & [sfx1 [Hs1 Hf1]]).
    simpl in *. apply tally_eq_counters in Ht, Ht1.
    split; [done|]. split; [exists h; split; [done|left; done]|].
    split; [destruct ok; simpl; rewrite ?errors_bump; [rewrite files_copied_bump; simpl|]; lia|].
    split; [destruct ok; simpl; [rewrite files_moved_to_errors_bump; simpl|]; lia|].
    exists (sfx0 ++ sfx1). destruct ok; simpl; rewrite ?errors_bump, Hs1, Hs, app_assoc;
      split; try done. intros _. apply elem_of_app. right. by apply Hf1.
  - destruct (get_file_date E (st_fs st) fp2) as [d le] eqn:Hd.
    destruct (log_opt_spec le lg) as [Ht2 Hs2].
    destruct (ensure_dir E (st_fs st) (dated_folder sc dd d)) as [f0 made] eqn:He.
    destruct made; cbn [negb].
    2:{ cbn [st_fs st_log st_seen]. split; [done|].
        split; [intros z [= <-]; split; [done|]; by eexists|].
        split; [congruence|]. exists (sfx0 ++ (match le with Some e => [e] | None => [] end)).
        by rewrite Hs2, Hs, app_assoc. }
    destruct (copy_resolved E _ _ _ _) as [[[ok dst] f1] lg1] eqn:Hc.
    destruct (copy_resolved_spec _ _ _ _ _ _ _ _ _ Hc) as (_ & Ht1 & [sfx1 [Hs1 Hf1]]).
    simpl in *. rewrite Ht2 in Ht1. apply tally_eq_counters in Ht, Ht1.
    split; [done|]. split; [exists h; split; [done|right; done]|].
    split; [destruct ok; simpl; [rewrite files_copied_bump; simpl|]; lia|].
    split; [destruct ok; simpl; [rewrite files_moved_to_errors_bump; simpl|]; lia|].
    exists (sfx0 ++ (match le with Some e => [e] | None => [] end) ++ sfx1).
    destruct ok; simpl; rewrite ?errors_bump, Hs1, Hs2, Hs, !app_assoc;
      split; try done. intros _. apply elem_of_app. right. by apply Hf1.
Qed.

Lemma image_tail_spec2 E dd sc st0 st fp fp2 sfx0 :
  st_seen st = st_seen st0 ->
  files_copied (st_log st) = files_copied (st_log st0) ->
  files_moved_to_errors (st_log st) = files_moved_to_errors (st_log st0) ->
  errors (st_log st) = errors (st_log st0) ++ sfx0 ->
  match image_tail E dd sc st fp fp2 with
  | BOk st' o =>
      o_file o = fp /\
      st_seen st' = (match o_hash o with Some h => {[h]} ∪ st_seen st0 | None => st_seen st0 end) /\
      (forall h, o_hash o = Some h ->
         (h ∈ st_seen st0 -> is_dup (o_route o) = true) /\
         ((h ∉ st_seen st0) -> is_main (o_route o) = true)) /\
      (o_hash o = None -> is_main (o_route o) = false) /\
      is_error (o_route o) = false /\
      files_copied (st_log st') =
        files_copied (st_log st0) + (if is_main (o_route o) && o_copied o then 1 else 0) /\
      files_moved_to_errors (st_log st') = files_moved_to_errors (st_log st0) /\
      (exists sfx, errors (st_log st') = errors (st_log st0) ++ sfx /\
         (o_copied o = false -> exists s, ECopyFailed s (tk_route_dst (o_route o)) ∈ sfx))
  | BRaise st' h e =>
      st_seen st' = (match h with Some z => {[z]} ∪ st_seen st0 | None => st_seen st0 end) /\
      (forall z, h = Some z -> (z ∉ st_seen st0) /\ exists t, e = XMakedirs t) /\
      files_copied (st_log st') = files_copied (st_log st0) /\
      files_moved_to_errors (st_log st') = files_moved_to_errors (st_log st0) /\
      (exists sfx, errors (st_log st') = errors (st_log st0) ++ sfx)
  end.
Proof.
  intros Hseen Hfc Hfm Her. pose proof (image_tail_spec E dd sc st fp fp2) as H.
  destruct (image_tail E dd sc st fp fp2) as [st' o|st' h e].
  - destruct H as (Hf & [h [Hh Hcase]] & Hc & Hm & [sfx [Hs Hcf]]).
    rewrite Hh, <- Hseen. split; [done|].
    split; [destruct Hcase as [(Hin & _ & ->)|(_ & _ & ->)]; [|done];
            apply leibniz_equiv; set_solver|].
    split.
    { intros h' [= <-]. destruct Hcase as [(Hin & Hd & _)|(Hin & Hd & _)].
      - split; [done|]. intros Hn. by exfalso.
      - split; [intros Hn; by exfalso|done]. }
    split; [done|].
    split; [by destruct Hcase as [(_ & Hd & _)|(_ & Hd & _)]; destruct (o_route o)|].
    split; [lia|]. split; [lia|].
    exists (sfx0 ++ sfx); rewrite Hs, Her, app_assoc; split; [done|].
    intros Hn; exists fp2; apply elem_of_app; right; by apply Hcf.
  - destruct H as (Hs & Hz & Ht & [sfx Her']). apply tally_eq_counters in Ht.
    rewrite <- Hseen. split; [done|]. split; [done|]. split; [lia|]. split; [lia|].
    exists (sfx0 ++ sfx). by rewrite Her', Her, app_assoc.
Qed.

Lemma try_body_spec E dd sc st fp :
  match (try_body E dd sc st fp).1 with
  | BOk st' o =>
      o_file o = fp /\
      st_seen st' = (match o_hash o with Some h => {[h]} ∪ st_seen st | None => st_seen st end) /\
      (forall h, o_hash o = Some h ->
         (h ∈ st_seen st -> is_dup (o_route o) = true) /\
         ((h ∉ st_seen st) -> is_main (o_route o) = true)) /\
      (o_hash o = None -> is_main (o_route o) = false) /\
      is_error (o_route o) = false /\
      files_copied (st_log st') =
        files_copied (st_log st) + (if is_main (o_route o) && o_copied o then 1 else 0) /\
      files_moved_to_errors (st_log st') = files_moved_to_errors (st_log st) /\
      (exists sfx, errors (st_log st') = errors (st_log st) ++ sfx /\
         (o_copied o = false -> exists s, ECopyFailed s (tk_route_dst (o_route o)) ∈ sfx))
  | BRaise st' h e =>
      st_seen st' = (match h with Some z => {[z]} ∪ st_seen st | None => st_seen st end) /\
      (forall z, h = Some z -> (z ∉ st_seen st) /\ exists t, e = XMakedirs t) /\
      files_copied (st_log st') = files_copied (st_log st) /\
      files_moved_to_errors (st_log st') = files_moved_to_errors (st_log st) /\
      (exists sfx, errors (st_log st') = errors (st_log st) ++ sfx)
  end.
Proof.
  unfold try_body.
  destruct (str_in _ ALL_IMAGE_EXTENSIONS).
  - destruct (str_in _ CONVERTIBLE_IMAGE_EXTENSIONS).
    + destruct (convert_to_jpg E _ _ _ _) as [[ok f1] lg1] eqn:Hcv.
      destruct (convert_spec _ _ _ _ _ _ _ _ Hcv) as (Hc1 & Hc2 & [sfx0 Hs0]).
      destruct ok; simpl.
      * by apply (image_tail_spec2 E dd sc st (mkState f1 lg1 (st_seen st)) _ _ sfx0).
      * split; [done|]. split; [done|]. split; [done|]. split; [done|]. eauto.
    + simpl. apply (image_tail_spec2 E dd sc st st _ _ []); try done. by rewrite app_nil_r.
  - destruct (str_in _ VIDEO_EXTENSIONS).
    + destruct (get_file_date E _ _) as [d le]. cbv zeta.
      destruct (log_opt_spec le (st_log st)) as [Ht2 Hs2].
      destruct (ensure_dir E (st_fs st) _) as [f0 made].
      destruct made; cbn [negb].
      2:{ cbn [fst st_fs st_log st_seen]. apply tally_eq_counters in Ht2. destruct Ht2 as [T1 T2].
          split; [done|]. split; [done|]. split; [done|]. split; [done|].
          exists (match le with Some e => [e] | None => [] end). done. }
      destruct (copy_resolved E _ _ _ _) as [[[ok dst] f1] lg1] eqn:Hc.
      destruct (copy_resolved_spec _ _ _ _ _ _ _ _ _ Hc) as (_ & Ht1 & [sfx1 [Hs1 Hf1]]).
      simpl in *. rewrite Ht2 in Ht1. apply tally_eq_counters in Ht1. destruct Ht1 as [T1 T2].
      destruct (tally_bump_other CVideos lg1 ltac:(done) ltac:(done)) as [B1 B2].
      do 5 (split; [done|]).
      split; [destruct ok; simpl; rewrite ?B1; lia|].
      split; [destruct ok; simpl; rewrite ?B2; lia|].
      exists ((match le with Some e => [e] | None => [] end) ++ sfx1).
      destruct ok; simpl; rewrite ?errors_bump, Hs1, Hs2, !app_assoc; split; try done.
      intros _. eexists; apply elem_of_app; right; by apply Hf1.
    + destruct (copy_resolved E _ _ _ _) as [[[ok dst] f1] lg1] eqn:Hc.
      destruct (copy_resolved_spec _ _ _ _ _ _ _ _ _ Hc) as (_ & Ht1 & [sfx1 [Hs1 Hf1]]).
      simpl in *. apply tally_eq_counters in Ht1. destruct Ht1 as [T1 T2].
      destruct (tally_bump_other CManual lg1 ltac:(done) ltac:(done)) as [B1 B2].
      do 5 (split; [done|]).
      split; [destruct ok; simpl; rewrite ?B1; lia|].
      split; [destruct ok; simpl; rewrite ?B2; lia|].
      exists sfx1.
      destruct ok; simpl; rewrite ?errors_bump, Hs1; split; try done.
      intros _. eexists; by apply Hf1.
Qed.

Lemma except_handler_spec E dd st fp h e st' o :
  except_handler E dd st fp h e = (st', o) ->
  o_file o = fp /\ o_hash o = h /\ is_error (o_route o) = true /\
  st_seen st' = st_seen st /\
  files_copied (st_log st') = files_copied (st_log st) /\
  files_moved_to_errors (st_log st') =
    files_moved_to_errors (st_log st) + (if o_copied o then 1 else 0) /\
  (exists sfx, errors (st_log st') = errors (st_log st) ++ sfx /\
     (o_copied o = false -> ECopyFailed fp (tk_route_dst (o_route o)) ∈ sfx) /\
     ((exists n, EProcessingCopied fp e n ∈ sfx) \/ EProcessingNotCopied fp e ∈ sfx)).
Proof.
  unfold except_handler. intros Hx.
  destruct (copy_resolved E _ _ _ _) as [[[ok dst] f1] lg1] eqn:Hc.
  destruct (copy_resolved_spec _ _ _ _ _ _ _ _ _ Hc) as (_ & Ht1 & [sfx1 [Hs1 Hf1]]).
  apply tally_eq_counters in Ht1. destruct Ht1 as [T1 T2].
  simplify_eq/=. do 4 (split; [done|]).
  destruct ok; simpl.
  - rewrite files_copied_log_error, files_copied_bump, files_moved_to_errors_log_error,
      files_moved_to_errors_bump, errors_log_error, errors_bump, Hs1. simpl.
    split; [lia|]. split; [lia|].
    exists (sfx1 ++ [EProcessingCopied fp e (basename dst)]). rewrite app_assoc.
    split; [done|]. split; [done|]. left. exists (basename dst). set_solver.
  - rewrite files_copied_log_error, files_moved_to_errors_log_error, errors_log_error, Hs1.
    split; [lia|]. split; [lia|].
    exists (sfx1 ++ [EProcessingNotCopied fp e]). rewrite app_assoc.
    split; [done|]. split; [intros _; apply elem_of_app; left; by apply Hf1|]. right. set_solver.
Qed.

(** The [finally] block removes the temporary file when [os.remove]
    succeeds; otherwise the file stays and the failure is the last error. *)
Lemma finally_spec E st t :
  let st' := finally_cleanup E st t in
  st_seen st' = st_seen st /\
  files_copied (st_log st') = files_copied (st_log st) /\
  files_moved_to_errors (st_log st') = files_moved_to_errors (st_log st) /\
  (exists sfx, errors (st_log st') = errors (st_log st) ++ sfx) /\
  (forall x, t = Some x ->
     (can_remove E x = true -> x ∉ dom (fs_files (st_fs st'))) /\
     (x ∈ dom (fs_files (st_fs st')) ->
        can_remove E x = false /\ last (errors (st_log st')) = Some (ERemoveTemp x))) /\
  (forall p, t <> Some p -> read_file (st_fs st') p = read_file (st_fs st) p).
Proof.
  unfold finally_cleanup. destruct t as [x|].
  2:{ simpl. do 3 (split; [done|]). split; [exists []; by rewrite app_nil_r|]. done. }
  destruct (exists_ (st_fs st) x) eqn:Hex.
  - destruct (bool_decide (x ∈ dom (fs_files (st_fs st))) && can_remove E x) eqn:Hb; simpl.
    + do 3 (split; [done|]). split; [exists []; by rewrite app_nil_r|].
      split.
      * intros y [= <-]. unfold remove. simpl. rewrite dom_delete_L.
        split; [set_solver|]. set_solver.
      * intros p Hp. unfold read_file, remove. simpl. rewrite lookup_delete_ne; [done|].
        intros ->. done.
    + rewrite files_copied_log_error, files_moved_to_errors_log_error, errors_log_error.
      do 3 (split; [done|]). split; [eauto|]. split; [|done].
      intros y [= <-]. split.
      * intros Hcr Hin. rewrite Hcr, andb_true_r in Hb. by rewrite bool_decide_eq_false in Hb.
      * intros Hin. split; [|apply last_snoc].
        rewrite bool_decide_eq_true_2 in Hb by done. done.
  - simpl. do 3 (split; [done|]). split; [exists []; by rewrite app_nil_r|].
    split; [|done]. intros y [= <-].
    pose proof (not_exists_dom _ _ Hex). split; [done|]. done.
Qed.

Lemma process_file_spec E dd sc st fp st' o :
  process_file E dd sc st fp = (st', o) ->
  o_file o = fp /\
  st_seen st' = (match o_hash o with Some h => {[h]} ∪ st_seen st | None => st_seen st end) /\
  (forall h, o_hash o = Some h ->
     (h ∈ st_seen st -> is_dup (o_route o) = true) /\
     ((h ∉ st_seen st) -> is_main (o_route o) = true \/ is_error (o_route o) = true)) /\
  (o_hash o = None -> is_main (o_route o) = false) /\
  files_copied (st_log st') =
    files_copied (st_log st) + (if is_main (o_route o) && o_copied o then 1 else 0) /\
  files_moved_to_errors (st_log st') =
    files_moved_to_errors (st_log st) + (if is_error (o_route o) && o_copied o then 1 else 0) /\
  (exists sfx, errors (st_log st') = errors (st_log st) ++ sfx /\
     (o_copied o = false -> exists s, ECopyFailed s (tk_route_dst (o_route o)) ∈ sfx) /\
     (is_error (o_route o) = true ->
        exists e, (o_hash o <> None -> exists t, e = XMakedirs t) /\
          ((exists n, EProcessingCopied fp e n ∈ sfx) \/ EProcessingNotCopied fp e ∈ sfx))) /\
  (forall t, (try_body E dd sc st fp).2 = Some t ->
     (can_remove E t = true -> t ∉ dom (fs_files (st_fs st'))) /\
     (t ∈ dom (fs_files (st_fs st')) ->
        can_remove E t = false /\ last (errors (st_log st')) = Some (ERemoveTemp t))).
Proof.
  unfold process_file. pose proof (try_body_spec E dd sc st fp) as H.
  destruct (try_body E dd sc st fp) as [res temp]. simpl in H |- *.
  destruct res as [st1 o1|st1 h e].
  - intros [= <- <-].
    destruct (finally_spec E st1 temp) as (F1 & F2 & F3 & [sfx2 F4] & F5 & _).
    destruct H as (Hf & Hs & Hd & Hn & He & Hc & Hm & [sfx [Hsfx Hcf]]).
    rewrite He. simpl.
    split; [done|]. split; [by rewrite F1|].
    split; [intros h Hh; destruct (Hd h Hh) as [Hd1 Hd2]; split; [done|]; intros Hin; left; by apply Hd2|].
    split; [done|].
    split; [lia|]. split; [lia|].
    split; [|done].
    exists (sfx ++ sfx2). rewrite F4, Hsfx, app_assoc. split; [done|].
    split; [|done]. intros Hno. destruct (Hcf Hno) as [s0 Hin]. exists s0. set_solver.
  - destruct (except_handler E dd st1 fp h e) as [st2 o2] eqn:Hx. intros [= <- <-].
    destruct (except_handler_spec _ _ _ _ _ _ _ _ Hx) as
      (Hf & Hh & He & Hs & Hc & Hm & [sfx [Hsfx [Hcf Hpe]]]).
    destruct (finally_spec E st2 temp) as (F1 & F2 & F3 & [sfx2 F4] & F5 & _).
    destruct H as (Hs1 & Hz & Hc1 & Hm1 & [sfx1 Hsfx1]).
    rewrite Hh, He. simpl.
    split; [done|]. split; [by rewrite F1, Hs, Hs1|].
    split.
    { intros z Hz'. destruct (Hz z Hz') as [Hnin _].
      split; [intros Hin; by exfalso|intros _; by right]. }
    split; [by destruct (o_route o2)|].
    split; [destruct (o_route o2); simpl in He |- *; try done; lia|].
    split; [lia|].
    split; [|done].
    exists (sfx1 ++ sfx ++ sfx2). rewrite F4, Hsfx, Hsfx1, !app_assoc. split; [done|].
    split.
    + intros Hno. exists fp. specialize (Hcf Hno). set_solver.
    + intros _. exists e. split.
      * intros Hne. destruct h as [z|]; [|done]. by destruct (Hz z eq_refl) as [_ Ht].
      * destruct Hpe as [[n Hn]|Hn]; [left; exists n|right]; set_solver.
Qed.

(** *** The loop *)

Lemma count_if_cons {A} (p : A -> bool) x l :
  count_if p (x :: l) = (if p x then 1 else 0) + count_if p l.
Proof. unfold count_if. simpl. by destruct (p x). Qed.

Lemma run_loop_spec E dd sc : forall files st st' tr,
  run_loop E dd sc st files = (st', tr) ->
  map o_file tr = files /\
  st_seen st' = st_seen st ∪ list_to_set (tk_hashes tr) /\
  (forall j o h, tr !! j = Some o -> o_hash o = Some h ->
     (h ∈ st_seen st ∪ list_to_set (tk_hashes (take j tr)) -> is_dup (o_route o) = true) /\
     ((h ∉ st_seen st ∪ list_to_set (tk_hashes (take j tr))) ->
        is_main (o_route o) = true \/ is_error (o_route o) = true)) /\
  (forall o, o ∈ tr -> o_hash o = None -> is_main (o_route o) = false) /\
  files_copied (st_log st') =
    files_copied (st_log st) + count_if (fun o => is_main (o_route o) && o_copied o) tr /\
  files_moved_to_errors (st_log st') =
    files_moved_to_errors (st_log st) + count_if (fun o => is_error (o_route o) && o_copied o) tr /\
  (exists sfx, errors (st_log st') = errors (st_log st) ++ sfx /\
     (forall o, o ∈ tr -> o_copied o = false -> exists s, ECopyFailed s (tk_route_dst (o_route o)) ∈ sfx) /\
     (forall o, o ∈ tr -> is_error (o_route o) = true ->
        exists e, (o_hash o <> None -> exists t, e = XMakedirs t) /\
          ((exists n, EProcessingCopied (o_file o) e n ∈ sfx) \/
           EProcessingNotCopied (o_file o) e ∈ sfx))).
Proof.
  induction files as [|fp files IH]; intros st st' tr Hrun; simpl in Hrun.
  { simplify_eq/=. split; [done|]. split; [apply leibniz_equiv; set_solver|].
    split; [intros j o h Hj; by rewrite lookup_nil in Hj|].
    split; [set_solver|]. split; [unfold count_if; simpl; lia|]. split; [unfold count_if; simpl; lia|].
    exists []; rewrite app_nil_r; split; [done|]; split; set_solver. }
  destruct (process_file E dd sc st fp) as [st1 o] eqn:Hp.
  destruct (run_loop E dd sc st1 files) as [st2 os] eqn:Hr. simplify_eq/=.
  destruct (process_file_spec _ _ _ _ _ _ _ Hp)
    as (Pf & Ps & Pd & Pn & Pc & Pm & [sfx [Psfx [Pcf Ppe]]] & _).
  destruct (IH _ _ _ Hr)
    as (Rf & Rs & Rd & Rn & Rc & Rm & [sfx' [Rsfx [Rcf Rpe]]]).
  split; [by rewrite Pf, Rf|].
  split.
  { rewrite Rs, Ps. unfold tk_hashes. simpl. destruct (o_hash o); simpl;
      apply leibniz_equiv; set_solver. }
  split.
  { intros [|j] o' h Hj Hh.
    - simpl in Hj. simplify_eq. unfold tk_hashes. simpl.
      destruct (Pd h Hh) as [Pd1 Pd2]. split; [intros Hin; apply Pd1; set_solver|].
      intros Hin; apply Pd2; set_solver.
    - simpl in Hj. destruct (Rd j o' h Hj Hh) as [Rd1 Rd2].
      assert (Heq : st_seen st1 ∪ list_to_set (tk_hashes (take j os)) =
                    st_seen st ∪ list_to_set (tk_hashes (take (S j) (o :: os)))).
      { rewrite Ps. unfold tk_hashes. simpl. destruct (o_hash o); simpl;
          apply leibniz_equiv; set_solver. }
      rewrite <- Heq. done. }
  split.
  { intros o' Ho' Hn. apply elem_of_cons in Ho' as [->|Ho']; [by apply Pn|by apply Rn]. }
  split; [rewrite Rc, Pc, count_if_cons; lia|].
  split; [rewrite Rm, Pm, count_if_cons; lia|].
  exists (sfx ++ sfx'). rewrite Rsfx, Psfx, app_assoc. split; [done|]. split.
  + intros o' Ho' Hno. apply elem_of_cons in Ho' as [->|Ho'].
    * destruct (Pcf Hno) as [s0 Hs0]. exists s0. set_solver.
    * destruct (Rcf o' Ho' Hno) as [s0 Hs0]. exists s0. set_solver.
  + intros o' Ho' Hne. apply elem_of_cons in Ho' as [->|Ho'].
    * rewrite Pf. destruct (Ppe Hne) as [e [He [[n Hn]|Hn]]]; exists e; (split; [done|]);
        [left; exists n|right]; set_solver.
    * destruct (Rpe o' Ho' Hne) as [e [He [[n Hn]|Hn]]]; exists e; (split; [done|]);
        [left; exists n|right]; set_solver.
Qed.

(** *** The report *)

Lemma write_report_spec E f rp f1 ok :
  write_report E f rp = (f1, ok) ->
  fs_dirs f1 = fs_dirs f /\
  (forall p, p <> rp_path rp -> read_file f1 p = read_file f p) /\
  (ok = true -> read_file f1 (rp_path rp) = Some (bytes_of (report_text E rp))).
Proof.
  unfold write_report, write_bytes.
  destruct (open_w_ok E f (rp_path rp)).
  2:{ intros [= <- <-]. done. }
  destruct (fits _ _); intros [= <- <-]; simpl; (split; [done|]);
    (split; [intros p Hp; by apply read_write_ne|]).
  - intros _. apply read_write_eq.
  - done.
Qed.

Lemma setup_files E f0 src dd :
  match setup E f0 src dd with
  | SetupOk f | SetupFalse f | SetupRaise f => fs_files f = fs_files f0 /\ fs_dirs f0 ⊆ fs_dirs f
  end.
Proof.
  unfold setup. destruct (negb (isdir f0 src)); [done|].
  destruct (if negb (exists_ f0 dd) then _ else _) as [f1 ok] eqn:H1.
  assert (Hd : fs_files f1 = fs_files f0 /\ fs_dirs f0 ⊆ fs_dirs f1).
  { revert H1. destruct (negb (exists_ f0 dd)).
    - destruct (makedirs E f0 dd false) as [f2 r] eqn:Hm. intros [= <- _].
      by destruct (makedirs_spec _ _ _ _ _ _ Hm) as (M1 & M2 & _).
    - intros [= <- _]. done. }
  destruct Hd as [D1 D2].
  destruct ok; cbn [negb]; [|done].
  destruct (ensure_dirs E f1 _) as [f2 ok2] eqn:H2.
  destruct (ensure_dirs_spec _ _ _ _ _ H2) as (S1 & S2 & _).
  destruct ok2; (split; [congruence|set_solver]).
Qed.

End TkFacts.

Module PicsFacts.
Import PyPath Env Ext Pics Measure PicsProps EnvFacts.

Ltac destr_copy2 :=
  match goal with |- context [copy2 ?a ?b ?c ?d] => destruct (copy2 a b c d) as [f1 []] end.

Lemma pics_files_copied_bump c s :
  files_copied (bump c s) = files_copied s + (match c with CFilesCopied => 1 | _ => 0 end).
Proof. destruct s, c; simpl; lia. Qed.

Lemma pics_files_copied_log_error e s : files_copied (log_error e s) = files_copied s.
Proof. by destruct s. Qed.

Lemma hash_log E f lg p h lg' :
  calculate_image_hash E f lg p = (h, lg') -> files_copied lg' = files_copied lg.
Proof.
  unfold calculate_image_hash. intros Hh. repeat case_match; simplify_eq/=;
    rewrite ?pics_files_copied_log_error; done.
Qed.

Lemma convert_log E f lg i o ok f' lg' :
  convert_to_jpg E f lg i o = (ok, f', lg') -> files_copied lg' = files_copied lg.
Proof.
  unfold convert_to_jpg. intros Hc. repeat case_match; simplify_eq/=;
    rewrite ?pics_files_copied_log_error; done.
Qed.

Lemma pics_image_tail_spec2 E dd sc st0 st fp fp2 :
  st_seen st = st_seen st0 ->
  files_copied (st_log st) = files_copied (st_log st0) ->
  match image_tail E dd sc st fp fp2 with
  | BOk st' o =>
      o_file o = fp /\ o_copied o = true /\
      (exists h, o_hash o = Some h /\
        ((h ∈ st_seen st0 /\ pics_is_dup (o_route o) = true /\ st_seen st' = st_seen st0) \/
         ((h ∉ st_seen st0) /\ pics_is_main (o_route o) = true /\
            st_seen st' = {[h]} ∪ st_seen st0))) /\
      files_copied (st_log st') =
        files_copied (st_log st0) + (if pics_is_main (o_route o) then 1 else 0)
  | BRaise st' h e =>
      st_seen st' = (match h with Some h => {[h]} ∪ st_seen st0 | None => st_seen st0 end) /\
      files_copied (st_log st') = files_copied (st_log st0)
  end.
Proof.
  intros Hseen Hfc. unfold image_tail.
  destruct (calculate_image_hash E (st_fs st) (st_log st) fp2) as [h lg] eqn:Hh.
  pose proof (hash_log _ _ _ _ _ _ Hh) as Hl. cbv zeta.
  case_bool_decide as Hin; cbn [st_fs st_log st_seen] in *.
  - unfold copy_count. destr_copy2; simpl.
    + split; [done|]. split; [done|]. split.
      * exists h. split; [done|]. left. by rewrite <- Hseen.
      * rewrite pics_files_copied_bump. simpl. lia.
    + split; [rewrite <- Hseen; apply leibniz_equiv; set_solver|]. lia.
  - destruct (get_file_date E (st_fs st) fp2) as [d le]. cbv zeta.
    destruct (makedirs E (st_fs st) _ true) as [f0 r]. cbn [st_fs st_log st_seen].
    assert (Hle : files_copied (match le with Some e => log_error e lg | None => lg end) =
                  files_copied lg) by (destruct le; rewrite ?pics_files_copied_log_error; done).
    destruct (negb (ok_of r)); [split; [by rewrite Hseen|(simpl; rewrite Hle; lia)]|].
    unfold copy_count. destr_copy2; simpl.
    + split; [done|]. split; [done|]. split.
      * exists h. split; [done|]. right. rewrite <- Hseen. done.
      * rewrite pics_files_copied_bump. simpl. (simpl; rewrite Hle; lia).
    + split; [by rewrite Hseen|(simpl; rewrite Hle; lia)].
Qed.

Lemma pics_try_body_spec E td dd sc st fp :
  match (try_body E td dd sc st fp).1 with
  | BOk st' o =>
      o_file o = fp /\ o_copied o = true /\
      st_seen st' = (match o_hash o with Some h => {[h]} ∪ st_seen st | None => st_seen st end) /\
      (forall h, o_hash o = Some h ->
         (h ∈ st_seen st -> pics_is_dup (o_route o) = true) /\
         ((h ∉ st_seen st) -> pics_is_main (o_route o) = true)) /\
      (o_hash o = None -> pics_is_main (o_route o) = false /\ pics_is_dup (o_route o) = false) /\
      files_copied (st_log st') =
        files_copied (st_log st) + (if pics_is_main (o_route o) then 1 else 0)
  | BRaise st' h e =>
      st_seen st' = (match h with Some h => {[h]} ∪ st_seen st | None => st_seen st end) /\
      files_copied (st_log st') = files_copied (st_log st)
  end.
Proof.
  assert (Htail : forall st1 fp2, st_seen st1 = st_seen st ->
            files_copied (st_log st1) = files_copied (st_log st) ->
    match image_tail E dd sc st1 fp fp2 with
    | BOk st' o =>
        o_file o = fp /\ o_copied o = true /\
        st_seen st' = (match o_hash o with Some h => {[h]} ∪ st_seen st | None => st_seen st end) /\
        (forall h, o_hash o = Some h ->
           (h ∈ st_seen st -> pics_is_dup (o_route o) = true) /\
           ((h ∉ st_seen st) -> pics_is_main (o_route o) = true)) /\
        (o_hash o = None -> pics_is_main (o_route o) = false /\ pics_is_dup (o_route o) = false) /\
        files_copied (st_log st') =
          files_copied (st_log st) + (if pics_is_main (o_route o) then 1 else 0)
    | BRaise st' h e =>
        st_seen st' = (match h with Some h => {[h]} ∪ st_seen st | None => st_seen st end) /\
        files_copied (st_log st') = files_copied (st_log st)
    end).
  { intros st1 fp2 Hs Hf. pose proof (pics_image_tail_spec2 E dd sc st st1 fp fp2 Hs Hf) as H.
    destruct (image_tail E dd sc st1 fp fp2) as [st' o|st' h e]; [|done].
    destruct H as (Hfile & Hcp & [h [Hh Hcase]] & Hc).
    rewrite Hh. split; [done|]. split; [done|].
    split; [destruct Hcase as [(Hin & _ & ->)|(_ & _ & ->)]; [|done];
            apply leibniz_equiv; set_solver|].
    split; [|done].
    intros h' [= <-]. destruct Hcase as [(Hin & Hd & _)|(Hin & Hd & _)].
    - split; [done|]. intros Hn. by exfalso.
    - split; [intros Hn; by exfalso|done]. }
  unfold try_body.
  destruct (str_in _ ALL_IMAGE_EXTENSIONS).
  - destruct (str_in _ CONVERTIBLE_IMAGE_EXTENSIONS).
    + destruct (convert_to_jpg E _ _ _ _) as [[ok f1] lg1] eqn:Hcv.
      pose proof (convert_log _ _ _ _ _ _ _ _ Hcv) as Hl.
      destruct ok; simpl; [by apply Htail|]. done.
    + simpl. by apply Htail.
  - destruct (str_in _ VIDEO_EXTENSIONS).
    + destruct (get_file_date E _ _) as [d le]. cbv zeta.
      destruct (makedirs E (st_fs st) _ true) as [f0 r].
      assert (Hle : files_copied (match le with Some e => log_error e (st_log st) | None => st_log st end) =
                    files_copied (st_log st)) by (destruct le; rewrite ?pics_files_copied_log_error; done).
      destruct (negb (ok_of r)); [done|].
      unfold copy_count. simpl.
      destr_copy2; simpl.
      * do 5 (split; [done|]). rewrite pics_files_copied_bump. simpl. (simpl; rewrite Hle; lia).
      * done.
    + unfold copy_count. simpl. destr_copy2; simpl.
      * do 5 (split; [done|]). rewrite pics_files_copied_bump. simpl. lia.
      * done.
Qed.

Lemma pics_except_handler_spec E dd st fp h e st' o :
  except_handler E dd st fp h e = (st', o) ->
  o_file o = fp /\ o_hash o = h /\ pics_is_error (o_route o) = true /\
  st_seen st' = st_seen st /\ files_copied (st_log st') = files_copied (st_log st).
Proof.
  unfold except_handler.
  destr_copy2; intros Hx; simplify_eq/=;
    rewrite ?pics_files_copied_bump, ?pics_files_copied_log_error; simpl; repeat split; lia.
Qed.

(** The [finally] block of [pics.py]: the temporary file is gone when
    [os.remove] can remove it; if it is still there, [os.remove] failed
    and the exception ends the run. *)
Lemma pics_finally_spec E st t st' ok :
  finally_cleanup E st t = (st', ok) ->
  st_seen st' = st_seen st /\ st_log st' = st_log st /\
  (forall x, t = Some x ->
     (can_remove E x = true -> x ∉ dom (fs_files (st_fs st'))) /\
     (x ∈ dom (fs_files (st_fs st')) -> can_remove E x = false /\ ok = false)).
Proof.
  unfold finally_cleanup. intros Hf. destruct t as [x|]; [|simplify_eq/=; done].
  destruct (exists_ (st_fs st) x) eqn:Hex.
  - destruct (bool_decide (x ∈ dom (fs_files (st_fs st))) && can_remove E x) eqn:Hb;
      simplify_eq/=.
    + split; [done|]. split; [done|].
      intros y [= <-]. unfold remove. simpl. rewrite dom_delete_L. set_solver.
    + split; [done|]. split; [done|]. intros y [= <-]. split.
      * intros Hcr Hin. rewrite Hcr, andb_true_r in Hb. by rewrite bool_decide_eq_false in Hb.
      * intros Hin. split; [|done]. by rewrite bool_decide_eq_true_2 in Hb.
  - simplify_eq/=. split; [done|]. split; [done|]. intros y [= <-].
    pose proof (not_exists_dom _ _ Hex). done.
Qed.

Lemma pics_process_file_spec E td dd sc st fp st' o ok :
  process_file E td dd sc st fp = (st', o, ok) ->
  o_file o = fp /\
  st_seen st' = (match o_hash o with Some h => {[h]} ∪ st_seen st | None => st_seen st end) /\
  (forall h, o_hash o = Some h ->
     (h ∈ st_seen st -> pics_is_main (o_route o) = false /\
        (pics_is_dup (o_route o) = true \/ pics_is_error (o_route o) = true)) /\
     ((h ∉ st_seen st) -> pics_is_dup (o_route o) = false /\
        (pics_is_main (o_route o) = true \/ pics_is_error (o_route o) = true))) /\
  files_copied (st_log st') =
    files_copied (st_log st) + (if pics_is_main (o_route o) && o_copied o then 1 else 0) /\
  (forall t, (try_body E td dd sc st fp).2 = Some t ->
     (can_remove E t = true -> t ∉ dom (fs_files (st_fs st'))) /\
     (t ∈ dom (fs_files (st_fs st')) -> can_remove E t = false /\ ok = false)).
Proof.
  unfold process_file. pose proof (pics_try_body_spec E td dd sc st fp) as H.
  destruct (try_body E td dd sc st fp) as [res temp]. simpl in H |- *.
  destruct res as [st1 o1|st1 h e].
  - destruct (finally_cleanup E st1 temp) as [st2 ok2] eqn:Hf. intros [= <- <- <-].
    destruct (pics_finally_spec _ _ _ _ _ Hf) as (F1 & F2 & F3).
    destruct H as (Hfile & Hcp & Hs & Hd & Hn & Hc).
    split; [done|]. split; [by rewrite F1|].
    split.
    + intros h Hh. destruct (Hd h Hh) as [Hd1 Hd2].
      split; [intros Hin; specialize (Hd1 Hin); destruct (o_route o1); by auto|].
      intros Hin; specialize (Hd2 Hin); destruct (o_route o1); by auto.
    + split; [rewrite F2, Hc, Hcp; by destruct (pics_is_main (o_route o1))|].
      intros t Ht. by apply F3.
  - destruct (except_handler E dd st1 fp h e) as [st2 o2] eqn:Hx.
    destruct (finally_cleanup E st2 temp) as [st3 ok3] eqn:Hf. intros [= <- <- <-].
    destruct (pics_except_handler_spec _ _ _ _ _ _ _ _ Hx) as (Xf & Xh & Xe & Xs & Xc).
    destruct (pics_finally_spec _ _ _ _ _ Hf) as (F1 & F2 & F3).
    destruct H as (Hs & Hc).
    rewrite Xh. split; [done|]. split; [by rewrite F1, Xs|].
    split.
    + intros hv ->. destruct (o_route o2); try discriminate. simpl. auto.
    + split; [rewrite F2, Xc, Hc; destruct (o_route o2); try discriminate; simpl; lia|].
      intros t Ht. by apply F3.
Qed.

Lemma pics_run_loop_spec E td dd sc : forall files st st' tr ok,
  run_loop E td dd sc st files = (st', tr, ok) ->
  st_seen st' = st_seen st ∪ list_to_set (pics_hashes tr) /\
  (forall j o h, tr !! j = Some o -> o_hash o = Some h ->
     let seen := st_seen st ∪ list_to_set (pics_hashes (take j tr)) in
     (h ∈ seen -> pics_is_main (o_route o) = false /\
        (pics_is_dup (o_route o) = true \/ pics_is_error (o_route o) = true)) /\
     ((h ∉ seen) -> pics_is_dup (o_route o) = false /\
        (pics_is_main (o_route o) = true \/ pics_is_error (o_route o) = true))) /\
  files_copied (st_log st') =
    files_copied (st_log st) + count_if (fun o => pics_is_main (o_route o) && o_copied o) tr.
Proof.
  induction files as [|fp files IH]; intros st st' tr ok Hrun; simpl in Hrun.
  { simplify_eq/=. split; [apply leibniz_equiv; set_solver|].
    split; [intros j o h Hj; by rewrite lookup_nil in Hj|]. unfold count_if; simpl; lia. }
  destruct (process_file E td dd sc st fp) as [[st1 o] ok1] eqn:Hp.
  destruct (pics_process_file_spec _ _ _ _ _ _ _ _ _ Hp) as (Pf & Ps & Pd & Pc & _).
  assert (Hstep : forall st2 os,
    st_seen st2 = st_seen st1 ∪ list_to_set (pics_hashes os) ->
    (forall j o' h, os !! j = Some o' -> o_hash o' = Some h ->
      let seen := st_seen st1 ∪ list_to_set (pics_hashes (take j os)) in
      (h ∈ seen -> pics_is_main (o_route o') = false /\
         (pics_is_dup (o_route o') = true \/ pics_is_error (o_route o') = true)) /\
      ((h ∉ seen) -> pics_is_dup (o_route o') = false /\
         (pics_is_main (o_route o') = true \/ pics_is_error (o_route o') = true))) ->
    files_copied (st_log st2) =
      files_copied (st_log st1) + count_if (fun o => pics_is_main (o_route o) && o_copied o) os ->
    st_seen st2 = st_seen st ∪ list_to_set (pics_hashes (o :: os)) /\
    (forall j o' h, (o :: os) !! j = Some o' -> o_hash o' = Some h ->
      let seen := st_seen st ∪ list_to_set (pics_hashes (take j (o :: os))) in
      (h ∈ seen -> pics_is_main (o_route o') = false /\
         (pics_is_dup (o_route o') = true \/ pics_is_error (o_route o') = true)) /\
      ((h ∉ seen) -> pics_is_dup (o_route o') = false /\
         (pics_is_main (o_route o') = true \/ pics_is_error (o_route o') = true))) /\
    files_copied (st_log st2) =
      files_copied (st_log st) + count_if (fun o => pics_is_main (o_route o) && o_copied o) (o :: os)).
  { intros st2 os Rs Rd Rc.
    split.
    { rewrite Rs, Ps. unfold pics_hashes. simpl. destruct (o_hash o); simpl;
        apply leibniz_equiv; set_solver. }
    split; [|rewrite Rc, Pc, TkFacts.count_if_cons; lia].
    intros [|j] o' h Hj Hh.
    - simpl in Hj. simplify_eq. unfold pics_hashes. cbv zeta. simpl.
      replace (st_seen st ∪ ∅) with (st_seen st) by (apply leibniz_equiv; set_solver).
      by apply Pd.
    - simpl in Hj.
      assert (Heq : st_seen st1 ∪ list_to_set (pics_hashes (take j os)) =
                    st_seen st ∪ list_to_set (pics_hashes (take (S j) (o :: os)))).
      { rewrite Ps. unfold pics_hashes. simpl. destruct (o_hash o); simpl;
          apply leibniz_equiv; set_solver. }
      cbv zeta. rewrite <- Heq. by apply (Rd j o' h Hj Hh). }
  destruct ok1.
  - destruct (run_loop E td dd sc st1 files) as [[st2 os] ok2] eqn:Hr. simplify_eq/=.
    destruct (IH _ _ _ _ Hr) as (Rs & Rd & Rc). by apply Hstep.
  - injection Hrun as <- <- <-. apply (Hstep st1 []).
    + unfold pics_hashes. simpl. apply leibniz_equiv; set_solver.
    + intros j o' h Hj. by rewrite lookup_nil in Hj.
    + unfold count_if. simpl. lia.
Qed.

Lemma makedirs_each_spec E : forall ds f f1 ok,
  makedirs_each E f ds = (f1, ok) -> fs_files f1 = fs_files f /\ fs_dirs f ⊆ fs_dirs f1.
Proof.
  induction ds as [|d ds IH]; intros f f1 ok; simpl; [intros [= <- _]; done|].
  destruct (makedirs E f d true) as [f2 r] eqn:Hm.
  destruct (makedirs_spec _ _ _ _ _ _ Hm) as (M1 & M2 & _).
  destruct (ok_of r).
  - intros H. destruct (IH _ _ _ H) as [I1 I2]. split; [congruence|set_solver].
  - intros [= <- _]. done.
Qed.

End PicsFacts.
(* ================================================================== *)
(** * Further properties of the code *)
(* ================================================================== *)

Module PathMore.
Import PyPath Env Ext PathProps.

Ltac split_pairs := repeat match goal with |- (_, _) = (_, _) => f_equal end.

Lemma string_length_app a b : String.length (a +:+ b) = (String.length a + String.length b)%nat.
Proof. induction a as [|x a IH]; simpl; [done|]. rewrite IH. done. Qed.

Lemma string_app_cancel_r a b c : a +:+ c = b +:+ c -> a = b.
Proof.
  intros H. assert (Hl : String.length a = String.length b).
  { apply (f_equal String.length) in H. rewrite !string_length_app in H. lia. }
  revert b H Hl. induction a as [|x a IH]; intros [|y b] H Hl; simpl in *; try done.
  injection H as -> H. f_equal. apply IH; [done|lia].
Qed.

Lemma cand_inj dir base ext k1 k2 : cand dir base ext k1 = cand dir base ext k2 -> k1 = k2.
Proof.
  unfold cand, join, show_nat. intros H.
  apply (inj (String.append dir)) in H. apply (inj (String.append "/")) in H.
  apply (inj (String.append base)) in H. apply (inj (String.append "_")) in H.
  apply string_app_cancel_r in H. apply (inj pretty) in H. lia.
Qed.

Lemma resolve_loop_shape f dir base ext : forall fuel counter cur,
  resolve_loop fuel f dir base ext counter cur = cur \/
  exists k, (counter <= k)%nat /\ resolve_loop fuel f dir base ext counter cur = cand dir base ext k.
Proof.
  induction fuel as [|fuel IH]; intros counter cur; simpl; [by left|].
  destruct (exists_ f cur); [|by left]. right.
  destruct (IH (S counter) (cand dir base ext counter)) as [H|(k & Hk & H)];
    unfold cand in H |- *; rewrite H.
  - exists counter. split; [lia|done].
  - exists k. split; [lia|done].
Qed.

Lemma resolve_loop_exists f dir base ext : forall fuel counter cur,
  exists_ f (resolve_loop fuel f dir base ext counter cur) = true ->
  exists_ f cur = true /\ Forall (fun k => exists_ f (cand dir base ext k) = true) (seq counter fuel).
Proof.
  induction fuel as [|fuel IH]; intros counter cur; simpl; [done|].
  destruct (exists_ f cur) eqn:Hc; [|by rewrite Hc].
  intros Hr. destruct (IH (S counter) (cand dir base ext counter) Hr) as [H1 H2].
  split; [done|]. by constructor.
Qed.

Lemma resolve_fresh f dir name : exists_ f (resolve f dir name) = false.
Proof.
  unfold resolve. destruct (splitext name) as [base ext]. cbv beta iota delta [fst snd].
  destruct (exists_ f _) eqn:Hr; [|done]. exfalso.
  apply resolve_loop_exists in Hr as [_ Hall].
  set (L := map (cand dir base ext) (seq 1 (resolve_fuel f))).
  assert (HND : NoDup L).
  { apply NoDup_fmap_2; [intros ?? ?; by eapply cand_inj|apply NoDup_seq]. }
  assert (Hsub : list_to_set (C:=gset string) L ⊆ dom (fs_files f) ∪ fs_dirs f).
  { intros p Hp. apply elem_of_list_to_set in Hp. subst L.
    apply list_elem_of_fmap in Hp as (k & -> & Hk).
    apply EnvFacts.exists_elem. rewrite Forall_forall in Hall. apply Hall.
    exact Hk. }
  apply subseteq_size in Hsub. rewrite size_list_to_set in Hsub by done.
  subst L. rewrite length_map, length_seq in Hsub. unfold resolve_fuel in Hsub.
  rewrite size_union_alt in Hsub.
  rewrite size_difference_alt in Hsub. lia.
Qed.

Lemma resolve_shape f dir name :
  resolve f dir name = join dir name \/
  exists k, (1 <= k)%nat /\
    resolve f dir name = join dir (fst (splitext name) +:+ "_" +:+ show_nat k +:+ snd (splitext name)).
Proof.
  unfold resolve. destruct (splitext name) as [base ext]. cbv beta iota delta [fst snd].
  destruct (resolve_loop_shape f dir base ext (resolve_fuel f) 1 (join dir name))
    as [H|(k & Hk & H)]; rewrite H; [by left|right]. by exists k.
Qed.

(** X1 ([resolve], the [while os.path.exists] loops of lines 284-288,
    313-317, 340-344, 356-360 and 372-376):
    the destination chosen for a name never exists yet, and it is either
    [dir/name] or [dir/base_k.ext] for some [k >= 1]. *)
Lemma resolve_spec f dir name :
  exists_ f (resolve f dir name) = false /\
  (resolve f dir name = join dir name \/
   exists k, (1 <= k)%nat /\
     resolve f dir name = join dir (fst (splitext name) +:+ "_" +:+ show_nat k +:+ snd (splitext name))).
Proof. split; [apply resolve_fresh|apply resolve_shape]. Qed.

Lemma string_app_assoc a b c : a +:+ (b +:+ c) = (a +:+ b) +:+ c.
Proof. induction a as [|x a IH]; [done|]. exact (f_equal (String x) IH). Qed.

Lemma under_join_base a s : under a (join a s).
Proof. by exists s. Qed.

Lemma under_join a x s : under a x -> under a (join x s).
Proof.
  intros [s0 ->]. exists (s0 +:+ "/" +:+ s). unfold join.
  rewrite <- !string_app_assoc. done.
Qed.

Lemma fs_frame_refl P f : fs_frame P f f.
Proof. by intros p _. Qed.

Lemma fs_frame_trans P f1 f2 f3 : fs_frame P f1 f2 -> fs_frame P f2 f3 -> fs_frame P f1 f3.
Proof. intros H1 H2 p Hp. rewrite H2, H1; done. Qed.

Lemma fs_frame_weaken (P Q : path -> Prop) f f' :
  (forall p, P p -> Q p) -> fs_frame P f f' -> fs_frame Q f f'.
Proof. intros HPQ H p Hp. apply H. intros HP. by apply Hp, HPQ. Qed.

Lemma fs_frame_write (P : path -> Prop) f p c : P p -> fs_frame P f (write_file f p c).
Proof. intros Hp q Hq. apply EnvFacts.read_write_ne. intros ->. done. Qed.

Lemma fs_frame_makedirs P E f d b : fs_frame P f (makedirs E f d b).1.
Proof. intros p _. apply EnvFacts.read_makedirs. Qed.

Lemma fs_frame_remove (P : path -> Prop) f p : P p -> fs_frame P f (remove f p).
Proof.
  intros Hp q Hq. unfold read_file, remove. simpl. rewrite lookup_delete_ne; [done|].
  intros ->. done.
Qed.

End PathMore.


Module TkMore.
Import PyPath Env Ext Tk Measure EnvFacts TkFacts PathProps TkProps PathMore.

Lemma exists_of_read f p c : read_file f p = Some c -> exists_ f p = true.
Proof.
  intros H. apply exists_elem. apply elem_of_union_l. apply elem_of_dom. by exists c.
Qed.

Lemma read_ensure_dir_eq E f d f1 ok :
  ensure_dir E f d = (f1, ok) -> forall p, read_file f1 p = read_file f p.
Proof. intros H p. pose proof (read_ensure_dir E f d p) as R. by rewrite H in R. Qed.


Lemma convert_frame E f lg i o ok f' lg' :
  convert_to_jpg E f lg i o = (ok, f', lg') ->
  forall p, p <> o -> read_file f' p = read_file f p.
Proof.
  unfold convert_to_jpg, write_bytes. intros Hc p Hp.
  repeat case_match; simplify_eq/=; rewrite ?read_write_ne; done.
Qed.

Lemma copy_resolved_keeps E st dir name src ok dst f1 lg1 :
  copy_resolved E st dir name src = (ok, dst, f1, lg1) ->
  forall p c, read_file (st_fs st) p = Some c -> read_file f1 p = Some c.
Proof.
  intros Hc p c Hp.
  destruct (copy_resolved_spec _ _ _ _ _ _ _ _ _ Hc) as (Hd & _).
  unfold copy_resolved in Hc.
  destruct (copy_file_with_progress E (st_fs st) (st_log st) src (resolve (st_fs st) dir name))
    as [[[ok' f'] lg'] pr] eqn:Hcp. simplify_eq/=.
  destruct (copy_spec _ _ _ _ _ _ _ _ _ Hcp) as (_ & _ & Hfr & _).
  rewrite Hfr; [done|]. intros ->.
  pose proof (resolve_fresh (st_fs st) dir name) as Hne.
  by rewrite (exists_of_read _ _ _ Hp) in Hne.
Qed.

Lemma image_tail_keeps E dd sc st fp fp2 p c :
  read_file (st_fs st) p = Some c ->
  match image_tail E dd sc st fp fp2 with
  | BOk st' _ | BRaise st' _ _ => read_file (st_fs st') p = Some c
  end.
Proof.
  intros Hp. unfold image_tail.
  destruct (calculate_image_hash E (st_fs st) (st_log st) fp2) as [h lg] eqn:Hh.
  destruct h as [h|]; simpl; [|done].
  case_bool_decide.
  - destruct (copy_resolved E _ _ _ _) as [[[ok dst] f1] lg1] eqn:Hc.
    by eapply copy_resolved_keeps.
  - destruct (get_file_date E (st_fs st) fp2) as [d le].
    destruct (ensure_dir E _ _) as [f1 made] eqn:He.
    pose proof (read_ensure_dir_eq _ _ _ _ _ He p) as R.
    destruct made; simpl; [|congruence].
    destruct (copy_resolved E _ _ _ _) as [[[ok dst] f2] lg1] eqn:Hc.
    eapply copy_resolved_keeps; [exact Hc|]. simpl. congruence.
Qed.

Lemma try_body_temp E dd sc st fp t :
  (try_body E dd sc st fp).2 = Some t ->
  str_in (lower (snd (splitext fp))) CONVERTIBLE_IMAGE_EXTENSIONS = true /\
  t = fst (splitext fp) +:+ ".jpg".
Proof.
  unfold try_body.
  destruct (str_in _ ALL_IMAGE_EXTENSIONS).
  - destruct (str_in _ CONVERTIBLE_IMAGE_EXTENSIONS) eqn:Hc.
    + destruct (convert_to_jpg E _ _ _ _) as [[ok f1] lg1]. by destruct ok; intros [= <-].
    + done.
  - destruct (str_in _ VIDEO_EXTENSIONS).
    + destruct (get_file_date E _ _). destruct (ensure_dir E _ _) as [f1 []]; simpl; [|done].
      by destruct (copy_resolved E _ _ _ _) as [[[? ?] ?] ?].
    + by destruct (copy_resolved E _ _ _ _) as [[[? ?] ?] ?].
Qed.

Lemma try_body_keeps E dd sc st fp p c :
  read_file (st_fs st) p = Some c ->
  (try_body E dd sc st fp).2 <> Some p ->
  match (try_body E dd sc st fp).1 with
  | BOk st' _ | BRaise st' _ _ => read_file (st_fs st') p = Some c
  end.
Proof.
  intros Hp. unfold try_body.
  destruct (str_in _ ALL_IMAGE_EXTENSIONS).
  - destruct (str_in _ CONVERTIBLE_IMAGE_EXTENSIONS).
    + destruct (convert_to_jpg E _ _ _ _) as [[ok f1] lg1] eqn:Hcv. intros Hne.
      assert (Hp1 : read_file f1 p = Some c).
      { rewrite (convert_frame _ _ _ _ _ _ _ _ Hcv); [done|]. intros ->. destruct ok; done. }
      destruct ok; simpl; [|done]. by apply image_tail_keeps.
    + intros _. by apply image_tail_keeps.
  - destruct (str_in _ VIDEO_EXTENSIONS).
    + destruct (get_file_date E _ _) as [d le].
      destruct (ensure_dir E _ _) as [f1 made] eqn:He.
      pose proof (read_ensure_dir_eq _ _ _ _ _ He p) as R.
      intros _. destruct made; simpl; [|congruence].
      destruct (copy_resolved E _ _ _ _) as [[[ok dst] f2] lg1] eqn:Hc. simpl.
      eapply copy_resolved_keeps; [exact Hc|]. simpl. congruence.
    + destruct (copy_resolved E _ _ _ _) as [[[ok dst] f1] lg1] eqn:Hc. intros _. simpl.
      by eapply copy_resolved_keeps.
Qed.

Lemma process_file_keeps E dd sc st fp p c :
  read_file (st_fs st) p = Some c ->
  (str_in (lower (snd (splitext fp))) CONVERTIBLE_IMAGE_EXTENSIONS = true ->
   p <> fst (splitext fp) +:+ ".jpg") ->
  read_file (st_fs (process_file E dd sc st fp).1) p = Some c.
Proof.
  intros Hp Hnt.
  assert (Hne : (try_body E dd sc st fp).2 <> Some p).
  { intros Ht. apply try_body_temp in Ht as [H1 H2]. by apply (Hnt H1). }
  pose proof (try_body_keeps E dd sc st fp p c Hp Hne) as Hk.
  unfold process_file. destruct (try_body E dd sc st fp) as [res temp]. simpl in *.
  destruct res as [st1 o1|st1 h e]; simpl.
  - destruct (finally_spec E st1 temp) as (_ & _ & _ & _ & _ & F). by rewrite F.
  - destruct (except_handler E dd st1 fp h e) as [st2 o2] eqn:Hx. simpl.
    destruct (finally_spec E st2 temp) as (_ & _ & _ & _ & _ & F). rewrite F by done.
    unfold except_handler in Hx.
    destruct (copy_resolved E _ _ _ _) as [[[ok dst] f1] lg1] eqn:Hc. simplify_eq/=.
    by eapply copy_resolved_keeps.
Qed.

Lemma run_loop_keeps E dd sc p c : forall files st,
  read_file (st_fs st) p = Some c ->
  (forall fp, fp ∈ files -> str_in (lower (snd (splitext fp))) CONVERTIBLE_IMAGE_EXTENSIONS = true ->
     p <> fst (splitext fp) +:+ ".jpg") ->
  read_file (st_fs (run_loop E dd sc st files).1) p = Some c.
Proof.
  induction files as [|fp files IH]; intros st Hp Hnt; simpl; [done|].
  pose proof (process_file_keeps E dd sc st fp p c Hp ltac:(apply Hnt; set_solver)) as H1.
  destruct (process_file E dd sc st fp) as [st1 o]. simpl in H1.
  pose proof (IH st1 H1 ltac:(intros; apply Hnt; set_solver)) as H2.
  destruct (run_loop E dd sc st1 files) as [st2 os]. done.
Qed.

Lemma read_setup_eq f0 f p : fs_files f = fs_files f0 -> read_file f p = read_file f0 p.
Proof. unfold read_file. by intros ->. Qed.

(** X2 ([organize_photos_core] of [photo_organizer.py]): a file present
    before the run keeps its bytes, unless it is the [base.jpg] temporary
    of a convertible file of the walk or the report
    [photo_organizer_log.txt] of the destination. *)
Lemma tk_run_keeps_existing_files E f0 source_dir destination_dir structure_choice walk p c :
  read_file f0 p = Some c ->
  p <> join destination_dir "photo_organizer_log.txt" ->
  (forall fp, fp ∈ walk -> str_in (lower (snd (splitext fp))) CONVERTIBLE_IMAGE_EXTENSIONS = true ->
     p <> fst (splitext fp) +:+ ".jpg") ->
  read_file (rr_fs (organize_photos_core E f0 source_dir destination_dir structure_choice walk)) p
    = Some c.
Proof.
  intros Hp Hlog Hnt. unfold organize_photos_core.
  pose proof (setup_files E f0 source_dir destination_dir) as Hs.
  destruct (setup E f0 source_dir destination_dir) as [f1|f1|f1]; destruct Hs as [Hf _];
    cbv beta iota zeta; cbn [rr_fs]; [|rewrite (read_setup_eq f0 f1 p Hf); done..].
  pose proof (run_loop_keeps E destination_dir structure_choice p c walk (mkState f1 empty_stats ∅)
                ltac:(simpl; rewrite (read_setup_eq f0 f1 p Hf); done) Hnt) as H.
  destruct (run_loop E destination_dir structure_choice _ walk) as [st tr]. simpl in H.
  destruct (write_report E (st_fs st) _) as [f3 ok] eqn:Hw.
  destruct (write_report_spec _ _ _ _ _ Hw) as (_ & Hfr & _).
  destruct ok; cbn [rr_fs]; rewrite Hfr by exact Hlog; exact H.
Qed.

Lemma tally_bump_route r s :
  tk_tally (bump (tk_route_counter r) s) =
  let '(a, b, c, d, e) := tk_tally s in
  (a + ind (is_main r), b + ind (is_video r), c + ind (is_dup r),
   d + ind (is_manual r), e + ind (is_error r))%nat.
Proof. destruct s, r; simpl; rewrite ?Nat.add_0_r, ?Nat.add_1_r; done. Qed.

Lemma tally_bump_congr c a b : tk_tally a = tk_tally b -> tk_tally (bump c a) = tk_tally (bump c b).
Proof. destruct a, b, c; unfold tk_tally; simpl; intros H; simplify_eq; done. Qed.

Lemma convert_tally E f lg i o ok f' lg' :
  convert_to_jpg E f lg i o = (ok, f', lg') -> tk_tally lg' = tk_tally lg.
Proof.
  unfold convert_to_jpg. intros Hc.
  destruct (conversion_kind i) as [[k cnt]|] eqn:Hk; [|by simplify_eq].
  assert (Ht : tk_tally (bump cnt lg) = tk_tally lg).
  { unfold conversion_kind in Hk. destruct lg. repeat case_match; simplify_eq; reflexivity. }
  revert Hc Ht. generalize (bump cnt lg). intros lg1 Hc Ht.
  repeat case_match; simplify_eq; rewrite ?tally_log_error; try done; unfold tk_tally; congruence.
Qed.

Lemma image_tail_tally E dd sc st fp fp2 :
  match image_tail E dd sc st fp fp2 with
  | BOk st' o => tk_tally (st_log st') =
      tk_tally (if o_copied o then bump (tk_route_counter (o_route o)) (st_log st) else st_log st)
  | BRaise st' _ _ => tk_tally (st_log st') = tk_tally (st_log st)
  end.
Proof.
  unfold image_tail.
  destruct (calculate_image_hash E (st_fs st) (st_log st) fp2) as [h lg] eqn:Hh.
  destruct (hash_spec _ _ _ _ _ _ Hh) as (Ht & _).
  destruct h as [h|]; simpl; [|done].
  case_bool_decide.
  - destruct (copy_resolved E _ _ _ _) as [[[ok dst] f1] lg1] eqn:Hc.
    destruct (copy_resolved_spec _ _ _ _ _ _ _ _ _ Hc) as (_ & Ht1 & _).
    simpl in *. destruct ok; simpl; [apply tally_bump_congr|]; congruence.
  - destruct (get_file_date E (st_fs st) fp2) as [d le].
    destruct (log_opt_spec le lg) as [Ht2 _].
    destruct (ensure_dir E _ _) as [f1 made]. destruct made; simpl; [|congruence].
    destruct (copy_resolved E _ _ _ _) as [[[ok dst] f2] lg1] eqn:Hc.
    destruct (copy_resolved_spec _ _ _ _ _ _ _ _ _ Hc) as (_ & Ht1 & _).
    simpl in *. destruct ok; simpl; [apply tally_bump_congr|]; congruence.
Qed.

Lemma try_body_tally E dd sc st fp :
  match (try_body E dd sc st fp).1 with
  | BOk st' o => tk_tally (st_log st') =
      tk_tally (if o_copied o then bump (tk_route_counter (o_route o)) (st_log st) else st_log st)
  | BRaise st' _ _ => tk_tally (st_log st') = tk_tally (st_log st)
  end.
Proof.
  unfold try_body.
  destruct (str_in _ ALL_IMAGE_EXTENSIONS).
  - destruct (str_in _ CONVERTIBLE_IMAGE_EXTENSIONS).
    + destruct (convert_to_jpg E _ _ _ _) as [[ok f1] lg1] eqn:Hcv.
      pose proof (convert_tally _ _ _ _ _ _ _ _ Hcv) as Hc.
      destruct ok; simpl; [|done].
      pose proof (image_tail_tally E dd sc (mkState f1 lg1 (st_seen st)) fp
                    (fst (splitext fp) +:+ ".jpg")) as H.
      destruct (image_tail _ _ _ _ _ _) as [st' o|st' h e]; simpl in *; [|congruence].
      rewrite H. destruct (o_copied o); [by apply tally_bump_congr|done].
    + apply image_tail_tally.
  - destruct (str_in _ VIDEO_EXTENSIONS).
    + destruct (get_file_date E _ _) as [d le].
      destruct (log_opt_spec le (st_log st)) as [Ht2 _].
      destruct (ensure_dir E _ _) as [f1 made]. destruct made; simpl; [|done].
      destruct (copy_resolved E _ _ _ _) as [[[ok dst] f2] lg1] eqn:Hc.
      destruct (copy_resolved_spec _ _ _ _ _ _ _ _ _ Hc) as (_ & Ht1 & _).
      simpl in *. destruct ok; simpl; [apply tally_bump_congr|]; congruence.
    + destruct (copy_resolved E _ _ _ _) as [[[ok dst] f1] lg1] eqn:Hc.
      destruct (copy_resolved_spec _ _ _ _ _ _ _ _ _ Hc) as (_ & Ht1 & _).
      simpl in *. destruct ok; simpl; [apply tally_bump_congr|]; congruence.
Qed.

Lemma finally_tally E st t : tk_tally (st_log (finally_cleanup E st t)) = tk_tally (st_log st).
Proof.
  unfold finally_cleanup. repeat case_match; simpl; rewrite ?tally_log_error; done.
Qed.

Lemma process_file_tally E dd sc st fp :
  let '(st', o) := process_file E dd sc st fp in
  tk_tally (st_log st') =
    tk_tally (if o_copied o then bump (tk_route_counter (o_route o)) (st_log st) else st_log st).
Proof.
  unfold process_file. pose proof (try_body_tally E dd sc st fp) as H.
  destruct (try_body E dd sc st fp) as [res temp]. simpl in H.
  destruct res as [st1 o1|st1 h e]; [simpl; rewrite finally_tally; done|].
  unfold except_handler.
  destruct (copy_resolved E _ _ _ _) as [[[ok dst] f1] lg1] eqn:Hc.
  destruct (copy_resolved_spec _ _ _ _ _ _ _ _ _ Hc) as (_ & Ht1 & _).
  simpl. rewrite finally_tally. simpl. rewrite tally_log_error.
  destruct ok; simpl; [apply tally_bump_congr|]; congruence.
Qed.

Lemma run_loop_tally E dd sc : forall files st,
  let '(st', tr) := run_loop E dd sc st files in
  tk_tally (st_log st') =
    let '(a, b, c, d, e) := tk_tally (st_log st) in
    (a + count_if (fun o => is_main (o_route o) && o_copied o) tr,
     b + count_if (fun o => is_video (o_route o) && o_copied o) tr,
     c + count_if (fun o => is_dup (o_route o) && o_copied o) tr,
     d + count_if (fun o => is_manual (o_route o) && o_copied o) tr,
     e + count_if (fun o => is_error (o_route o) && o_copied o) tr)%nat.
Proof.
  induction files as [|fp files IH]; intros st; simpl.
  { destruct (st_log st); unfold count_if; simpl; rewrite !Nat.add_0_r; done. }
  pose proof (process_file_tally E dd sc st fp) as H1.
  destruct (process_file E dd sc st fp) as [st1 o].
  specialize (IH st1).
  destruct (run_loop E dd sc st1 files) as [st2 os].
  rewrite IH, H1. rewrite !count_if_cons.
  destruct (o_copied o).
  - rewrite tally_bump_route. destruct (st_log st). unfold tk_tally. simpl.
    destruct (o_route o); simpl; split_pairs; lia.
  - destruct (st_log st). unfold tk_tally. simpl.
    rewrite !andb_false_r. split_pairs; lia.
Qed.

(** X3 ([organize_photos_core] of [photo_organizer.py]): each of the five
    per-category counters equals the number of outcomes of that category
    whose copy returned [True]. *)
Lemma tk_counters_count_copies E f0 source_dir destination_dir structure_choice walk :
  let r := organize_photos_core E f0 source_dir destination_dir structure_choice walk in
  tk_tally (rr_stats r) =
    (count_if (fun o => is_main (o_route o) && o_copied o) (rr_trace r),
     count_if (fun o => is_video (o_route o) && o_copied o) (rr_trace r),
     count_if (fun o => is_dup (o_route o) && o_copied o) (rr_trace r),
     count_if (fun o => is_manual (o_route o) && o_copied o) (rr_trace r),
     count_if (fun o => is_error (o_route o) && o_copied o) (rr_trace r)).
Proof.
  cbv zeta. unfold organize_photos_core.
  destruct (setup E f0 source_dir destination_dir) as [f1|f1|f1]; cbv beta iota zeta; [|done..].
  pose proof (run_loop_tally E destination_dir structure_choice walk (mkState f1 empty_stats ∅)) as H.
  destruct (run_loop E destination_dir structure_choice _ walk) as [st tr].
  destruct (write_report E (st_fs st) _) as [f3 []]; simpl in *; rewrite H; done.
Qed.

Lemma conv_log_error e s : tk_conv (log_error e s) = tk_conv s.
Proof. by destruct s. Qed.

Lemma conv_log_opt e s : tk_conv (log_opt e s) = tk_conv s.
Proof. destruct e; [apply conv_log_error|done]. Qed.

Lemma conv_bump_route r s : tk_conv (bump (tk_route_counter r) s) = tk_conv s.
Proof. by destruct s, r. Qed.

Lemma copy_conv E f lg src dst ok f' lg' pr :
  copy_file_with_progress E f lg src dst = (ok, f', lg', pr) -> tk_conv lg' = tk_conv lg.
Proof.
  unfold copy_file_with_progress. generalize CHUNK_SIZE as K. intros K Hc.
  repeat case_match; simplify_eq/=; rewrite ?conv_log_error; done.
Qed.

Lemma copy_resolved_conv E st dir name src ok dst f1 lg1 :
  copy_resolved E st dir name src = (ok, dst, f1, lg1) -> tk_conv lg1 = tk_conv (st_log st).
Proof.
  unfold copy_resolved. intros Hc.
  destruct (copy_file_with_progress _ _ _ _ _) as [[[ok' f'] lg'] pr] eqn:Hcp.
  injection Hc as <- <- <- <-. by eapply copy_conv.
Qed.

Lemma hash_conv E f lg p h lg' :
  calculate_image_hash E f lg p = (h, lg') -> tk_conv lg' = tk_conv lg.
Proof.
  unfold calculate_image_hash. intros Hh.
  destruct (read_file f p) as [c|]; [destruct (average_hash E c)|]; injection Hh as <- <-;
    rewrite ?conv_log_error; done.
Qed.

Lemma convert_conv E f lg i o ok f' lg' :
  convert_to_jpg E f lg i o = (ok, f', lg') ->
  converted_jpeg lg' = converted_jpeg lg /\ tk_converted lg' = tk_converted lg + ind ok.
Proof.
  unfold convert_to_jpg. intros Hc.
  destruct (conversion_kind i) as [[k cnt]|] eqn:Hk.
  2:{ injection Hc as <- <- <-. simpl. lia. }
  assert (Hb : converted_jpeg (bump cnt lg) = converted_jpeg lg /\
               tk_converted (bump cnt lg) = tk_converted lg + 1).
  { unfold conversion_kind in Hk. destruct lg.
    repeat case_match; simplify_eq; unfold tk_converted; simpl; lia. }
  revert Hc Hb. generalize (bump cnt lg). intros lg1 Hc [Hb1 Hb2].
  assert (Hl : forall e s, converted_jpeg (log_error e s) = converted_jpeg s /\
                           tk_converted (log_error e s) = tk_converted s) by (by intros e []).
  repeat case_match; injection Hc as <- <- <-; simpl;
    repeat match goal with |- context [log_error ?e ?s] => destruct (Hl e s) as [-> ->] end; lia.
Qed.

Lemma image_tail_conv E dd sc st fp fp2 :
  match image_tail E dd sc st fp fp2 with
  | BOk st' _ | BRaise st' _ _ => tk_conv (st_log st') = tk_conv (st_log st)
  end.
Proof.
  unfold image_tail.
  destruct (calculate_image_hash E (st_fs st) (st_log st) fp2) as [h lg] eqn:Hh.
  apply hash_conv in Hh.
  destruct h as [h|]; simpl; [|done].
  case_bool_decide.
  - destruct (copy_resolved E _ _ _ _) as [[[ok dst] f1] lg1] eqn:Hc.
    apply copy_resolved_conv in Hc. simpl in *.
    destruct ok; [change CDuplicates with (tk_route_counter (RDup dst)); rewrite conv_bump_route|]; congruence.
  - destruct (get_file_date E (st_fs st) fp2) as [d le].
    destruct (ensure_dir E _ _) as [f1 made]. destruct made; simpl; [|by rewrite conv_log_opt].
    destruct (copy_resolved E _ _ _ _) as [[[ok dst] f2] lg1] eqn:Hc.
    apply copy_resolved_conv in Hc. simpl in *. rewrite conv_log_opt in Hc.
    destruct ok; [change CFilesCopied with (tk_route_counter (RMain dst)); rewrite conv_bump_route|]; congruence.
Qed.

Lemma finally_conv E st t : tk_conv (st_log (finally_cleanup E st t)) = tk_conv (st_log st).
Proof. unfold finally_cleanup. repeat case_match; simpl; rewrite ?conv_log_error; done. Qed.

Lemma except_conv E dd st fp h e :
  let '(st', o) := except_handler E dd st fp h e in
  tk_conv (st_log st') = tk_conv (st_log st) /\ is_error (o_route o) = true.
Proof.
  unfold except_handler.
  destruct (copy_resolved E _ _ _ _) as [[[ok dst] f1] lg1] eqn:Hc.
  apply copy_resolved_conv in Hc. simpl. split; [|done].
  rewrite conv_log_error. destruct ok; [|done].
  change CErrors with (tk_route_counter (RError dst)). by rewrite conv_bump_route.
Qed.

Lemma str_in_convertible_image x :
  str_in x CONVERTIBLE_IMAGE_EXTENSIONS = true -> str_in x ALL_IMAGE_EXTENSIONS = true.
Proof.
  unfold str_in, ALL_IMAGE_EXTENSIONS. rewrite existsb_app. intros ->. apply orb_true_r.
Qed.

(** The format counters of the [try] block: one more exactly when a
    conversion succeeded, which needs a convertible file and happens for
    every convertible file that completes the block. *)
Lemma try_body_conv E dd sc st fp :
  match (try_body E dd sc st fp).1 with
  | BOk st' _ => exists b : bool,
      tk_conv (st_log st') = (converted_jpeg (st_log st), tk_converted (st_log st) + ind b) /\
      (b = true -> convertible fp = true) /\ (convertible fp = true -> b = true)
  | BRaise st' _ _ => exists b : bool,
      tk_conv (st_log st') = (converted_jpeg (st_log st), tk_converted (st_log st) + ind b) /\
      (b = true -> convertible fp = true)
  end.
Proof.
  assert (Hz : forall s, tk_conv s = (converted_jpeg s, tk_converted s + ind false))
    by (intros s; unfold tk_conv; simpl; f_equal; lia).
  unfold try_body, convertible.
  destruct (str_in _ ALL_IMAGE_EXTENSIONS) eqn:Ha.
  - destruct (str_in _ CONVERTIBLE_IMAGE_EXTENSIONS) eqn:Hcv.
    + destruct (convert_to_jpg E _ _ _ _) as [[ok f1] lg1] eqn:Hc.
      apply convert_conv in Hc. destruct Hc as [Hc1 Hc2].
      destruct ok; cbn [fst].
      * pose proof (image_tail_conv E dd sc (mkState f1 lg1 (st_seen st)) fp
                      (fst (splitext fp) +:+ ".jpg")) as H.
        destruct (image_tail _ _ _ _ _ _) as [st' o|st' h e]; simpl in H;
          exists true; rewrite H; unfold tk_conv; simpl; rewrite Hc1, Hc2; done.
      * exists false. unfold tk_conv; simpl. rewrite Hc1, Hc2. done.
    + pose proof (image_tail_conv E dd sc st fp fp) as H.
      destruct (image_tail _ _ _ _ _ _) as [st' o|st' h e]; simpl in H;
        exists false; rewrite H, Hz; done.
  - assert (Hcv : str_in (lower (snd (splitext fp))) CONVERTIBLE_IMAGE_EXTENSIONS = false).
    { destruct (str_in _ CONVERTIBLE_IMAGE_EXTENSIONS) eqn:Hc; [|done].
      apply str_in_convertible_image in Hc. congruence. }
    rewrite Hcv.
    destruct (str_in _ VIDEO_EXTENSIONS).
    + destruct (get_file_date E _ _) as [d le].
      destruct (ensure_dir E _ _) as [f1 made]. destruct made; simpl.
      * destruct (copy_resolved E _ _ _ _) as [[[ok dst] f2] lg1] eqn:Hc.
        apply copy_resolved_conv in Hc. simpl in Hc. rewrite conv_log_opt in Hc.
        exists false. simpl. rewrite <- Hz.
        destruct ok; [change CVideos with (tk_route_counter (RVideo dst)); rewrite conv_bump_route|];
          rewrite Hc; done.
      * exists false. rewrite conv_log_opt, <- Hz. done.
    + destruct (copy_resolved E _ _ _ _) as [[[ok dst] f1] lg1] eqn:Hc.
      apply copy_resolved_conv in Hc.
      exists false. simpl. rewrite <- Hz.
      destruct ok; [change CManual with (tk_route_counter (RManual dst)); rewrite conv_bump_route|];
        rewrite Hc; done.
Qed.

Lemma process_file_conv E dd sc st fp :
  let '(st', o) := process_file E dd sc st fp in
  converted_jpeg (st_log st') = converted_jpeg (st_log st) /\
  exists b : bool, tk_converted (st_log st') = tk_converted (st_log st) + ind b /\
    (b = true -> convertible fp = true) /\
    (convertible fp && negb (is_error (o_route o)) = true -> b = true).
Proof.
  unfold process_file. pose proof (try_body_conv E dd sc st fp) as H.
  destruct (try_body E dd sc st fp) as [res temp]. simpl in H.
  destruct res as [st1 o1|st1 h e]; cbv beta iota.
  - destruct H as (b & Hb & Hb1 & Hb2).
    pose proof (finally_conv E st1 temp) as Hf. rewrite Hb in Hf. unfold tk_conv in Hf.
    injection Hf as -> ->. split; [done|]. exists b. split; [done|]. split; [done|].
    intros Hc. apply Hb2. by apply andb_true_iff in Hc as [? _].
  - destruct H as (b & Hb & Hb1).
    pose proof (except_conv E dd st1 fp h e) as Hx.
    destruct (except_handler E dd st1 fp h e) as [st2 o]. destruct Hx as [Hx1 Hx2].
    pose proof (finally_conv E st2 temp) as Hf. rewrite Hx1, Hb in Hf. unfold tk_conv in Hf.
    injection Hf as -> ->. split; [done|]. exists b. split; [done|]. split; [done|].
    rewrite Hx2, andb_false_r. done.
Qed.

Lemma process_file_file E dd sc st fp : o_file (process_file E dd sc st fp).2 = fp.
Proof.
  destruct (process_file E dd sc st fp) as [st' o] eqn:H.
  by destruct (process_file_spec _ _ _ _ _ _ _ H).
Qed.

Lemma run_loop_conv E dd sc : forall files st,
  let '(st', tr) := run_loop E dd sc st files in
  converted_jpeg (st_log st') = converted_jpeg (st_log st) /\
  tk_converted (st_log st) + count_if (fun o => convertible (o_file o) && negb (is_error (o_route o))) tr
    <= tk_converted (st_log st') <=
  tk_converted (st_log st) + count_if (fun o => convertible (o_file o)) tr.
Proof.
  induction files as [|fp files IH]; intros st; simpl.
  { unfold count_if. simpl. lia. }
  pose proof (process_file_conv E dd sc st fp) as H1.
  pose proof (process_file_file E dd sc st fp) as Hf.
  destruct (process_file E dd sc st fp) as [st1 o]. simpl in Hf.
  specialize (IH st1).
  destruct (run_loop E dd sc st1 files) as [st2 os].
  destruct H1 as [Hj [b (Hb & Hb1 & Hb2)]]. destruct IH as [Hj2 Hc2].
  rewrite !count_if_cons. subst fp. split; [congruence|].
  destruct b, (convertible (o_file o)), (is_error (o_route o)); simpl in *;
    try (specialize (Hb1 eq_refl); discriminate); try (specialize (Hb2 eq_refl); discriminate); lia.
Qed.

(** X4 ([organize_photos_core] and [convert_to_jpg] of
    [photo_organizer.py]): [converted_jpeg] stays 0, and the four format
    counters together lie between the number of convertible files that
    did not end in Errors and the number of convertible files. *)
Lemma tk_conversion_counters E f0 source_dir destination_dir structure_choice walk :
  let r := organize_photos_core E f0 source_dir destination_dir structure_choice walk in
  converted_jpeg (rr_stats r) = 0 /\
  count_if (fun o => convertible (o_file o) && negb (is_error (o_route o))) (rr_trace r)
    <= tk_converted (rr_stats r) <=
  count_if (fun o => convertible (o_file o)) (rr_trace r).
Proof.
  cbv zeta. unfold organize_photos_core.
  destruct (setup E f0 source_dir destination_dir) as [f1|f1|f1]; cbv beta iota zeta;
    [|simpl; unfold count_if, tk_converted; simpl; lia..].
  pose proof (run_loop_conv E destination_dir structure_choice walk (mkState f1 empty_stats ∅)) as H.
  destruct (run_loop E destination_dir structure_choice _ walk) as [st tr].
  destruct (write_report E (st_fs st) _) as [f3 []]; simpl in *; exact H.
Qed.

(** X5 ([copy_file_with_progress], lines 40-85): the copy returns [True]
    exactly when the source is readable, the destination can be opened
    for writing, the source's bytes fit under the destination's write
    limit and [copystat] succeeds.  When it returns [False], one
    [ECopyFailed] entry is logged, the last progress value is 0, no file
    other than the destination changes, and if the source is missing or
    the destination cannot be opened nothing changes and the progress is
    [0] alone. *)
Lemma copy_outcome E f lg src dst ok f' lg' pr :
  copy_file_with_progress E f lg src dst = (ok, f', lg', pr) ->
  (ok = true <->
     exists c, read_file f src = Some c /\ open_w_ok E f dst = true /\
       fits (write_limit E dst) (length c) = true /\ can_copystat E src dst = true) /\
  (ok = false ->
     lg' = log_error (ECopyFailed src dst) lg /\ last pr = Some 0%Q /\
     (forall p, p <> dst -> read_file f' p = read_file f p) /\
     ((read_file f src = None \/ open_w_ok E f dst = false) -> f' = f /\ pr = [0%Q])).
Proof.
  intros Hc. pose proof (copy_ok_iff E f lg src dst) as Hi. rewrite Hc in Hi. simpl in Hi.
  split; [exact Hi|]. intros ->.
  destruct (copy_fail_spec _ _ _ _ _ _ _ _ Hc) as (H1 & H2 & H3).
  destruct (copy_spec _ _ _ _ _ _ _ _ _ Hc) as (_ & _ & Hfr & _).
  done.
Qed.












Lemma resolve_name f dir name : exists s, resolve f dir name = join dir s /\ resolved_name name s.
Proof.
  destruct (resolve_shape f dir name) as [H|(k & Hk & H)]; rewrite H; eexists; split; try done.
  - by left.
  - right. by exists k.
Qed.

Lemma copy_resolved_name E st dir name src ok dst f1 lg1 :
  copy_resolved E st dir name src = (ok, dst, f1, lg1) ->
  exists s, dst = join dir s /\ resolved_name name s.
Proof.
  intros Hc. destruct (copy_resolved_spec _ _ _ _ _ _ _ _ _ Hc) as [-> _]. apply resolve_name.
Qed.

Lemma image_tail_route E dd sc st fp fp2 :
  match image_tail E dd sc st fp fp2 with
  | BOk _ o =>
      (exists d s, o_route o = RMain (join (dated_folder sc dd d) s) /\ resolved_name (basename fp2) s) \/
      (exists s, o_route o = RDup (join (suspect_duplicates_dir dd) s) /\ resolved_name (basename fp2) s)
  | BRaise _ _ _ => True
  end.
Proof.
  unfold image_tail.
  destruct (calculate_image_hash E (st_fs st) (st_log st) fp2) as [h lg].
  destruct h as [h|]; simpl; [|done].
  case_bool_decide.
  - destruct (copy_resolved E _ _ _ _) as [[[ok dst] f1] lg1] eqn:Hc.
    apply copy_resolved_name in Hc as (s & -> & Hs). right. by exists s.
  - destruct (get_file_date E (st_fs st) fp2) as [d le].
    destruct (ensure_dir E _ _) as [f1 []]; simpl; [|done].
    destruct (copy_resolved E _ _ _ _) as [[[ok dst] f2] lg1] eqn:Hc.
    apply copy_resolved_name in Hc as (s & -> & Hs). left. by exists d, s.
Qed.

Lemma except_route E dd st fp h e :
  exists s, o_route (except_handler E dd st fp h e).2 = RError (join (errors_dir dd) s) /\
            resolved_name (basename fp) s.
Proof.
  unfold except_handler.
  destruct (copy_resolved E _ _ _ _) as [[[ok dst] f1] lg1] eqn:Hc.
  apply copy_resolved_name in Hc as (s & -> & Hs). by exists s.
Qed.

(** The [try] block completes on a route allowed for the file, and raises
    only for images and videos, whose Errors route is allowed. *)
Lemma try_body_route E dd sc st fp :
  match (try_body E dd sc st fp).1 with
  | BOk _ o => tk_route_ok dd sc fp (o_route o)
  | BRaise _ _ _ => forall s, resolved_name (basename fp) s ->
      tk_route_ok dd sc fp (RError (join (errors_dir dd) s))
  end.
Proof.
  unfold tk_route_ok, try_body. cbv zeta.
  destruct (str_in _ ALL_IMAGE_EXTENSIONS) eqn:Ha.
  - destruct (str_in _ CONVERTIBLE_IMAGE_EXTENSIONS) eqn:Hcv.
    + destruct (convert_to_jpg E _ _ _ _) as [[ok f1] lg1].
      destruct ok; cbn [fst]; [|intros s Hs; right; right; by exists s].
      pose proof (image_tail_route E dd sc (mkState f1 lg1 (st_seen st)) fp
                    (fst (splitext fp) +:+ ".jpg")) as H.
      destruct (image_tail _ _ _ _ _ _) as [st' o|st' h e].
      * destruct H as [H|H]; [left|right; left]; exact H.
      * intros s Hs; right; right; by exists s.
    + pose proof (image_tail_route E dd sc st fp fp) as H.
      destruct (image_tail _ _ _ _ _ _) as [st' o|st' h e].
      * destruct H as [H|H]; [left|right; left]; exact H.
      * intros s Hs; right; right; by exists s.
  - destruct (str_in _ VIDEO_EXTENSIONS).
    + destruct (get_file_date E _ _) as [d le].
      destruct (ensure_dir E _ _) as [f1 []]; simpl; [|intros s Hs; right; by exists s].
      destruct (copy_resolved E _ _ _ _) as [[[ok dst] f2] lg1] eqn:Hc.
      apply copy_resolved_name in Hc as (s & -> & Hs). simpl. left. by exists d, s.
    + destruct (copy_resolved E _ _ _ _) as [[[ok dst] f1] lg1] eqn:Hc.
      apply copy_resolved_name in Hc as (s & -> & Hs). simpl. by exists s.
Qed.

Lemma process_file_route E dd sc st fp :
  tk_route_ok dd sc fp (o_route (process_file E dd sc st fp).2).
Proof.
  unfold process_file. pose proof (try_body_route E dd sc st fp) as H.
  destruct (try_body E dd sc st fp) as [res temp]. simpl in H.
  destruct res as [st1 o1|st1 h e]; cbv beta iota; [exact H|].
  pose proof (except_route E dd st1 fp h e) as (s & Hr & Hs).
  destruct (except_handler E dd st1 fp h e) as [st2 o]. simpl in *. rewrite Hr. by apply H.
Qed.

Lemma run_loop_route E dd sc : forall files st,
  forall o, o ∈ (run_loop E dd sc st files).2 -> tk_route_ok dd sc (o_file o) (o_route o).
Proof.
  induction files as [|fp files IH]; intros st o; simpl; [set_solver|].
  pose proof (process_file_route E dd sc st fp) as H1.
  pose proof (process_file_file E dd sc st fp) as Hf.
  destruct (process_file E dd sc st fp) as [st1 o1]. simpl in H1, Hf.
  specialize (IH st1).
  destruct (run_loop E dd sc st1 files) as [st2 os]. simpl in *.
  intros Ho. apply elem_of_cons in Ho as [->|Ho]; [by rewrite Hf|by apply IH].
Qed.

(** X11 ([organize_photos_core] of [photo_organizer.py]): every outcome's
    destination follows the file's extension, under a resolved name:
    images go to the dated folder, Suspect Duplicates or Errors, videos
    to the dated Videos folder or Errors, other files to Manually Check. *)
Lemma tk_routes_by_extension E f0 source_dir destination_dir structure_choice walk :
  forall o, o ∈ rr_trace (organize_photos_core E f0 source_dir destination_dir structure_choice walk) ->
  tk_route_ok destination_dir structure_choice (o_file o) (o_route o).
Proof.
  unfold organize_photos_core.
  destruct (setup E f0 source_dir destination_dir) as [f1|f1|f1]; cbv beta iota zeta;
    [|simpl; set_solver..].
  pose proof (run_loop_route E destination_dir structure_choice walk (mkState f1 empty_stats ∅)) as H.
  destruct (run_loop E destination_dir structure_choice _ walk) as [st tr].
  destruct (write_report E (st_fs st) _) as [f3 []]; exact H.
Qed.

Lemma tk_copy_resolved_frame E st dir name src ok dst f1 lg1 dd :
  under dd dir ->
  copy_resolved E st dir name src = (ok, dst, f1, lg1) -> fs_frame (under dd) (st_fs st) f1.
Proof.
  intros Hd Hc. pose proof (copy_resolved_name _ _ _ _ _ _ _ _ _ Hc) as (s & Hdst & _).
  unfold copy_resolved in Hc.
  destruct (copy_file_with_progress E (st_fs st) (st_log st) src (resolve (st_fs st) dir name))
    as [[[ok' f'] lg'] pr] eqn:Hcp. injection Hc as <- <- <- <-.
  destruct (copy_spec _ _ _ _ _ _ _ _ _ Hcp) as (_ & _ & Hfr & _).
  intros p Hp. apply Hfr. intros ->. apply Hp. rewrite Hdst. by apply under_join.
Qed.

Lemma fs_frame_ensure_dir P E f d : fs_frame P f (ensure_dir E f d).1.
Proof. intros p _. apply read_ensure_dir. Qed.

Lemma tk_under_dated sc dd d : under dd (dated_folder sc dd d).
Proof.
  unfold dated_folder. case_bool_decide; [apply under_join_base|apply under_join, under_join_base].
Qed.

Lemma tk_under_dated_videos sc dd d : under dd (dated_folder sc (videos_base_dir dd) d).
Proof.
  unfold dated_folder, videos_base_dir.
  case_bool_decide; [apply under_join|do 2 apply under_join]; apply under_join_base.
Qed.

Lemma tk_image_tail_frame E dd sc st fp fp2 :
  match image_tail E dd sc st fp fp2 with
  | BOk st' _ | BRaise st' _ _ => fs_frame (under dd) (st_fs st) (st_fs st')
  end.
Proof.
  unfold image_tail.
  destruct (calculate_image_hash E (st_fs st) (st_log st) fp2) as [h lg].
  destruct h as [h|]; simpl; [|apply fs_frame_refl].
  case_bool_decide.
  - destruct (copy_resolved E _ _ _ _) as [[[ok dst] f1] lg1] eqn:Hc.
    refine (tk_copy_resolved_frame _ _ _ _ _ _ _ _ _ _ _ Hc).
    unfold suspect_duplicates_dir. apply under_join_base.
  - destruct (get_file_date E (st_fs st) fp2) as [d le].
    pose proof (fs_frame_ensure_dir (under dd) E (st_fs st) (dated_folder sc dd d)) as Hf.
    destruct (ensure_dir E _ _) as [f1 made]. simpl in Hf.
    destruct made; simpl; [|exact Hf].
    destruct (copy_resolved E _ _ _ _) as [[[ok dst] f2] lg1] eqn:Hc.
    eapply fs_frame_trans; [exact Hf|].
    refine (tk_copy_resolved_frame _ _ _ _ _ _ _ _ _ _ _ Hc). apply tk_under_dated.
Qed.

Lemma tk_process_file_frame E dd sc st fp :
  fs_frame (tk_scope dd fp) (st_fs st) (st_fs (process_file E dd sc st fp).1).
Proof.
  assert (Hw : forall f f', fs_frame (under dd) f f' -> fs_frame (tk_scope dd fp) f f').
  { intros f f'. apply fs_frame_weaken. by left. }
  assert (Hx : forall st1 h e,
             fs_frame (tk_scope dd fp) (st_fs st1) (st_fs (except_handler E dd st1 fp h e).1)).
  { intros st1 h e. unfold except_handler.
    destruct (copy_resolved E _ _ _ _) as [[[ok dst] f1] lg1] eqn:Hc. simpl.
    apply Hw. refine (tk_copy_resolved_frame _ _ _ _ _ _ _ _ _ _ _ Hc). unfold errors_dir. apply under_join_base. }
  assert (Hfin : forall st1 t, (forall x, t = Some x -> tk_scope dd fp x) ->
            fs_frame (tk_scope dd fp) (st_fs st1) (st_fs (finally_cleanup E st1 t))).
  { intros st1 t Ht p Hp. destruct (finally_spec E st1 t) as (_ & _ & _ & _ & _ & F).
    apply F. intros ->. by apply Hp, Ht. }
  unfold process_file.
  pose proof (try_body_temp E dd sc st fp) as Htemp.
  destruct (try_body E dd sc st fp) as [res temp] eqn:Htb. simpl in Htemp.
  assert (Ht : forall x, temp = Some x -> tk_scope dd fp x).
  { intros x Hx'. right. by apply Htemp. }
  assert (Hres : match res with
                 | BOk st' _ | BRaise st' _ _ => fs_frame (tk_scope dd fp) (st_fs st) (st_fs st')
                 end).
  { revert Htb. unfold try_body.
    destruct (str_in _ ALL_IMAGE_EXTENSIONS).
    - destruct (str_in _ CONVERTIBLE_IMAGE_EXTENSIONS) eqn:Hcv.
      + destruct (convert_to_jpg E _ _ _ _) as [[ok f1] lg1] eqn:Hc.
        assert (Hc' : fs_frame (tk_scope dd fp) (st_fs st) f1).
        { intros p Hp. apply (convert_frame _ _ _ _ _ _ _ _ Hc). intros ->. apply Hp.
          right. split; [exact Hcv|reflexivity]. }
        destruct ok; intros [= <- <-].
        * pose proof (tk_image_tail_frame E dd sc (mkState f1 lg1 (st_seen st)) fp
                        (fst (splitext fp) +:+ ".jpg")) as H.
          destruct (image_tail _ _ _ _ _ _); simpl in H;
            (eapply fs_frame_trans; [exact Hc'|]); by apply Hw.
        * exact Hc'.
      + intros [= <- <-]. pose proof (tk_image_tail_frame E dd sc st fp fp) as H.
        destruct (image_tail _ _ _ _ _ _); by apply Hw.
    - destruct (str_in _ VIDEO_EXTENSIONS).
      + destruct (get_file_date E _ _) as [d le].
        pose proof (fs_frame_ensure_dir (under dd) E (st_fs st)
                      (dated_folder sc (videos_base_dir dd) d)) as Hf.
        destruct (ensure_dir E _ _) as [f1 made]. simpl in Hf.
        destruct made; simpl; [|intros [= <- <-]; simpl; by apply Hw].
        destruct (copy_resolved E _ _ _ _) as [[[ok dst] f2] lg1] eqn:Hc. intros [= <- <-].
        simpl. apply Hw. eapply fs_frame_trans; [exact Hf|].
        refine (tk_copy_resolved_frame _ _ _ _ _ _ _ _ _ _ _ Hc). apply tk_under_dated_videos.
      + destruct (copy_resolved E _ _ _ _) as [[[ok dst] f1] lg1] eqn:Hc. intros [= <- <-].
        simpl. apply Hw. refine (tk_copy_resolved_frame _ _ _ _ _ _ _ _ _ _ _ Hc).
        unfold manually_check_dir. apply under_join_base. }
  destruct res as [st1 o1|st1 h e]; cbv iota beta; cbn [fst].
  - eapply fs_frame_trans; [exact Hres|]. by apply Hfin.
  - eapply fs_frame_trans; [exact Hres|]. pose proof (Hx st1 h e) as Hx1.
    destruct (except_handler E dd st1 fp h e) as [st2 o2]. cbn [fst] in Hx1 |- *.
    eapply fs_frame_trans; [exact Hx1|]. by apply Hfin.
Qed.

Lemma tk_run_loop_frame E dd sc p : forall files st,
  (forall fp, fp ∈ files -> ~ tk_scope dd fp p) ->
  read_file (st_fs (run_loop E dd sc st files).1) p = read_file (st_fs st) p.
Proof.
  induction files as [|fp files IH]; intros st Hn; simpl; [done|].
  pose proof (tk_process_file_frame E dd sc st fp p ltac:(apply Hn; set_solver)) as H1.
  destruct (process_file E dd sc st fp) as [st1 o]. simpl in H1.
  pose proof (IH st1 ltac:(intros; apply Hn; set_solver)) as H2.
  destruct (run_loop E dd sc st1 files) as [st2 os]. simpl in *. congruence.
Qed.

(** X13 ([organize_photos_core] of [photo_organizer.py]): the run writes
    or removes nothing outside the destination tree, apart from the
    [base.jpg] temporaries of convertible files. *)
Lemma tk_writes_confined E f0 source_dir destination_dir structure_choice walk p :
  ~ under destination_dir p ->
  (forall fp, fp ∈ walk -> convertible fp = true -> p <> fst (splitext fp) +:+ ".jpg") ->
  read_file (rr_fs (organize_photos_core E f0 source_dir destination_dir structure_choice walk)) p
    = read_file f0 p.
Proof.
  intros Hu Hnt.
  assert (Hn : forall fp, fp ∈ walk -> ~ tk_scope destination_dir fp p).
  { intros fp Hfp [Hp|[Hc Hp]]; [done|]. by apply (Hnt fp). }
  unfold organize_photos_core.
  pose proof (setup_files E f0 source_dir destination_dir) as Hs.
  destruct (setup E f0 source_dir destination_dir) as [f1|f1|f1]; destruct Hs as [Hf _];
    cbv beta iota zeta; cbn [rr_fs]; [|apply read_setup_eq; done..].
  pose proof (tk_run_loop_frame E destination_dir structure_choice p walk
                (mkState f1 empty_stats ∅) Hn) as H.
  destruct (run_loop E destination_dir structure_choice _ walk) as [st tr]. simpl in H.
  destruct (write_report E (st_fs st) _) as [f3 ok] eqn:Hw.
  destruct (write_report_spec _ _ _ _ _ Hw) as (_ & Hfr & _).
  assert (Hne : p <> rp_path (mkReport (join destination_dir "photo_organizer_log.txt")
                               source_dir destination_dir structure_choice (st_log st))).
  { simpl. intros ->. apply Hu. apply under_join_base. }
  destruct ok; cbn [rr_fs]; rewrite (Hfr p Hne), H; simpl; apply read_setup_eq; done.
Qed.

End TkMore.

Module PicsMore.
Import PyPath Env Ext Pics Measure EnvFacts PicsFacts PathProps PicsProps PathMore.

Lemma log_ext_refl s : log_ext s s.
Proof. split; [done|]. exists []. by rewrite app_nil_r. Qed.

Lemma log_ext_trans a b c : log_ext a b -> log_ext b c -> log_ext a c.
Proof.
  intros [H1 [s1 E1]] [H2 [s2 E2]]. split; [congruence|]. exists (s2 ++ s1).
  by rewrite E1, E2, app_assoc.
Qed.

Lemma log_ext_log_error e s : log_ext (log_error e s) s.
Proof. destruct s. split; [done|]. by exists [e]. Qed.

Lemma log_ext_bump c a b : log_ext a b -> log_ext (bump c a) (bump c b).
Proof.
  destruct a, b. intros [Ht Hs]. unfold pics_tally in Ht. simpl in Ht. simplify_eq.
  destruct c; split; try done.
Qed.

Lemma pics_hash_ext E f lg p h lg' :
  calculate_image_hash E f lg p = (h, lg') -> log_ext lg' lg.
Proof.
  unfold calculate_image_hash. intros Hh. repeat case_match; simplify_eq/=;
    first [apply log_ext_refl | apply log_ext_log_error].
Qed.

Lemma pics_convert_ext E f lg i o ok f' lg' :
  convert_to_jpg E f lg i o = (ok, f', lg') -> log_ext lg' lg.
Proof.
  unfold convert_to_jpg. intros Hc. repeat case_match; simplify_eq/=;
    first [apply log_ext_refl | apply log_ext_log_error].
Qed.

Lemma log_opt_ext (le : option log_entry) s :
  log_ext (match le with Some e => log_error e s | None => s end) s.
Proof. destruct le; [apply log_ext_log_error|apply log_ext_refl]. Qed.

Lemma copy_count_ext E st seen src dst c fp h r :
  match copy_count E st seen src dst c fp h r with
  | BOk st' o => o_copied o = true /\ o_route o = r /\ st_log st' = bump c (st_log st)
  | BRaise st' _ _ => st_log st' = st_log st
  end.
Proof. unfold copy_count. by destruct (copy2 E (st_fs st) src dst) as [f1 []]. Qed.

Ltac copy_count_case H :=
  match goal with |- context [copy_count ?E ?st ?seen ?src ?dst ?c ?fp ?h ?r] =>
    pose proof (copy_count_ext E st seen src dst c fp h r) as H;
    destruct (copy_count E st seen src dst c fp h r) end.

Lemma pics_image_tail_ext E dd sc st fp fp2 :
  match image_tail E dd sc st fp fp2 with
  | BOk st' o => o_copied o = true /\
      log_ext (st_log st') (bump (pics_route_counter (o_route o)) (st_log st))
  | BRaise st' _ _ => log_ext (st_log st') (st_log st)
  end.
Proof.
  unfold image_tail.
  destruct (calculate_image_hash E (st_fs st) (st_log st) fp2) as [h lg] eqn:Hh.
  apply pics_hash_ext in Hh. cbv zeta.
  case_bool_decide.
  - copy_count_case Hc.
    + destruct Hc as (-> & -> & ->). split; [done|]. by apply log_ext_bump.
    + rewrite Hc. done.
  - cbn [st_fs st_log st_seen]. destruct (get_file_date E (st_fs st) fp2) as [d le]. cbv zeta.
    destruct (makedirs E (st_fs st) _ true) as [f1 r].
    destruct (negb (ok_of r)); cbn [st_log].
    + eapply log_ext_trans; [apply log_opt_ext|done].
    + copy_count_case Hc.
      * destruct Hc as (-> & -> & ->). split; [done|]. apply log_ext_bump.
        simpl. eapply log_ext_trans; [apply log_opt_ext|done].
      * rewrite Hc. simpl. eapply log_ext_trans; [apply log_opt_ext|done].
Qed.

Lemma pics_try_body_ext E td dd sc st fp :
  match (try_body E td dd sc st fp).1 with
  | BOk st' o => o_copied o = true /\
      log_ext (st_log st') (bump (pics_route_counter (o_route o)) (st_log st))
  | BRaise st' _ _ => log_ext (st_log st') (st_log st)
  end.
Proof.
  assert (Htail : forall st1 fp2, log_ext (st_log st1) (st_log st) ->
    match image_tail E dd sc st1 fp fp2 with
    | BOk st' o => o_copied o = true /\
        log_ext (st_log st') (bump (pics_route_counter (o_route o)) (st_log st))
    | BRaise st' _ _ => log_ext (st_log st') (st_log st)
    end).
  { intros st1 fp2 H1. pose proof (pics_image_tail_ext E dd sc st1 fp fp2) as H.
    destruct (image_tail E dd sc st1 fp fp2).
    - destruct H as [Hc H]. split; [done|]. eapply log_ext_trans; [exact H|]. by apply log_ext_bump.
    - eapply log_ext_trans; [exact H|done]. }
  unfold try_body.
  destruct (str_in _ ALL_IMAGE_EXTENSIONS).
  - destruct (str_in _ CONVERTIBLE_IMAGE_EXTENSIONS).
    + destruct (convert_to_jpg E _ _ _ _) as [[ok f1] lg1] eqn:Hcv.
      apply pics_convert_ext in Hcv.
      destruct ok; simpl; [by apply Htail|done].
    + simpl. apply Htail, log_ext_refl.
  - destruct (str_in _ VIDEO_EXTENSIONS).
    + destruct (get_file_date E _ _) as [d le]. cbv zeta.
      destruct (makedirs E (st_fs st) _ true) as [f1 r].
      destruct (negb (ok_of r)); cbn [fst].
      * apply log_opt_ext.
      * copy_count_case Hc.
        -- destruct Hc as (-> & -> & ->). split; [done|]. apply log_ext_bump. apply log_opt_ext.
        -- rewrite Hc. apply log_opt_ext.
    + cbn [fst]. copy_count_case Hc.
      * destruct Hc as (-> & -> & ->). split; [done|]. apply log_ext_refl.
      * rewrite Hc. apply log_ext_refl.
Qed.

Lemma pics_except_ext E dd st fp h e :
  let '(st', o) := except_handler E dd st fp h e in
  pics_is_error (o_route o) = true /\
  log_ext (st_log st') (if o_copied o then bump CErrors (st_log st) else st_log st).
Proof.
  unfold except_handler. destruct (copy2 E _ _ _) as [f1 []]; simpl; split; try done.
  - apply log_ext_bump, log_ext_log_error.
  - apply log_ext_log_error.
Qed.

Lemma pics_finally_log E st t : st_log (finally_cleanup E st t).1 = st_log st.
Proof. unfold finally_cleanup. repeat case_match; done. Qed.

Lemma pics_process_file_ext E td dd sc st fp :
  let '(st', o, _) := process_file E td dd sc st fp in
  (o_copied o = false -> pics_is_error (o_route o) = true) /\
  log_ext (st_log st')
    (if o_copied o then bump (pics_route_counter (o_route o)) (st_log st) else st_log st).
Proof.
  unfold process_file. pose proof (pics_try_body_ext E td dd sc st fp) as H.
  destruct (try_body E td dd sc st fp) as [res temp]. simpl in H.
  destruct res as [st1 o1|st1 h e].
  - destruct H as [Hc H]. cbv iota beta.
    pose proof (pics_finally_log E st1 temp) as Hf.
    destruct (finally_cleanup E st1 temp) as [st2 ok2]. simpl in Hf.
    rewrite Hc, Hf. split; [done|exact H].
  - cbv iota beta. pose proof (pics_except_ext E dd st1 fp h e) as Hx.
    destruct (except_handler E dd st1 fp h e) as [st2 o2]. destruct Hx as [Hx1 Hx2].
    pose proof (pics_finally_log E st2 temp) as Hf.
    destruct (finally_cleanup E st2 temp) as [st3 ok3]. simpl in Hf. rewrite Hf.
    split; [done|]. destruct o2 as [f2 h2 r2 c2]. simpl in *.
    destruct r2; try discriminate. simpl.
    eapply log_ext_trans; [exact Hx2|]. destruct c2; [by apply log_ext_bump|done].
Qed.

Lemma pics_tally_bump_route r s :
  pics_tally (bump (pics_route_counter r) s) =
  let '(a, b, c, d, e) := pics_tally s in
  (a + (if pics_is_main r then 1 else 0), b + (if pics_is_video r then 1 else 0),
   c + (if pics_is_dup r then 1 else 0), d + (if pics_is_manual r then 1 else 0),
   e + (if pics_is_error r then 1 else 0))%nat.
Proof. destruct s, r; unfold pics_tally; simpl; split_pairs; lia. Qed.

Lemma pics_run_loop_ext E td dd sc : forall files st,
  let '(st', tr, _) := run_loop E td dd sc st files in
  (forall o, o ∈ tr -> o_copied o = false -> pics_is_error (o_route o) = true) /\
  (exists sfx, errors (st_log st') = errors (st_log st) ++ sfx) /\
  pics_tally (st_log st') =
    let '(a, b, c, d, e) := pics_tally (st_log st) in
    (a + count_if (fun o => pics_is_main (o_route o) && o_copied o) tr,
     b + count_if (fun o => pics_is_video (o_route o) && o_copied o) tr,
     c + count_if (fun o => pics_is_dup (o_route o) && o_copied o) tr,
     d + count_if (fun o => pics_is_manual (o_route o) && o_copied o) tr,
     e + count_if (fun o => pics_is_error (o_route o) && o_copied o) tr)%nat.
Proof.
  assert (Hstep : forall s1 s2 o,
    log_ext s2 (if o_copied o then bump (pics_route_counter (o_route o)) s1 else s1) ->
    (exists sfx, errors s2 = errors s1 ++ sfx) /\
    pics_tally s2 =
      let '(a, b, c, d, e) := pics_tally s1 in
      (a + (if pics_is_main (o_route o) && o_copied o then 1 else 0),
       b + (if pics_is_video (o_route o) && o_copied o then 1 else 0),
       c + (if pics_is_dup (o_route o) && o_copied o then 1 else 0),
       d + (if pics_is_manual (o_route o) && o_copied o then 1 else 0),
       e + (if pics_is_error (o_route o) && o_copied o then 1 else 0))%nat).
  { intros s1 s2 o [Ht [sfx Hs]]. destruct (o_copied o).
    - split; [exists sfx; rewrite Hs; destruct s1, (o_route o); done|].
      rewrite Ht, pics_tally_bump_route. rewrite !andb_true_r. done.
    - split; [by exists sfx|]. rewrite Ht, !andb_false_r. destruct (pics_tally s1) as [[[[a b] c] d] e].
      split_pairs; lia. }
  induction files as [|fp files IH]; intros st; simpl.
  { split; [set_solver|]. split; [exists []; by rewrite app_nil_r|].
    destruct (st_log st); unfold pics_tally, count_if; simpl; split_pairs; lia. }
  pose proof (pics_process_file_ext E td dd sc st fp) as H1.
  destruct (process_file E td dd sc st fp) as [[st1 o] ok1]. destruct H1 as [Hc1 H1].
  destruct (Hstep _ _ _ H1) as [[s1 Hs1] Ht1].
  destruct ok1.
  - specialize (IH st1). destruct (run_loop E td dd sc st1 files) as [[st2 os] ok2].
    destruct IH as (Hc2 & [s2 Hs2] & Ht2).
    split; [intros o' Ho'; apply elem_of_cons in Ho' as [->|Ho']; auto|].
    split; [exists (s1 ++ s2); by rewrite Hs2, Hs1, app_assoc|].
    rewrite Ht2, !TkFacts.count_if_cons, Ht1. destruct (st_log st). unfold pics_tally. simpl.
    split_pairs; lia.
  - split; [intros o' Ho'; apply list_elem_of_singleton in Ho' as ->; auto|].
    split; [by exists s1|].
    rewrite Ht1, !TkFacts.count_if_cons. unfold count_if. destruct (st_log st). unfold pics_tally. simpl.
    split_pairs; lia.
Qed.

(** X8 ([organize_photos_core] of [pics.py]): an outcome whose copy
    failed is always an Errors outcome; the error list only grows; each
    counter grows by the number of copied outcomes of its category. *)
Lemma pics_session_counters E tempdir f0 lg0 destination_dir structure_choice walk :
  let '(st', tr, _) := organize_photos_core E tempdir f0 lg0 destination_dir structure_choice walk in
  (forall o, o ∈ tr -> o_copied o = false -> pics_is_error (o_route o) = true) /\
  (exists sfx, errors (st_log st') = errors lg0 ++ sfx) /\
  pics_tally (st_log st') =
    let '(a, b, c, d, e) := pics_tally lg0 in
    (a + count_if (fun o => pics_is_main (o_route o) && o_copied o) tr,
     b + count_if (fun o => pics_is_video (o_route o) && o_copied o) tr,
     c + count_if (fun o => pics_is_dup (o_route o) && o_copied o) tr,
     d + count_if (fun o => pics_is_manual (o_route o) && o_copied o) tr,
     e + count_if (fun o => pics_is_error (o_route o) && o_copied o) tr)%nat.
Proof.
  unfold organize_photos_core.
  destruct (makedirs_each E f0 _) as [f1 []].
  - apply pics_run_loop_ext.
  - exact (pics_run_loop_ext E tempdir destination_dir structure_choice [] (mkState f1 lg0 ∅)).
Qed.

Lemma pics_try_body_temp E td dd sc st fp t :
  (try_body E td dd sc st fp).2 = Some t ->
  convertible fp = true /\ t = join td (basename fp +:+ ".jpg").
Proof.
  unfold try_body, convertible.
  destruct (str_in _ ALL_IMAGE_EXTENSIONS).
  - destruct (str_in _ CONVERTIBLE_IMAGE_EXTENSIONS).
    + destruct (convert_to_jpg E _ _ _ _) as [[ok f1] lg1].
      destruct ok; simpl; intros [= <-]; done.
    + done.
  - destruct (str_in _ VIDEO_EXTENSIONS); [|done].
    destruct (get_file_date E _ _) as [d le]. cbv zeta.
    destruct (makedirs E _ _ true) as [f1 r]. by destruct (negb (ok_of r)).
Qed.

Lemma pics_finally_flag E st t :
  (finally_cleanup E st t).2 = false ->
  exists x, t = Some x /\ (finally_cleanup E st t).1 = st /\ temp_stuck E (st_fs st) x.
Proof.
  unfold finally_cleanup. destruct t as [x|]; [|done].
  destruct (exists_ (st_fs st) x) eqn:Hex; [|done].
  destruct (bool_decide (x ∈ dom (fs_files (st_fs st))) && can_remove E x) eqn:Hb; [done|].
  intros _. exists x. split; [done|]. split; [done|].
  unfold temp_stuck. apply exists_elem in Hex.
  destruct (decide (x ∈ dom (fs_files (st_fs st)))) as [Hin|Hin].
  - right. split; [done|]. rewrite bool_decide_eq_true_2 in Hb by done. done.
  - left. unfold isdir. apply bool_decide_eq_true. set_solver.
Qed.

Lemma pics_process_file_flag E td dd sc st fp :
  let '(st', o, ok) := process_file E td dd sc st fp in
  o_file o = fp /\
  (ok = false -> convertible fp = true /\
     temp_stuck E (st_fs st') (join td (basename fp +:+ ".jpg"))).
Proof.
  destruct (process_file E td dd sc st fp) as [[st' o] ok] eqn:Hp.
  split; [by destruct (pics_process_file_spec _ _ _ _ _ _ _ _ _ Hp)|].
  intros ->. revert Hp. unfold process_file.
  pose proof (pics_try_body_temp E td dd sc st fp) as Ht.
  destruct (try_body E td dd sc st fp) as [res temp]. simpl in Ht.
  assert (Hgen : forall st1, (finally_cleanup E st1 temp).2 = false ->
            convertible fp = true /\
            temp_stuck E (st_fs (finally_cleanup E st1 temp).1) (join td (basename fp +:+ ".jpg"))).
  { intros st1 Hf. destruct (pics_finally_flag E st1 temp Hf) as (x & -> & -> & Hd).
    destruct (Ht x eq_refl) as [Hc ->]. done. }
  destruct res as [st1 o1|st1 h e].
  - cbv iota beta. specialize (Hgen st1).
    destruct (finally_cleanup E st1 temp) as [st2 ok2]. intros [= -> _ ->]. by apply Hgen.
  - cbv iota beta. destruct (except_handler E dd st1 fp h e) as [st2 o2].
    specialize (Hgen st2).
    destruct (finally_cleanup E st2 temp) as [st3 ok3]. intros [= -> _ ->]. by apply Hgen.
Qed.

Lemma pics_run_loop_flag E td dd sc : forall files st,
  let '(st', tr, ok) := run_loop E td dd sc st files in
  (ok = true -> map o_file tr = files) /\
  (ok = false -> exists n fp,
     map o_file tr = take (S n) files /\ files !! n = Some fp /\
     convertible fp = true /\ temp_stuck E (st_fs st') (join td (basename fp +:+ ".jpg"))).
Proof.
  induction files as [|fp files IH]; intros st; cbn [run_loop].
  { split; [done|discriminate]. }
  pose proof (pics_process_file_flag E td dd sc st fp) as H1.
  destruct (process_file E td dd sc st fp) as [[st1 o] ok1]. destruct H1 as [Hf H1].
  destruct ok1.
  - specialize (IH st1). destruct (run_loop E td dd sc st1 files) as [[st2 os] ok2].
    destruct IH as [IH1 IH2]. split.
    + intros Hok. simpl. by rewrite Hf, IH1.
    + intros Hok. destruct (IH2 Hok) as (n & fp' & Hm & Hn & Hc & Hd).
      exists (S n), fp'. simpl. rewrite Hf, Hm. done.
  - split; [discriminate|]. intros _. destruct (H1 eq_refl) as [Hc Hd].
    exists 0, fp. simpl. rewrite Hf. done.
Qed.

(** X9 ([organize_photos_core] of [pics.py]): a completed run has one
    outcome per walked file.  A run that raised either failed to create
    one of the four special folders, with no outcome and no file changed,
    or stopped right after a convertible file whose temporary JPEG path is
    a directory or a file the OS refuses to remove. *)
Lemma pics_run_flag E tempdir f0 lg0 destination_dir structure_choice walk :
  let '(st', tr, ok) := organize_photos_core E tempdir f0 lg0 destination_dir structure_choice walk in
  (ok = true -> map o_file tr = walk) /\
  (ok = false ->
     ((makedirs_each E f0 [suspect_duplicates_dir destination_dir; videos_base_dir destination_dir;
                          manually_check_dir destination_dir; errors_dir destination_dir]).2 = false /\
      tr = [] /\ fs_files (st_fs st') = fs_files f0) \/
     ((makedirs_each E f0 [suspect_duplicates_dir destination_dir; videos_base_dir destination_dir;
                          manually_check_dir destination_dir; errors_dir destination_dir]).2 = true /\
      exists n fp,
       map o_file tr = take (S n) walk /\ walk !! n = Some fp /\
       convertible fp = true /\
       temp_stuck E (st_fs st') (join tempdir (basename fp +:+ ".jpg")))).
Proof.
  unfold organize_photos_core.
  destruct (makedirs_each E f0 _) as [f1 ok1] eqn:Hm.
  destruct (makedirs_each_spec _ _ _ _ _ Hm) as [Hfiles _].
  destruct ok1.
  - pose proof (pics_run_loop_flag E tempdir destination_dir structure_choice walk (mkState f1 lg0 ∅)) as H.
    destruct (run_loop _ _ _ _ _ _) as [[st' tr] ok]. destruct H as [H1 H2].
    split; [done|]. intros Hok. right. split; [done|]. by apply H2.
  - split; [discriminate|]. intros _. left. done.
Qed.

Lemma pics_image_tail_route E dd sc st fp fp2 :
  match image_tail E dd sc st fp fp2 with
  | BOk _ o =>
      (exists d, o_route o = RMain (join (dated_folder sc dd d) (basename fp2))) \/
      o_route o = RDup (join (suspect_duplicates_dir dd) (basename fp2))
  | BRaise _ _ _ => True
  end.
Proof.
  unfold image_tail.
  destruct (calculate_image_hash E (st_fs st) (st_log st) fp2) as [h lg]. cbv zeta.
  case_bool_decide.
  - copy_count_case Hc; [|done].
    destruct Hc as (_ & -> & _). by right.
  - cbn [st_fs st_log st_seen]. destruct (get_file_date E (st_fs st) fp2) as [d le]. cbv zeta.
    destruct (makedirs E (st_fs st) _ true) as [f1 r].
    destruct (negb (ok_of r)); [done|].
    copy_count_case Hc; [|done].
    destruct Hc as (_ & -> & _). left. by exists d.
Qed.

Lemma pics_except_route E dd st fp h e :
  o_route (except_handler E dd st fp h e).2 = RError (join (errors_dir dd) (basename fp)).
Proof. unfold except_handler. by destruct (copy2 E _ _ _) as [f1 []]. Qed.

Ltac fin_tac :=
  try (match goal with |- context [except_handler ?a ?b ?c ?d ?f ?g] =>
         pose proof (pics_except_route a b c d f g);
         destruct (except_handler a b c d f g) end);
  match goal with |- context [finally_cleanup ?a ?b ?c] => destruct (finally_cleanup a b c) end;
  cbv iota beta; cbn [fst snd] in *.

Lemma pics_process_file_route E td dd sc st fp :
  pics_route_ok td dd sc fp (o_route (process_file E td dd sc st fp).1.2).
Proof.
  unfold pics_route_ok, process_file, try_body.
  destruct (str_in _ ALL_IMAGE_EXTENSIONS) eqn:Ha.
  - destruct (str_in _ CONVERTIBLE_IMAGE_EXTENSIONS) eqn:Hcv.
    + destruct (convert_to_jpg E _ _ _ _) as [[ok f1] lg1].
      destruct ok.
      * pose proof (pics_image_tail_route E dd sc (mkState f1 lg1 (st_seen st)) fp
                      (join td (basename fp +:+ ".jpg"))) as H.
        destruct (image_tail _ _ _ _ _ _) as [st' o|st' h e]; cbv iota beta; fin_tac.
        -- destruct H as [H|H]; [left|right; left]; exact H.
        -- right; right. done.
      * cbv iota beta. fin_tac. right; right. done.
    + pose proof (pics_image_tail_route E dd sc st fp fp) as H.
      destruct (image_tail _ _ _ _ _ _) as [st' o|st' h e]; cbv iota beta; fin_tac.
      * destruct H as [H|H]; [left|right; left]; exact H.
      * right; right. done.
  - destruct (str_in _ VIDEO_EXTENSIONS).
    + destruct (get_file_date E _ _) as [d le]. cbv zeta.
      destruct (makedirs E (st_fs st) _ true) as [f1 r].
      destruct (negb (ok_of r)); cbv iota beta.
      * fin_tac. right. done.
      * copy_count_case Hc; cbv iota beta; fin_tac.
        -- destruct Hc as (_ & -> & _). left. by exists d.
        -- right. done.
    + copy_count_case Hc; cbv iota beta; fin_tac.
      * destruct Hc as (_ & -> & _). by left.
      * right. done.
Qed.

Lemma pics_run_loop_route E td dd sc : forall files st,
  forall o, o ∈ (run_loop E td dd sc st files).1.2 -> pics_route_ok td dd sc (o_file o) (o_route o).
Proof.
  induction files as [|fp files IH]; intros st o; cbn [run_loop]; [simpl; set_solver|].
  pose proof (pics_process_file_route E td dd sc st fp) as H1.
  pose proof (pics_process_file_flag E td dd sc st fp) as Hf.
  destruct (process_file E td dd sc st fp) as [[st1 o1] ok1]. destruct Hf as [Hf _]. simpl in H1.
  destruct ok1.
  - specialize (IH st1). destruct (run_loop E td dd sc st1 files) as [[st2 os] ok2]. simpl in *.
    intros Ho. apply elem_of_cons in Ho as [->|Ho]; [by rewrite Hf|by apply IH].
  - simpl. intros Ho. apply list_elem_of_singleton in Ho as ->. by rewrite Hf.
Qed.

(** X12 ([organize_photos_core] of [pics.py]): every outcome's
    destination follows the file's extension, under the file's own base
    name (or the temporary JPEG's), or is the file's Errors copy. *)
Lemma pics_routes_by_extension E tempdir f0 lg0 destination_dir structure_choice walk :
  forall o, o ∈ (organize_photos_core E tempdir f0 lg0 destination_dir structure_choice walk).1.2 ->
  pics_route_ok tempdir destination_dir structure_choice (o_file o) (o_route o).
Proof.
  unfold organize_photos_core.
  destruct (makedirs_each E f0 _) as [f1 []].
  - apply pics_run_loop_route.
  - simpl. set_solver.
Qed.

Lemma copy2_frame E f src dst f1 b dd :
  under dd dst -> copy2 E f src dst = (f1, b) -> fs_frame (under dd) f f1.
Proof.
  intros Hd. unfold copy2.
  set (dst' := if isdir f dst then join dst (basename src) else dst).
  assert (Hd' : under dd dst') by (subst dst'; destruct (isdir f dst); [by apply under_join|done]).
  clearbody dst'. unfold write_bytes. intros Hc.
  repeat case_match; simplify_eq/=;
    first [apply fs_frame_refl | by apply fs_frame_write].
Qed.

Lemma pics_convert_frame E f lg i o ok f' lg' :
  convert_to_jpg E f lg i o = (ok, f', lg') -> fs_frame (eq o) f f'.
Proof.
  unfold convert_to_jpg, write_bytes. intros Hc.
  repeat case_match; simplify_eq/=;
    repeat first [ apply fs_frame_refl
                 | eapply fs_frame_trans; [apply fs_frame_write; reflexivity|]
                 | apply fs_frame_write; reflexivity ].
Qed.

Lemma under_dated_folder sc dd d : under dd (dated_folder sc dd d).
Proof.
  unfold dated_folder. case_bool_decide; [apply under_join|]; apply under_join_base.
Qed.

Lemma under_dated_folder_videos sc dd d : under dd (dated_folder sc (videos_base_dir dd) d).
Proof.
  unfold dated_folder, videos_base_dir.
  case_bool_decide; [do 2 apply under_join|apply under_join]; apply under_join_base.
Qed.

Lemma copy_count_frame E st seen src dst c fp h r dd :
  under dd dst ->
  match copy_count E st seen src dst c fp h r with
  | BOk st' _ | BRaise st' _ _ => fs_frame (under dd) (st_fs st) (st_fs st')
  end.
Proof.
  intros Hd. unfold copy_count. destruct (copy2 E (st_fs st) src dst) as [f1 b] eqn:Hc.
  destruct b; simpl; by eapply copy2_frame.
Qed.

Ltac copy_count_frame_case dd H :=
  match goal with |- context [copy_count ?E ?st ?seen ?src ?dst ?c ?fp ?h ?r] =>
    pose proof (copy_count_frame E st seen src dst c fp h r dd) as H;
    destruct (copy_count E st seen src dst c fp h r) end.

Lemma pics_image_tail_frame E dd sc st fp fp2 :
  match image_tail E dd sc st fp fp2 with
  | BOk st' _ | BRaise st' _ _ => fs_frame (under dd) (st_fs st) (st_fs st')
  end.
Proof.
  unfold image_tail.
  destruct (calculate_image_hash E (st_fs st) (st_log st) fp2) as [h lg]. cbv zeta.
  case_bool_decide.
  - copy_count_frame_case dd Hc;
    apply Hc; unfold suspect_duplicates_dir; apply under_join, under_join_base.
  - cbn [st_fs st_log st_seen]. destruct (get_file_date E (st_fs st) fp2) as [d le]. cbv zeta.
    pose proof (fs_frame_makedirs (under dd) E (st_fs st) (dated_folder sc dd d) true) as Hm.
    destruct (makedirs E (st_fs st) _ true) as [f1 r]. simpl in Hm.
    destruct (negb (ok_of r)); [exact Hm|].
    copy_count_frame_case dd Hc;
    (eapply fs_frame_trans; [exact Hm|]);
    apply Hc; apply under_join, under_dated_folder.
Qed.

Lemma pics_try_body_frame E td dd sc st fp :
  let '(res, temp) := try_body E td dd sc st fp in
  (forall t, temp = Some t -> under td t) /\
  match res with
  | BOk st' _ | BRaise st' _ _ => fs_frame (pics_scope dd td) (st_fs st) (st_fs st')
  end.
Proof.
  assert (Hw : forall f f', fs_frame (under dd) f f' -> fs_frame (pics_scope dd td) f f').
  { intros f f'. apply fs_frame_weaken. by left. }
  unfold try_body.
  destruct (str_in _ ALL_IMAGE_EXTENSIONS).
  - destruct (str_in _ CONVERTIBLE_IMAGE_EXTENSIONS).
    + destruct (convert_to_jpg E _ _ _ _) as [[ok f1] lg1] eqn:Hcv.
      apply pics_convert_frame in Hcv.
      assert (Hc : fs_frame (pics_scope dd td) (st_fs st) f1).
      { eapply fs_frame_weaken; [|exact Hcv]. intros p <-. right. apply under_join_base. }
      destruct ok; cbv iota beta; (split; [intros t [= <-]; apply under_join_base|]).
      * pose proof (pics_image_tail_frame E dd sc (mkState f1 lg1 (st_seen st)) fp
                      (join td (basename fp +:+ ".jpg"))) as H.
        destruct (image_tail _ _ _ _ _ _); simpl in H;
          (eapply fs_frame_trans; [exact Hc|]); by apply Hw.
      * exact Hc.
    + cbv iota beta. split; [done|].
      pose proof (pics_image_tail_frame E dd sc st fp fp) as H.
      destruct (image_tail _ _ _ _ _ _); by apply Hw.
  - destruct (str_in _ VIDEO_EXTENSIONS).
    + destruct (get_file_date E _ _) as [d le]. cbv zeta.
      pose proof (fs_frame_makedirs (under dd) E (st_fs st)
                    (dated_folder sc (videos_base_dir dd) d) true) as Hm.
      destruct (makedirs E (st_fs st) _ true) as [f1 r]. simpl in Hm.
      destruct (negb (ok_of r)); cbv iota beta; (split; [done|]); [by apply Hw|].
      copy_count_frame_case dd Hc; cbn [fst];
      apply Hw; (eapply fs_frame_trans; [exact Hm|]);
      apply Hc; apply under_join, under_dated_folder_videos.
    + cbv iota beta. split; [done|].
      copy_count_frame_case dd Hc; cbn [fst];
      apply Hw, Hc; unfold manually_check_dir; apply under_join, under_join_base.
Qed.

Lemma pics_except_frame E dd st fp h e :
  fs_frame (under dd) (st_fs st) (st_fs (except_handler E dd st fp h e).1).
Proof.
  unfold except_handler. destruct (copy2 E _ _ _) as [f1 b] eqn:Hc.
  destruct b; simpl; (eapply copy2_frame; [|exact Hc]);
    unfold errors_dir; apply under_join, under_join_base.
Qed.

Lemma pics_finally_frame (P : path -> Prop) E st t :
  (forall x, t = Some x -> P x) -> fs_frame P (st_fs st) (st_fs (finally_cleanup E st t).1).
Proof.
  intros Ht. unfold finally_cleanup. destruct t as [x|]; [|apply fs_frame_refl].
  destruct (exists_ (st_fs st) x); [|apply fs_frame_refl].
  destruct (bool_decide _ && can_remove E x); simpl; [|apply fs_frame_refl].
  apply fs_frame_remove. by apply Ht.
Qed.

Lemma pics_process_file_frame E td dd sc st fp :
  fs_frame (pics_scope dd td) (st_fs st) (st_fs (process_file E td dd sc st fp).1.1).
Proof.
  assert (Hw : forall f f', fs_frame (under dd) f f' -> fs_frame (pics_scope dd td) f f').
  { intros f f'. apply fs_frame_weaken. by left. }
  unfold process_file. pose proof (pics_try_body_frame E td dd sc st fp) as H.
  destruct (try_body E td dd sc st fp) as [res temp]. destruct H as [Ht H].
  assert (Hfin : forall st1, fs_frame (pics_scope dd td) (st_fs st1) (st_fs (finally_cleanup E st1 temp).1)).
  { intros st1. apply pics_finally_frame. intros x Hx. right. by apply Ht. }
  destruct res as [st1 o1|st1 h e]; cbv iota beta.
  - pose proof (Hfin st1) as Hf. destruct (finally_cleanup E st1 temp) as [st2 ok2].
    simpl in *. by eapply fs_frame_trans.
  - pose proof (pics_except_frame E dd st1 fp h e) as Hx.
    destruct (except_handler E dd st1 fp h e) as [st2 o2]. simpl in Hx.
    pose proof (Hfin st2) as Hf. destruct (finally_cleanup E st2 temp) as [st3 ok3].
    simpl in *. eapply fs_frame_trans; [exact H|]. eapply fs_frame_trans; [apply Hw, Hx|exact Hf].
Qed.

Lemma pics_run_loop_frame E td dd sc : forall files st,
  fs_frame (pics_scope dd td) (st_fs st) (st_fs (run_loop E td dd sc st files).1.1).
Proof.
  induction files as [|fp files IH]; intros st; cbn [run_loop]; [apply fs_frame_refl|].
  pose proof (pics_process_file_frame E td dd sc st fp) as H1.
  destruct (process_file E td dd sc st fp) as [[st1 o] ok1]. simpl in H1.
  destruct ok1; [|exact H1].
  specialize (IH st1). destruct (run_loop E td dd sc st1 files) as [[st2 os] ok2].
  simpl in *. by eapply fs_frame_trans.
Qed.

(** X10 ([organize_photos_core] of [pics.py]): the run writes or removes
    nothing outside the destination and the temporary directory. *)
Lemma pics_writes_confined E tempdir f0 lg0 destination_dir structure_choice walk :
  forall p, ~ under destination_dir p -> ~ under tempdir p ->
  read_file (st_fs (organize_photos_core E tempdir f0 lg0 destination_dir structure_choice walk).1.1) p =
  read_file f0 p.
Proof.
  intros p Hd Ht. unfold organize_photos_core.
  destruct (makedirs_each E f0 _) as [f1 ok1] eqn:Hm.
  destruct (makedirs_each_spec _ _ _ _ _ Hm) as [Hfiles _].
  assert (Hr : read_file f1 p = read_file f0 p) by (unfold read_file; by rewrite Hfiles).
  destruct ok1; simpl; [|exact Hr].
  rewrite (pics_run_loop_frame E tempdir destination_dir structure_choice walk _ p); [exact Hr|].
  intros [H|H]; contradiction.
Qed.

End PicsMore.

(* ================================================================== *)
(** * The specification's claims *)
(* ================================================================== *)

Module Claims.
Import PyPath Env Ext Measure Concrete.


Lemma str_in_all_of_convertible x :
  str_in x CONVERTIBLE_IMAGE_EXTENSIONS = true -> str_in x ALL_IMAGE_EXTENSIONS = true.
Proof.
  unfold str_in, ALL_IMAGE_EXTENSIONS. rewrite existsb_app. intros ->. apply orb_true_r.
Qed.

Lemma conversion_kind_convertible p k cnt :
  Tk.conversion_kind p = Some (k, cnt) ->
  endswith_any (lower p) CONVERTIBLE_IMAGE_EXTENSIONS = true.
Proof.
  unfold Tk.conversion_kind, CONVERTIBLE_IMAGE_EXTENSIONS, endswith_any. simpl.
  destruct (endswith (lower p) ".cr2"); [done|].
  destruct (endswith (lower p) ".raw"); [done|].
  destruct (endswith (lower p) ".tif"); [done|].
  destruct (endswith (lower p) ".tiff"); [done|].
  destruct (endswith (lower p) ".heic"); done.
Qed.

(** How a Tkinter run ends: the checks before the loop stop it with no
    outcome and empty statistics, or the loop runs from the folders they
    created and the report is written with the final statistics. *)
Lemma tk_organize_cases E f0 src dd sc walk :
  let r := Tk.organize_photos_core E f0 src dd sc walk in
  ((exists f1, Tk.setup E f0 src dd = Tk.SetupFalse f1 \/ Tk.setup E f0 src dd = Tk.SetupRaise f1) /\
   Tk.rr_trace r = [] /\ Tk.rr_stats r = Tk.empty_stats /\ Tk.rr_status r <> Tk.Completed /\
   Tk.rr_report r = None) \/
  (exists f1 st, Tk.setup E f0 src dd = Tk.SetupOk f1 /\
     Tk.run_loop E dd sc (Tk.mkState f1 Tk.empty_stats ∅) walk = (st, Tk.rr_trace r) /\
     Tk.rr_stats r = Tk.st_log st /\
     let rp := Tk.mkReport (join dd "photo_organizer_log.txt") src dd sc (Tk.st_log st) in
     Tk.rr_fs r = (Tk.write_report E (Tk.st_fs st) rp).1 /\
     (Tk.rr_status r = Tk.Completed <-> (Tk.write_report E (Tk.st_fs st) rp).2 = true) /\
     (Tk.rr_status r = Tk.Completed -> Tk.rr_report r = Some rp) /\
     (Tk.rr_status r <> Tk.Completed -> Tk.rr_status r = Tk.Raised /\ Tk.rr_report r = None)).
Proof.
  cbv zeta. unfold Tk.organize_photos_core.
  destruct (Tk.setup E f0 src dd) as [f1|f1|f1] eqn:Hs; cbv beta iota.
  - right. destruct (Tk.run_loop E dd sc (Tk.mkState f1 Tk.empty_stats ∅) walk) as [st tr] eqn:Hr.
    exists f1, st. split; [done|].
    destruct (Tk.write_report E (Tk.st_fs st) _) as [f3 ok] eqn:Hw.
    destruct ok; cbn [Tk.rr_trace Tk.rr_stats Tk.rr_fs Tk.rr_status Tk.rr_report fst snd];
      (split; [done|]); (split; [done|]); (split; [done|]).
    + split; [done|]. split; [done|]. done.
    + split; [split; discriminate|]. split; [discriminate|]. done.
  - left. split; [exists f1; by left|]. cbn. split; [done|]. split; [done|]. split; [discriminate|done].
  - left. split; [exists f1; by right|]. cbn. split; [done|]. split; [done|]. split; [discriminate|done].
Qed.

(** C5: for an image whose embedded DateTimeOriginal is present and parsed
    by [strptime] with the format 'YYYY:MM:DD HH:MM:SS', both
    [get_file_date] functions return that timestamp, whatever [getmtime]
    says, and log nothing; in every other case they return the
    modification-time fallback ([datetime.now()] with a logged error only
    when [getmtime] itself fails). No failure escapes either function. *)
Theorem date_taken_preferred :
  (forall E f p c entries s d,
     endswith_any (lower p) ALL_IMAGE_EXTENSIONS = true ->
     read_file f p = Some c -> exif_of E c = ExifDict entries ->
     Tk.find_date_taken entries = Some (ExifStr s) -> s <> "" -> strptime E s = Some d ->
     Tk.get_file_date E f p = (d, None) /\ Pics.get_file_date E f p = (d, None)) /\
  (forall E f p,
     (Tk.get_file_date E f p = Tk.mtime_or_now E p /\
      Pics.get_file_date E f p =
        match getmtime E p with
        | Some d => (d, None)
        | None => (now E, Some (Pics.EDate (basename p)))
        end) \/
     (exists c entries s d,
        read_file f p = Some c /\ exif_of E c = ExifDict entries /\
        Tk.find_date_taken entries = Some (ExifStr s) /\ strptime E s = Some d /\
        Tk.get_file_date E f p = (d, None) /\ Pics.get_file_date E f p = (d, None))).
Proof.
  split.
  - intros E f p c entries s d Hext Hr Hx Hf Hs Hd.
    assert (Ht : Tk.truthy (ExifStr s) = true).
    { unfold Tk.truthy. by rewrite bool_decide_eq_false_2. }
    unfold Tk.get_file_date, Pics.get_file_date.
    by rewrite Hext, Hr, Hx, Hf, Ht, Hd.
  - intros E f p. unfold Tk.get_file_date, Pics.get_file_date, Tk.mtime_or_now.
    destruct (endswith_any (lower p) ALL_IMAGE_EXTENSIONS); [|by left].
    destruct (read_file f p) as [c|] eqn:Hr; [|by left].
    destruct (exif_of E c) as [|entries] eqn:Hx; [by left|].
    destruct (Tk.find_date_taken entries) as [v|] eqn:Hf; [|by left].
    destruct (Tk.truthy v); [|by left].
    destruct v as [s|]; [|by left].
    destruct (strptime E s) as [d|] eqn:Hd; [|by left].
    right. exists c, entries, s, d. done.
Qed.

(** C6 (amended): the [finally] block of each front-end removes the
    temporary JPEG path recorded by the [try] block, on every exit path,
    when [os.remove] can remove it; a temporary that is still a file after
    the iteration is one [os.remove] refused. The Tkinter front-end then
    logs the failure ([ERemoveTemp]) as its last error and goes on; the
    Streamlit front-end lets the exception escape (flag [false]), which
    ends the run. *)
Theorem temp_jpg_removed :
  (forall E dd sc st fp t,
     (Tk.try_body E dd sc st fp).2 = Some t ->
     let st' := (Tk.process_file E dd sc st fp).1 in
     (can_remove E t = true -> t ∉ dom (fs_files (Tk.st_fs st'))) /\
     (t ∈ dom (fs_files (Tk.st_fs st')) ->
        can_remove E t = false /\ last (Tk.errors (Tk.st_log st')) = Some (Tk.ERemoveTemp t))) /\
  (forall E td dd sc st fp t,
     (Pics.try_body E td dd sc st fp).2 = Some t ->
     let '(st', _, ok) := Pics.process_file E td dd sc st fp in
     (can_remove E t = true -> t ∉ dom (fs_files (Pics.st_fs st'))) /\
     (t ∈ dom (fs_files (Pics.st_fs st')) -> can_remove E t = false /\ ok = false)).
Proof.
  split.
  - intros E dd sc st fp t Ht. cbv zeta.
    destruct (Tk.process_file E dd sc st fp) as [st' o] eqn:Hp.
    destruct (TkFacts.process_file_spec _ _ _ _ _ _ _ Hp) as (_ & _ & _ & _ & _ & _ & _ & H).
    by apply H.
  - intros E td dd sc st fp t Ht.
    destruct (Pics.process_file E td dd sc st fp) as [[st' o] ok] eqn:Hp.
    destruct (PicsFacts.pics_process_file_spec _ _ _ _ _ _ _ _ _ Hp) as (_ & _ & _ & _ & H).
    by apply H.
Qed.


(** C9 (amended): for a convertible file [X.ext] the Tkinter front-end
    puts the temporary JPEG at [X.jpg] in the source directory; if a
    source file [X.jpg] exists, a successful conversion overwrites it with
    the converter's output. The [finally] block then deletes it when
    [os.remove] can; otherwise [X.jpg] stays, no longer holding its
    original bytes after a successful conversion, and the failed removal is
    the last error logged. *)
Theorem temp_jpg_clobbers_sibling E dd sc st fp c :
  str_in (lower (snd (splitext fp))) CONVERTIBLE_IMAGE_EXTENSIONS = true ->
  read_file (Tk.st_fs st) (fst (splitext fp) +:+ ".jpg") = Some c ->
  (Tk.try_body E dd sc st fp).2 = Some (fst (splitext fp) +:+ ".jpg") /\
  (forall f1 lg1,
     Tk.convert_to_jpg E (Tk.st_fs st) (Tk.st_log st) fp (fst (splitext fp) +:+ ".jpg") =
       (true, f1, lg1) ->
     exists k src jpg, read_file (Tk.st_fs st) fp = Some src /\ decode E k src = Some jpg /\
       read_file f1 (fst (splitext fp) +:+ ".jpg") =
         Some (match carry_exif E src jpg with Some j => j | None => jpg end)) /\
  (can_remove E (fst (splitext fp) +:+ ".jpg") = true ->
     read_file (Tk.st_fs (Tk.process_file E dd sc st fp).1) (fst (splitext fp) +:+ ".jpg") = None) /\
  (forall c', read_file (Tk.st_fs (Tk.process_file E dd sc st fp).1) (fst (splitext fp) +:+ ".jpg") =
                Some c' ->
     can_remove E (fst (splitext fp) +:+ ".jpg") = false /\
     last (Tk.errors (Tk.st_log (Tk.process_file E dd sc st fp).1)) =
       Some (Tk.ERemoveTemp (fst (splitext fp) +:+ ".jpg"))).
Proof.
  intros Hconv Hr.
  assert (Htemp : (Tk.try_body E dd sc st fp).2 = Some (fst (splitext fp) +:+ ".jpg")).
  { unfold Tk.try_body. rewrite (str_in_all_of_convertible _ Hconv), Hconv.
    destruct (Tk.convert_to_jpg _ _ _ _ _) as [[ok f1] lg1]. by destruct ok. }
  split; [done|]. split.
  - intros f1 lg1 Hc. unfold Tk.convert_to_jpg in Hc.
    destruct (Tk.conversion_kind fp) as [[k cnt]|] eqn:Hk; [|discriminate].
    rewrite (conversion_kind_convertible _ _ _ Hk) in Hc.
    destruct (read_file (Tk.st_fs st) fp) as [src|] eqn:Hs; [|discriminate].
    destruct (decode E k src) as [jpg|] eqn:Hd; [|discriminate].
    destruct (open_w_ok _ _ _); cbn [negb] in Hc; [|discriminate].
    unfold write_bytes in Hc.
    destruct (fits _ _); cbn [negb] in Hc; [|discriminate].
    exists k, src, jpg. split; [done|]. split; [done|].
    destruct (carry_exif E src jpg); injection Hc as <- <-; rewrite ?EnvFacts.read_write_eq; done.
  - destruct (Tk.process_file E dd sc st fp) as [st' o] eqn:Hp.
    destruct (TkFacts.process_file_spec _ _ _ _ _ _ _ Hp) as (_ & _ & _ & _ & _ & _ & _ & H).
    destruct (H _ Htemp) as [H1 H2]. simpl. split.
    + intros Hcr. unfold read_file. apply not_elem_of_dom. by apply H1.
    + intros c' Hc'. apply H2. apply elem_of_dom. by exists c'.
Qed.

(** C10 (amended): for a zero-byte source, the first read is empty so the
    loop exits before any division. (a) When the source can be read, the
    destination opened and [copystat] succeeds, the copy returns [True]
    with the single progress value 100 and logs no copy failure (at most
    the best-effort EXIF warning); for a non-image source the destination
    is the empty file and the log is unchanged. (b) An empty file that is
    neither an image nor a video goes to Manually Check and is counted
    there exactly when its copy returns [True], which it does when the
    destination can be opened and [copystat] succeeds. (c) An empty image
    that is not converted and that PIL cannot fingerprint goes to Errors
    with no fingerprint, and [files_copied] does not count it. *)
Theorem empty_copy_succeeds :
  (forall E f lg src dst,
     read_file f src = Some [] -> open_w_ok E f dst = true -> can_copystat E src dst = true ->
     exists f' lg',
       Tk.copy_file_with_progress E f lg src dst = (true, f', lg', [inject_Z 100]) /\
       tk_tally lg' = tk_tally lg /\
       (Tk.errors lg' = Tk.errors lg \/ Tk.errors lg' = Tk.errors lg ++ [Tk.EExifUnexpected src]) /\
       (Tk.exif_copy_applies src = false -> f' = write_file f dst [] /\ lg' = lg)) /\
  (forall E dd sc st fp,
     read_file (Tk.st_fs st) fp = Some [] ->
     str_in (lower (snd (splitext fp))) ALL_IMAGE_EXTENSIONS = false ->
     str_in (lower (snd (splitext fp))) VIDEO_EXTENSIONS = false ->
     let '(st', o) := Tk.process_file E dd sc st fp in
     TkProps.is_manual (Tk.o_route o) = true /\
     Tk.manually_checked_files (Tk.st_log st') =
       Tk.manually_checked_files (Tk.st_log st) + (if Tk.o_copied o then 1 else 0) /\
     (Tk.o_copied o = true <->
        open_w_ok E (Tk.st_fs st) (tk_route_dst (Tk.o_route o)) = true /\
        can_copystat E fp (tk_route_dst (Tk.o_route o)) = true)) /\
  (forall E dd sc st fp,
     read_file (Tk.st_fs st) fp = Some [] -> average_hash E [] = None ->
     str_in (lower (snd (splitext fp))) ALL_IMAGE_EXTENSIONS = true ->
     str_in (lower (snd (splitext fp))) CONVERTIBLE_IMAGE_EXTENSIONS = false ->
     let '(st', o) := Tk.process_file E dd sc st fp in
     is_error (Tk.o_route o) = true /\ Tk.o_hash o = None /\
     Tk.files_copied (Tk.st_log st') = Tk.files_copied (Tk.st_log st)).
Proof.
  split; [|split].
  - intros E f lg src dst Hr Ho Hcs. unfold Tk.copy_file_with_progress.
    pose proof TkFacts.chunk_size_pos as HK. revert HK. generalize Tk.CHUNK_SIZE. intros K HK.
    rewrite Hr, Ho. cbn [negb].
    destruct K as [|K]; [lia|]. simpl. rewrite Hcs. cbn [negb].
    destruct (Tk.exif_copy_applies src); [destruct (exif_transfer E [] [])|].
    + eexists _, _. split; [reflexivity|]. split; [done|]. split; [by left|done].
    + eexists _, _. split; [reflexivity|]. split; [apply TkFacts.tally_log_error|].
      split; [right; apply TkFacts.errors_log_error|done].
    + eexists _, _. split; [reflexivity|]. split; [done|]. split; [by left|done].
    + eexists _, _. split; [reflexivity|]. split; [done|]. split; [by left|done].
  - intros E dd sc st fp Hr Hi Hv.
    unfold Tk.process_file, Tk.try_body. cbv zeta. rewrite Hi, Hv.
    unfold Tk.copy_resolved.
    set (dst := resolve (Tk.st_fs st) (Tk.manually_check_dir dd) (basename fp)).
    pose proof (TkFacts.copy_ok_iff E (Tk.st_fs st) (Tk.st_log st) fp dst) as Hiff.
    destruct (Tk.copy_file_with_progress E (Tk.st_fs st) (Tk.st_log st) fp dst)
      as [[[ok f1] lg1] pr] eqn:Hc.
    destruct (TkFacts.copy_spec _ _ _ _ _ _ _ _ _ Hc) as (Ht & _).
    cbn [fst snd] in Hiff |- *. rewrite Hr in Hiff.
    split; [done|]. split.
    + unfold tk_tally in Ht. destruct lg1, (Tk.st_log st). simpl in Ht |- *. simplify_eq.
      destruct ok; simpl; lia.
    + rewrite Hiff. split.
      * intros (c & [= <-] & H1 & _ & H3). done.
      * intros [H1 H3]. exists []. split; [done|]. split; [done|]. split; [apply TkFacts.fits_0|done].
  - intros E dd sc st fp Hr Hh Hi Hcv.
    destruct (Tk.process_file E dd sc st fp) as [st' o] eqn:Hp.
    destruct (TkFacts.process_file_spec _ _ _ _ _ _ _ Hp) as (_ & _ & _ & _ & Hfc & _).
    assert (Ho : is_error (Tk.o_route o) = true /\ Tk.o_hash o = None).
    { revert Hp. unfold Tk.process_file, Tk.try_body. cbv zeta. rewrite Hi, Hcv.
      unfold Tk.image_tail, Tk.calculate_image_hash. rewrite Hr, Hh. cbv beta iota zeta.
      unfold Tk.except_handler.
      destruct (Tk.copy_resolved _ _ _ _ _) as [[[ok dst] f1] lg1].
      intros [= _ <-]. done. }
    destruct Ho as [He Hn]. split; [done|]. split; [done|].
    rewrite Hfc. destruct (Tk.o_route o); try discriminate. simpl. lia.
Qed.

(** C1 (amended): in a run, the duplicate test on a file's fingerprint is
    made against the fingerprints of the files before it only, and the
    fingerprint is recorded after the test, so no file is its own
    duplicate. A file whose fingerprint was seen before goes to Suspect
    Duplicates (Streamlit: or to Errors when that copy raised) and is not
    counted in [files_copied]. A file with a new fingerprint is sent to the
    organized tree, or to Errors: in the Tkinter front-end only when
    creating its dated folder raised, in the Streamlit front-end also when
    the copy raised. Its fingerprint is recorded in both cases, so a later
    file with that fingerprint is a suspect duplicate even when the first
    never reached the organized tree. [files_copied] counts exactly the
    files whose copy into the organized tree completed. *)
Theorem duplicate_test_precedes_record :
  (forall E f0 src dd sc walk,
     let r := Tk.organize_photos_core E f0 src dd sc walk in
     (forall j o h, Tk.rr_trace r !! j = Some o -> Tk.o_hash o = Some h ->
        let seen : gset Z := list_to_set (tk_hashes (take j (Tk.rr_trace r))) in
        (h ∈ seen -> is_dup (Tk.o_route o) = true) /\
        ((h ∉ seen) -> is_main (Tk.o_route o) = true \/
           (is_error (Tk.o_route o) = true /\ exists t,
              (exists n, Tk.EProcessingCopied (Tk.o_file o) (Tk.XMakedirs t) n ∈ Tk.errors (Tk.rr_stats r)) \/
              Tk.EProcessingNotCopied (Tk.o_file o) (Tk.XMakedirs t) ∈ Tk.errors (Tk.rr_stats r)))) /\
     Tk.files_copied (Tk.rr_stats r) =
       count_if (fun o => is_main (Tk.o_route o) && Tk.o_copied o) (Tk.rr_trace r)) /\
  (forall E td f0 lg0 dd sc walk,
     let '(st, tr, _) := Pics.organize_photos_core E td f0 lg0 dd sc walk in
     Pics.st_seen st = list_to_set (pics_hashes tr) /\
     (forall j o h, tr !! j = Some o -> Pics.o_hash o = Some h ->
        let seen : gset (option Z) := list_to_set (pics_hashes (take j tr)) in
        (h ∈ seen -> pics_is_main (Pics.o_route o) = false /\
           (pics_is_dup (Pics.o_route o) = true \/ PicsProps.pics_is_error (Pics.o_route o) = true)) /\
        ((h ∉ seen) -> pics_is_dup (Pics.o_route o) = false /\
           (pics_is_main (Pics.o_route o) = true \/ PicsProps.pics_is_error (Pics.o_route o) = true))) /\
     Pics.files_copied (Pics.st_log st) =
       Pics.files_copied lg0 + count_if (fun o => pics_is_main (Pics.o_route o) && Pics.o_copied o) tr).
Proof.
  split.
  - intros E f0 src dd sc walk. cbv zeta.
    destruct (tk_organize_cases E f0 src dd sc walk)
      as [(_ & -> & -> & _)|(f1 & st & _ & Hr & -> & _)].
    { split; [intros j o h Hj; by rewrite lookup_nil in Hj|done]. }
    destruct (TkFacts.run_loop_spec _ _ _ _ _ _ _ Hr)
      as (_ & _ & Rd & _ & Rc & _ & [sfx [Rsfx [_ Rpe]]]).
    cbn [Tk.st_seen Tk.st_log] in *. rewrite Rsfx. cbn [Tk.errors Tk.empty_stats app].
    split; [|rewrite Rc; done].
    intros j o h Hj Hh. cbv zeta. destruct (Rd j o h Hj Hh) as [D1 D2].
    rewrite union_empty_l_L in D1, D2. split; [done|].
    intros Hn. destruct (D2 Hn) as [Hm|He]; [by left|right].
    split; [done|].
    assert (Ho : o ∈ Tk.rr_trace (Tk.organize_photos_core E f0 src dd sc walk))
      by (by eapply list_elem_of_lookup_2).
    destruct (Rpe o Ho He) as (e & He1 & He2).
    destruct (He1 ltac:(by rewrite Hh)) as [t ->]. by exists t.
  - intros E td f0 lg0 dd sc walk. unfold Pics.organize_photos_core.
    destruct (Pics.makedirs_each E f0 _) as [f1 []].
    + match goal with |- context [Pics.run_loop E td dd sc ?st0 walk] =>
        destruct (Pics.run_loop E td dd sc st0 walk) as [[st tr] ok] eqn:Hr end.
      destruct (PicsFacts.pics_run_loop_spec _ _ _ _ _ _ _ _ _ Hr) as (Rs & Rd & Rc).
      cbn [Pics.st_seen Pics.st_log] in *. rewrite union_empty_l_L in Rs.
      split; [done|]. split; [|done].
      intros j o h Hj Hh. cbv zeta. destruct (Rd j o h Hj Hh) as [D1 D2].
      rewrite union_empty_l_L in D1, D2. done.
    + cbn. split; [done|]. split; [intros j o h Hj; by rewrite lookup_nil in Hj|].
      unfold count_if. simpl. lia.
Qed.


(** C2 (Streamlit front-end): two images named [a.jpg] in different source
    folders, with the same date and different content, are both copied to
    [/dst/2023/a.jpg]; the second [shutil.copy2] overwrites the first, whose
    bytes are lost, while [files_copied] counts two. The Tkinter front-end
    resolves the same collision to [a_1.jpg]. *)
Lemma pics_same_name_overwrites :
  (let '(st, tr, _) := Pics.organize_photos_core test_env "/tmp" same_name_fs Pics.empty_stats
                         "/dst" "YYYY" same_name_walk in
   map Pics.o_route tr = [Pics.RMain "/dst/2023/a.jpg"; Pics.RMain "/dst/2023/a.jpg"] /\
   read_file (Pics.st_fs st) "/dst/2023/a.jpg" = Some [7; 6]%Z /\
   Pics.files_copied (Pics.st_log st) = 2) /\
  map Tk.o_route (Tk.rr_trace (Tk.organize_photos_core test_env same_name_fs "/src" "/dst" "YYYY"
                                 same_name_walk)) =
    [Tk.RMain "/dst/2023/a.jpg"; Tk.RMain "/dst/2023/a_1.jpg"].
Proof. vm_compute. repeat split. Qed.

(** C3 (Tkinter front-end): when the copy of an image into the organized
    tree fails, [copy_file_with_progress] logs the failure and returns
    [False], which the caller ignores: the file is not sent to Errors and
    [files_moved_to_errors] stays 0. The Streamlit front-end sends the same
    file to Errors and counts it. *)
Lemma tk_failed_copy_not_quarantined :
  (let r := Tk.organize_photos_core (env_failing_dst "/dst/2023/07/a.jpg")
              (fs_of [("/src/a.jpg", [5; 6]%Z)]) "/src" "/dst" "YYYY/MM" ["/src/a.jpg"] in
   map Tk.o_route (Tk.rr_trace r) = [Tk.RMain "/dst/2023/07/a.jpg"] /\
   map Tk.o_copied (Tk.rr_trace r) = [false] /\
   Tk.files_moved_to_errors (Tk.rr_stats r) = 0 /\
   Tk.errors (Tk.rr_stats r) = [Tk.ECopyFailed "/src/a.jpg" "/dst/2023/07/a.jpg"] /\
   read_file (Tk.rr_fs r) "/dst/Errors/a.jpg" = None) /\
  (let '(st, tr, _) := Pics.organize_photos_core (env_failing_dst "/dst/2023/07/a.jpg") "/tmp"
                         (fs_of [("/src/a.jpg", [5; 6]%Z)]) Pics.empty_stats "/dst" "YYYY/MM"
                         ["/src/a.jpg"] in
   map Pics.o_route tr = [Pics.RError "/dst/Errors/a.jpg"] /\
   Pics.files_moved_to_errors (Pics.st_log st) = 1).
Proof. vm_compute. repeat split. Qed.

(** C7 (Streamlit front-end): [calculate_image_hash] returns [None] for two
    images PIL cannot fingerprint; [None] is tested against and added to
    [copied_file_hashes] like a fingerprint, so the first is copied into
    the organized tree and the second is flagged as its duplicate, and
    neither reaches Errors. The Tkinter front-end raises on [None] and
    sends both to Errors. *)
Lemma pics_hash_failure_not_quarantined :
  (let '(st, tr, _) := Pics.organize_photos_core test_env "/tmp" corrupt_fs Pics.empty_stats
                         "/dst" "YYYY" corrupt_walk in
   map Pics.o_route tr = [Pics.RMain "/dst/2023/c.jpg"; Pics.RDup "/dst/Suspect Duplicates/d.jpg"] /\
   bool_decide (None ∈ Pics.st_seen st) = true /\
   Pics.files_copied (Pics.st_log st) = 1 /\
   Pics.files_moved_to_errors (Pics.st_log st) = 0) /\
  map Tk.o_route (Tk.rr_trace (Tk.organize_photos_core test_env corrupt_fs "/src" "/dst" "YYYY"
                                 corrupt_walk)) =
    [Tk.RError "/dst/Errors/c.jpg"; Tk.RError "/dst/Errors/d.jpg"].
Proof. vm_compute. repeat split. Qed.


(** Counterexample to C1 as stated: a regular file [/dst/2023] blocks the
    dated folder [/dst/2023/07], so the first of two identical images goes
    to Errors in both front-ends, while its fingerprint is recorded and
    the second is still sent to Suspect Duplicates; nothing reaches the
    organized tree. *)
Lemma first_copy_sent_to_errors :
  (let r := Tk.organize_photos_core test_env year_file_fs "/src" "/dst" "YYYY/MM" dup_walk in
   map Tk.o_route (Tk.rr_trace r) =
     [Tk.RError "/dst/Errors/a.jpg"; Tk.RDup "/dst/Suspect Duplicates/b.jpg"] /\
   Tk.files_copied (Tk.rr_stats r) = 0 /\
   Tk.errors (Tk.rr_stats r) =
     [Tk.EProcessingCopied "/src/a.jpg" (Tk.XMakedirs "/dst/2023/07") "a.jpg"]) /\
  (let '(st, tr, _) := Pics.organize_photos_core test_env "/tmp" year_file_fs Pics.empty_stats
                         "/dst" "YYYY/MM" dup_walk in
   map Pics.o_route tr =
     [Pics.RError "/dst/Errors/a.jpg"; Pics.RDup "/dst/Suspect Duplicates/b.jpg"] /\
   Pics.files_copied (Pics.st_log st) = 0).
Proof. vm_compute. repeat split. Qed.

(** Counterexample to C6 as stated: when [os.remove] fails (here on every
    file), the temporary JPEG of a raw file survives the iteration in both
    front-ends; the Tkinter run logs it and completes, the Streamlit run
    ends with the exception. *)
Lemma temp_jpg_kept_when_remove_fails :
  (let r := Tk.organize_photos_core env_keep_temps raw_tmp_fs "/src" "/dst" "YYYY" ["/src/b.CR2"] in
   read_file (Tk.rr_fs r) "/src/b.jpg" = Some [255; 216; 3; 4]%Z /\
   Tk.errors (Tk.rr_stats r) = [Tk.ERemoveTemp "/src/b.jpg"] /\
   Tk.rr_status r = Tk.Completed) /\
  (let '(st, _, ok) := Pics.organize_photos_core env_keep_temps "/tmp" raw_tmp_fs Pics.empty_stats
                         "/dst" "YYYY" ["/src/b.CR2"] in
   read_file (Pics.st_fs st) "/tmp/b.CR2.jpg" = Some [255; 216; 3; 4]%Z /\ ok = false).
Proof. vm_compute. repeat split. Qed.

(** Counterexample to C9 as stated: when [os.remove] fails, the source
    file [/src/b.jpg] next to [/src/b.CR2] is not deleted but keeps the
    converter's output in place of its own bytes [7; 8]. *)
Lemma sibling_overwritten_not_deleted :
  let r := Tk.organize_photos_core env_keep_temps sibling_fs "/src" "/dst" "YYYY" ["/src/b.CR2"] in
  read_file sibling_fs "/src/b.jpg" = Some [7; 8]%Z /\
  read_file (Tk.rr_fs r) "/src/b.jpg" = Some [255; 216; 3; 4]%Z /\
  Tk.errors (Tk.rr_stats r) = [Tk.ERemoveTemp "/src/b.jpg"].
Proof. vm_compute. repeat split. Qed.

(** Counterexample to C10 as stated: an empty text file is copied to
    Manually Check and counted there, with no copy failure logged; the
    empty image goes to Errors because it cannot be fingerprinted, not
    because its copy failed. *)
Lemma empty_files_are_copied :
  let r := Tk.organize_photos_core test_env empty_fs "/src" "/dst" "YYYY" empty_walk in
  map Tk.o_route (Tk.rr_trace r) =
    [Tk.RError "/dst/Errors/e.jpg"; Tk.RManual "/dst/Manually Check/e.txt"] /\
  map Tk.o_copied (Tk.rr_trace r) = [true; true] /\
  Tk.manually_checked_files (Tk.rr_stats r) = 1 /\
  Tk.errors (Tk.rr_stats r) =
    [Tk.EHash "/src/e.jpg"; Tk.EProcessingCopied "/src/e.jpg" (Tk.XHashFailed "/src/e.jpg") "e.jpg"].
Proof. vm_compute. repeat split. Qed.


(** *** Instances of the claims' theorems on concrete runs *)

Lemma duplicate_test_precedes_record_witness :
  (forall o, Tk.rr_trace (Tk.organize_photos_core test_env dup_fs "/src" "/dst" "YYYY/MM" dup_walk)
               !! 1 = Some o ->
     is_dup (Tk.o_route o) = true) /\
  (forall o, (Pics.organize_photos_core test_env "/tmp" dup_fs Pics.empty_stats "/dst" "YYYY/MM"
                dup_walk).1.2 !! 1 = Some o ->
     pics_is_main (Pics.o_route o) = false).
Proof.
  destruct duplicate_test_precedes_record as [HT HP]. split.
  - intros o Ho. specialize (HT test_env dup_fs "/src" "/dst" "YYYY/MM" dup_walk).
    cbv zeta in HT. destruct HT as [Hd _].
    pose proof Ho as Ho'. vm_compute in Ho'. injection Ho' as <-.
    apply (proj1 (Hd 1 _ 11%Z Ho eq_refl)). vm_compute. set_solver.
  - intros o Ho. specialize (HP test_env "/tmp" dup_fs Pics.empty_stats "/dst" "YYYY/MM" dup_walk).
    destruct (Pics.organize_photos_core test_env "/tmp" dup_fs Pics.empty_stats "/dst" "YYYY/MM"
                dup_walk) as [[st tr] ok] eqn:Hr.
    vm_compute in Hr. injection Hr as _ <- _. simpl in Ho. injection Ho as <-.
    destruct HP as (_ & Hd & _).
    destruct (Hd 1 _ (Some 11%Z) eq_refl eq_refl) as [H1 _].
    apply H1. cbn. set_solver.
Defined.


Lemma date_taken_preferred_witness :
  Tk.get_file_date test_env dated_fs "/src/a.jpg" = (mkDatetime 2021 3 15 10 0 0, None) /\
  Pics.get_file_date test_env dated_fs "/src/a.jpg" = (mkDatetime 2021 3 15 10 0 0, None) /\
  getmtime test_env "/src/a.jpg" = Some mtime_2023 /\
  strftime_Y (mkDatetime 2021 3 15 10 0 0) = "2021" /\
  strftime_m (mkDatetime 2021 3 15 10 0 0) = "03".
Proof.
  destruct date_taken_preferred as [H _].
  pose proof (H test_env dated_fs "/src/a.jpg" [1; 2]%Z
                [(306%Z, ExifStr "2024:01:01 00:00:00");
                 (TAG_DateTimeOriginal, ExifStr "2021:03:15 10:00:00")]
                "2021:03:15 10:00:00" (mkDatetime 2021 3 15 10 0 0)
                ltac:(vm_compute; reflexivity) ltac:(vm_compute; reflexivity)
                ltac:(vm_compute; reflexivity) ltac:(vm_compute; reflexivity)
                ltac:(discriminate) ltac:(vm_compute; reflexivity)) as [H1 H2].
  split; [exact H1|]. split; [exact H2|]. split; [reflexivity|].
  split; vm_compute; reflexivity.
Defined.

Lemma temp_jpg_removed_witness :
  ("/src/b.jpg" ∉ dom (fs_files (Tk.st_fs (Tk.process_file test_env "/dst" "YYYY"
                                             (Tk.mkState sibling_fs Tk.empty_stats ∅) "/src/b.CR2").1))) /\
  "/tmp/b.CR2.jpg" ∉ dom (fs_files (Pics.st_fs (Pics.process_file test_env "/tmp" "/dst" "YYYY"
                                             (Pics.mkState raw_tmp_fs Pics.empty_stats ∅) "/src/b.CR2").1.1)).
Proof.
  destruct temp_jpg_removed as [H1 H2]. split.
  - apply (H1 test_env "/dst" "YYYY" (Tk.mkState sibling_fs Tk.empty_stats ∅) "/src/b.CR2");
      [vm_compute; reflexivity|reflexivity].
  - pose proof (H2 test_env "/tmp" "/dst" "YYYY" (Pics.mkState raw_tmp_fs Pics.empty_stats ∅)
                  "/src/b.CR2" "/tmp/b.CR2.jpg" ltac:(vm_compute; reflexivity)) as H.
    destruct (Pics.process_file test_env "/tmp" "/dst" "YYYY"
                (Pics.mkState raw_tmp_fs Pics.empty_stats ∅) "/src/b.CR2") as [[st' o] ok].
    apply H. reflexivity.
Defined.


Lemma temp_jpg_clobbers_sibling_witness :
  read_file sibling_fs "/src/b.jpg" = Some [7; 8]%Z /\
  read_file (Tk.st_fs (Tk.process_file test_env "/dst" "YYYY"
                         (Tk.mkState sibling_fs Tk.empty_stats ∅) "/src/b.CR2").1) "/src/b.jpg" = None.
Proof.
  pose proof (temp_jpg_clobbers_sibling test_env "/dst" "YYYY"
                (Tk.mkState sibling_fs Tk.empty_stats ∅) "/src/b.CR2" [7; 8]%Z
                ltac:(vm_compute; reflexivity) ltac:(vm_compute; reflexivity)) as (_ & _ & H & _).
  split; [vm_compute; reflexivity|]. apply H. reflexivity.
Defined.

Lemma empty_copy_succeeds_witness :
  (exists f' lg', Tk.copy_file_with_progress test_env empty_fs Tk.empty_stats "/src/e.txt" "/dst/e.txt" =
                  (true, f', lg', [inject_Z 100])) /\
  TkProps.is_manual (Tk.o_route (Tk.process_file test_env "/dst" "YYYY"
                                   (Tk.mkState empty_fs Tk.empty_stats ∅) "/src/e.txt").2) = true /\
  Tk.o_hash (Tk.process_file test_env "/dst" "YYYY" (Tk.mkState empty_fs Tk.empty_stats ∅)
               "/src/e.jpg").2 = None.
Proof.
  destruct empty_copy_succeeds as (Ha & Hb & Hc).
  split; [|split].
  - pose proof (Ha test_env empty_fs Tk.empty_stats "/src/e.txt" "/dst/e.txt"
                  ltac:(vm_compute; reflexivity) ltac:(vm_compute; reflexivity) eq_refl)
      as (f' & lg' & H & _).
    exists f', lg'. exact H.
  - pose proof (Hb test_env "/dst" "YYYY" (Tk.mkState empty_fs Tk.empty_stats ∅) "/src/e.txt"
                  ltac:(vm_compute; reflexivity) ltac:(vm_compute; reflexivity)
                  ltac:(vm_compute; reflexivity)) as H.
    destruct (Tk.process_file test_env "/dst" "YYYY" (Tk.mkState empty_fs Tk.empty_stats ∅) "/src/e.txt")
      as [st' o]. destruct H as (Hm & _). exact Hm.
  - pose proof (Hc test_env "/dst" "YYYY" (Tk.mkState empty_fs Tk.empty_stats ∅) "/src/e.jpg"
                  ltac:(vm_compute; reflexivity) ltac:(vm_compute; reflexivity)
                  ltac:(vm_compute; reflexivity) ltac:(vm_compute; reflexivity)) as H.
    destruct (Tk.process_file test_env "/dst" "YYYY" (Tk.mkState empty_fs Tk.empty_stats ∅) "/src/e.jpg")
      as [st' o]. destruct H as (_ & Hn & _). exact Hn.
Defined.

End Claims.

(** ** The further properties on concrete runs *)

Module TkExamples.
Import PyPath Env Ext Tk Measure PathProps TkProps TkMore Concrete.

Lemma tk_run_keeps_existing_files_witness :
  read_file (rr_fs (organize_photos_core test_env batch_fs "/src" "/dst" "YYYY" batch_walk))
    "/src/1.jpg" = Some [10]%Z.
Proof.
  apply (tk_run_keeps_existing_files test_env batch_fs "/src" "/dst" "YYYY" batch_walk
           "/src/1.jpg" [10]%Z); [vm_compute; reflexivity| |].
  { intros Heq. vm_compute in Heq. discriminate Heq. }
  intros fp Hfp. apply list_elem_of_In in Hfp. simpl in Hfp.
  repeat destruct Hfp as [<-|Hfp]; try contradiction; vm_compute; discriminate.
Defined.

Lemma tk_writes_confined_witness :
  read_file (rr_fs (organize_photos_core test_env batch_fs "/src" "/dst" "YYYY" batch_walk))
    "/src/2.jpg" = read_file batch_fs "/src/2.jpg".
Proof.
  apply tk_writes_confined.
  - intros [s Hs]. vm_compute in Hs. discriminate Hs.
  - intros fp Hfp. apply list_elem_of_In in Hfp. simpl in Hfp.
    repeat destruct Hfp as [<-|Hfp]; try contradiction; vm_compute; discriminate.
Defined.

Lemma copy_outcome_witness :
  copy_file_with_progress test_env empty_fs empty_stats "/src/gone.jpg" "/dst/gone.jpg" =
  (false, empty_fs, log_error (ECopyFailed "/src/gone.jpg" "/dst/gone.jpg") empty_stats, [0%Q]).
Proof.
  destruct (copy_file_with_progress test_env empty_fs empty_stats "/src/gone.jpg" "/dst/gone.jpg")
    as [[[ok f'] lg'] pr] eqn:Hc.
  destruct (copy_outcome _ _ _ _ _ _ _ _ _ Hc) as [Hiff Hfalse].
  destruct ok.
  - destruct (proj1 Hiff eq_refl) as [x [Hx _]]. vm_compute in Hx. discriminate Hx.
  - destruct (Hfalse eq_refl) as (-> & _ & _ & Hnone).
    destruct (Hnone ltac:(left; vm_compute; reflexivity)) as [-> ->]. reflexivity.
Defined.


Lemma tk_routes_by_extension_witness :
  exists o, o ∈ rr_trace (organize_photos_core test_env dup_fs "/src" "/dst" "YYYY" dup_walk) /\
    o_file o = "/src/b.jpg" /\
    tk_route_ok "/dst" "YYYY" (o_file o) (o_route o).
Proof.
  pose proof (tk_routes_by_extension test_env dup_fs "/src" "/dst" "YYYY" dup_walk) as H.
  destruct (rr_trace (organize_photos_core test_env dup_fs "/src" "/dst" "YYYY" dup_walk))
    as [|o1 [|o2 tr]] eqn:Ht; vm_compute in Ht; try discriminate Ht.
  exists o2. split; [right; left|]. split.
  - injection Ht as _ <- _. reflexivity.
  - apply H. right; left.
Defined.

End TkExamples.

Module PicsExamples.
Import PyPath Env Ext Pics Measure PathProps PicsProps PicsMore Concrete.

Lemma pics_session_counters_witness :
  let '(st', tr, _) := organize_photos_core test_env "/tmp" (fs_of []) empty_stats "/dst" "YYYY"
                         ["/src/gone.txt"] in
  (exists o, o ∈ tr /\ o_copied o = false /\ pics_is_error (o_route o) = true) /\
  pics_tally (st_log st') = (0, 0, 0, 0, 0)%nat.
Proof.
  pose proof (pics_session_counters test_env "/tmp" (fs_of []) empty_stats "/dst" "YYYY"
                ["/src/gone.txt"]) as H.
  destruct (organize_photos_core test_env "/tmp" (fs_of []) empty_stats "/dst" "YYYY"
              ["/src/gone.txt"]) as [[st' tr] ok] eqn:Hr.
  destruct H as (Hc & _ & Ht).
  pose proof Hr as Hr'. vm_compute in Hr'. injection Hr' as _ <- _.
  split.
  - eexists. split; [left|]. split; [reflexivity|]. apply Hc; [left|reflexivity].
  - rewrite Ht. vm_compute. reflexivity.
Defined.

Lemma pics_run_flag_witness :
  (let '(_, tr, _) := organize_photos_core test_env "/tmp" dup_fs empty_stats "/dst" "YYYY" dup_walk in
   map o_file tr = dup_walk) /\
  (let '(st', tr, _) := organize_photos_core test_env "/tmp" blocked_fs empty_stats "/dst" "YYYY"
                          blocked_walk in
   exists n fp, map o_file tr = take (S n) blocked_walk /\ blocked_walk !! n = Some fp /\
     convertible fp = true /\ temp_stuck test_env (st_fs st') (join "/tmp" (basename fp +:+ ".jpg"))).
Proof.
  split.
  - pose proof (pics_run_flag test_env "/tmp" dup_fs empty_stats "/dst" "YYYY" dup_walk) as H.
    destruct (organize_photos_core test_env "/tmp" dup_fs empty_stats "/dst" "YYYY" dup_walk)
      as [[st' tr] ok] eqn:Hr.
    destruct H as [H _]. apply H. vm_compute in Hr. injection Hr as _ _ <-. reflexivity.
  - pose proof (pics_run_flag test_env "/tmp" blocked_fs empty_stats "/dst" "YYYY" blocked_walk) as H.
    destruct (organize_photos_core test_env "/tmp" blocked_fs empty_stats "/dst" "YYYY" blocked_walk)
      as [[st' tr] ok] eqn:Hr.
    destruct H as [_ H]. vm_compute in Hr. injection Hr as _ _ <-.
    destruct (H eq_refl) as [(Hm & _)|(_ & Hex)]; [vm_compute in Hm; discriminate Hm|exact Hex].
Defined.

Lemma pics_writes_confined_witness :
  read_file (st_fs (organize_photos_core test_env "/tmp" dup_fs empty_stats "/dst" "YYYY" dup_walk).1.1)
    "/src/a.jpg" = read_file dup_fs "/src/a.jpg".
Proof.
  apply pics_writes_confined; intros [s Hs]; vm_compute in Hs; discriminate Hs.
Defined.

Lemma pics_routes_by_extension_witness :
  exists o, o ∈ (organize_photos_core test_env "/tmp" dup_fs empty_stats "/dst" "YYYY" dup_walk).1.2 /\
    o_file o = "/src/b.jpg" /\
    pics_route_ok "/tmp" "/dst" "YYYY" (o_file o) (o_route o).
Proof.
  pose proof (pics_routes_by_extension test_env "/tmp" dup_fs empty_stats "/dst" "YYYY" dup_walk) as H.
  destruct (organize_photos_core test_env "/tmp" dup_fs empty_stats "/dst" "YYYY" dup_walk).1.2
    as [|o1 [|o2 tr]] eqn:Ht; vm_compute in Ht; try discriminate Ht.
  exists o2. split; [right; left|]. split.
  - injection Ht as _ <- _. reflexivity.
  - apply H. right; left.
Defined.

End PicsExamples.
